(** * Page builder: block rendering, config sanitizer and page versions

    A shallow embedding of the website-builder module of the platform API
    (page-builder.js): the two registered template helpers, [escapeHtml],
    [escapeBlockConfig], [renderBlocks] and the [PUT /api/pages/:id]
    handler, together with the properties stated for them. *)

From Stdlib Require Import ZArith Ascii String List Bool Lia.
From stdpp Require Import base option list strings gmap pretty.

Local Open Scope string_scope.
Local Open Scope Z_scope.
Local Open Scope list_scope.

(** ** JavaScript values *)

(** The values a block configuration is made of once the request body or the
    JSONB column has been parsed, plus [undefined] (a missing member).  An
    object is the list of its members in [Object.entries] order.  Numbers are
    the integer-valued ones, printed in decimal. *)
#[local] Unset Elimination Schemes.
Inductive value : Type :=
| VUndefined
| VNull
| VBool (b : bool)
| VNum (n : Z)
| VStr (s : string)
| VArr (items : list value)
| VObj (members : list (string * value)).
#[local] Set Elimination Schemes.

Inductive js_type : Type :=
| TUndefined | TObject | TBoolean | TNumber | TString.

Definition js_type_eqb (a b : js_type) : bool :=
  match a, b with
  | TUndefined, TUndefined | TObject, TObject | TBoolean, TBoolean
  | TNumber, TNumber | TString, TString => true
  | _, _ => false
  end.

(** [typeof v]: [null], arrays and objects all answer ['object']. *)
Definition typeof (v : value) : js_type :=
  match v with
  | VUndefined => TUndefined
  | VNull | VArr _ | VObj _ => TObject
  | VBool _ => TBoolean
  | VNum _ => TNumber
  | VStr _ => TString
  end.

(** [obj[key]] on the members of a plain object. *)
Fixpoint get_member (key : string) (members : list (string * value)) : value :=
  match members with
  | [] => VUndefined
  | (k, v) :: rest => if String.eqb k key then v else get_member key rest
  end.

(** [obj[key] = v] on the members of a plain object: an existing member keeps
    its place, a new one goes last. *)
Fixpoint set_member (key : string) (v : value) (members : list (string * value))
  : list (string * value) :=
  match members with
  | [] => [(key, v)]
  | (k, w) :: rest =>
      if String.eqb k key then (k, v) :: rest else (k, w) :: set_member key v rest
  end.

(** Joining with a separator, as [Array.prototype.join] does. *)
Fixpoint join (sep : string) (parts : list string) : string :=
  match parts with
  | [] => ""
  | [p] => p
  | p :: rest => p +:+ sep +:+ join sep rest
  end.

(** [String(v)].  An array prints its elements separated by commas, with
    [null] and [undefined] elements printed as nothing. *)
Fixpoint to_String (v : value) : string :=
  match v with
  | VUndefined => "undefined"
  | VNull => "null"
  | VBool b => if b then "true" else "false"
  | VNum n => pretty n
  | VStr s => s
  | VArr items =>
      join "," (map (fun item =>
                       match item with
                       | VUndefined | VNull => ""
                       | _ => to_String item
                       end) items)
  | VObj _ => "[object Object]"
  end.

(** ** escapeHtml *)

Definition quot : ascii := "034"%char.

(** The replacement table [map] of [escapeHtml]. *)
Definition escape_char (c : ascii) : string :=
  if Ascii.eqb c "&"%char then "&amp;"
  else if Ascii.eqb c "<"%char then "&lt;"
  else if Ascii.eqb c ">"%char then "&gt;"
  else if Ascii.eqb c quot then "&quot;"
  else if Ascii.eqb c "'"%char then "&#039;"
  else String c "".

(** [text.replace(re, m => map[m])], where the global pattern [re] matches
    each of the five characters of the table. *)
Fixpoint escapeHtml (text : string) : string :=
  match text with
  | EmptyString => ""
  | String c rest => escape_char c +:+ escapeHtml rest
  end.

(** ** escapeBlockConfig *)

(** The callback of [value.map] in the array branch. *)
Definition escape_item (rec : value -> value) (item : value) : value :=
  if js_type_eqb (typeof item) TObject then rec item
  else VStr (escapeHtml (to_String item)).

(** The body of the [for] loop: what is stored under [key] for [value]. *)
Definition escape_field (rec : value -> value) (key : string) (v : value) : value :=
  match v with
  | VStr s => if String.eqb key "content" then v else VStr (escapeHtml s)
  | VArr items => VArr (map (escape_item rec) items)
  | VNull | VObj _ => rec v
  | VUndefined | VBool _ | VNum _ => v
  end.

(** [Object.entries] of an array: its elements under their decimal indices. *)
Fixpoint array_entries (i : nat) (items : list value) : list (string * value) :=
  match items with
  | [] => []
  | item :: rest => (pretty i, item) :: array_entries (S i) rest
  end.

(** [Object.entries(config)] for a non-null value of type ['object']. *)
Definition Object_entries (v : value) : list (string * value) :=
  match v with
  | VObj members => members
  | VArr items => array_entries 0 items
  | _ => []
  end.

(** The loop [for (const [key, value] of entries) escaped[key] = ...]. *)
Fixpoint escape_entries (rec : value -> value) (entries : list (string * value))
    (escaped : list (string * value)) : list (string * value) :=
  match entries with
  | [] => escaped
  | (key, v) :: rest =>
      escape_entries rec rest (set_member key (escape_field rec key v) escaped)
  end.

(** The same loop over the entries of an array, whose keys are the decimal
    indices [i], [i+1], ... *)
Fixpoint escape_array_entries (rec : value -> value) (i : nat) (items : list value)
    (escaped : list (string * value)) : list (string * value) :=
  match items with
  | [] => escaped
  | v :: rest =>
      escape_array_entries rec (S i) rest
        (set_member (pretty i) (escape_field rec (pretty i) v) escaped)
  end.

Fixpoint escapeBlockConfig (config : value) : value :=
  match config with
  | VUndefined | VBool _ | VNum _ | VStr _ => config   (* typeof config !== 'object' *)
  | VNull => config                                    (* config === null *)
  | VObj members => VObj (escape_entries escapeBlockConfig members [])
  | VArr items => VObj (escape_array_entries escapeBlockConfig 0 items [])
  end.

(** ** JSON.stringify *)

Definition hex_digit (n : nat) : ascii :=
  nth n (list_ascii_of_string "0123456789abcdef") "0"%char.

(** One character inside a JSON string literal. *)
Definition json_char (c : ascii) : string :=
  let n := nat_of_ascii c in
  if Ascii.eqb c quot then String "\"%char (String quot "")
  else if Ascii.eqb c "\"%char then "\\"
  else if Nat.eqb n 8 then "\b"
  else if Nat.eqb n 9 then "\t"
  else if Nat.eqb n 10 then "\n"
  else if Nat.eqb n 12 then "\f"
  else if Nat.eqb n 13 then "\r"
  else if Nat.ltb n 32 then
    "\u00" +:+ String (hex_digit (n / 16)) (String (hex_digit (n mod 16)) "")
  else String c "".

Fixpoint json_chars (s : string) : string :=
  match s with
  | EmptyString => ""
  | String c rest => json_char c +:+ json_chars rest
  end.

Definition json_quote (s : string) : string :=
  String quot (json_chars s) +:+ String quot "".

(** The text of a value; [None] for [undefined], which has none. *)
Fixpoint json_text (v : value) : option string :=
  match v with
  | VUndefined => None
  | VNull => Some "null"
  | VBool b => Some (if b then "true" else "false")
  | VNum n => Some (pretty n)
  | VStr s => Some (json_quote s)
  | VArr items =>
      Some ("[" +:+ join "," (map (fun item => default "null" (json_text item)) items)
                +:+ "]")
  | VObj members =>
      Some ("{" +:+ join ","
                  (omap (fun kv => match json_text (snd kv) with
                                   | Some t => Some (json_quote (fst kv) +:+ ":" +:+ t)
                                   | None => None
                                   end) members)
                +:+ "}")
  end.

Definition JSON_stringify (v : value) : value :=
  match json_text v with
  | Some t => VStr t
  | None => VUndefined
  end.

(** ** The registered template helpers *)

(** What the template runtime hands to a block helper: [options.fn] renders
    the section body and [options.inverse] the part after [else], each
    against the context it is given.  [None] stands for a thrown exception. *)
Record Options : Type := {
  fn : value -> option string;
  inverse : value -> option string
}.

(** The condition of a JavaScript [if]. *)
Definition truthy (v : value) : bool :=
  match v with
  | VUndefined | VNull => false
  | VBool b => b
  | VNum n => negb (n =? 0)
  | VStr s => negb (String.eqb s "")
  | VArr _ | VObj _ => true
  end.

(** [Handlebars.registerHelper('if', function(conditional, options) ...)] *)
Definition if_helper (this conditional : value) (options : Options) : option string :=
  if truthy conditional then fn options this else inverse options this.

(** [context.length]; reading a property of [undefined] or [null] throws.
    A string is taken as its sequence of bytes, which is its sequence of
    characters for ASCII text. *)
Definition get_length (context : value) : option value :=
  match context with
  | VUndefined | VNull => None
  | VArr items => Some (VNum (Z.of_nat (length items)))
  | VStr s => Some (VNum (Z.of_nat (String.length s)))
  | VObj members => Some (get_member "length" members)
  | VBool _ | VNum _ => Some VUndefined
  end.

(** [context[i]] *)
Definition get_index (context : value) (i : nat) : value :=
  match context with
  | VArr items => nth i items VUndefined
  | VStr s => match String.get i s with
              | Some c => VStr (String c "")
              | None => VUndefined
              end
  | VObj members => get_member (pretty i) members
  | _ => VUndefined
  end.

(** How many of [i = 0, 1, 2, ...] pass the test [i < j].  The bound [j] is
    a number for arrays and strings and [undefined] for values without a
    [length]; only an object with a member named [length] can bring another
    bound, which the comparison coerces to a number: this is followed for
    numbers, booleans, [null] and [undefined], and a string, array or object
    as bound is counted as failing the first test. *)
Definition iterations (j : value) : nat :=
  match j with
  | VNum n => Z.to_nat n
  | VBool true => 1
  | _ => 0
  end.

(** [Handlebars.registerHelper('each', function(context, options) ...)] *)
Definition each_helper (context : value) (options : Options) : option string :=
  j ← get_length context;
  foldl (fun ret i =>
           r ← ret; out ← fn options (get_index context i); Some (r +:+ out))
        (Some "") (seq 0 (iterations j)).

(** ** The template runtime *)

(** Modelled from the spec: the template compiler and interpreter of section
    4.1 (the Handlebars library, which is not part of the repository
    sources).  A compiled template is its node tree; a variable node
    substitutes the stringified value found in the scope; a section node calls
    the helper registered above under its name. *)
Record path : Type := {
  up : nat;                   (* number of leading [../] *)
  segments : list string      (* member names; empty for [this] *)
}.

#[local] Unset Elimination Schemes.
(** Modelled from the spec: the tagged nodes of a compiled template. *)
Inductive node : Type :=
| Text (s : string)
| Var (p : path)
| Conditional (p : path) (A B : list node)
| Iteration (p : path) (body : list node).
#[local] Set Elimination Schemes.

(** The field [key] of a container: a member of an object, or an element
    of an array under its decimal index, or the [length] of the array. The
    characters of a string are not fields. *)
Definition get_property (v : value) (key : string) : value :=
  match v with
  | VObj members => get_member key members
  | VArr items =>
      if String.eqb key "length" then VNum (Z.of_nat (length items))
      else get_member key (array_entries 0 items)
  | _ => VUndefined
  end.

(** Modelled from the spec: field lookup of section 4.1; [scopes] holds the
    current scope first, then its parents. *)
Definition resolve (p : path) (scopes : list value) : value :=
  fold_left get_property (segments p) (nth (up p) scopes VUndefined).

(** Modelled from the spec: the stringified value of a field, a missing one
    being the empty string. *)
Definition print (v : value) : string :=
  match v with
  | VUndefined | VNull => ""
  | _ => to_String v
  end.

(** Modelled from the spec: rendering of a node of section 4.1. A
    conditional renders its branch in the scope the helper passes back; an
    iteration renders its body in a child scope in front of the current
    ones. *)
Fixpoint render_node (n : node) (scopes : list value) {struct n} : option string :=
  let render_list :=
    fix go (ns : list node) (sc : list value) {struct ns} : option string :=
      match ns with
      | [] => Some ""
      | n' :: rest =>
          out ← render_node n' sc; more ← go rest sc; Some (out +:+ more)
      end in
  match n with
  | Text s => Some s
  | Var p => Some (print (resolve p scopes))
  | Conditional p A B =>
      if_helper (hd VUndefined scopes) (resolve p scopes)
        {| fn := fun ctx => render_list A (ctx :: tl scopes);
           inverse := fun ctx => render_list B (ctx :: tl scopes) |}
  | Iteration p body =>
      each_helper (resolve p scopes)
        {| fn := fun ctx => render_list body (ctx :: scopes);
           inverse := fun _ => Some "" |}
  end.

(** Modelled from the spec: rendering of a node list, fragments in order. *)
Fixpoint render_nodes (ns : list node) (scopes : list value) : option string :=
  match ns with
  | [] => Some ""
  | n :: rest =>
      out ← render_node n scopes; more ← render_nodes rest scopes; Some (out +:+ more)
  end.

(** A compiled template: a function from the scope to the HTML, or an
    exception. *)
Definition template : Type := value -> option string.

(** Modelled from the spec: [compile] of section 4.1, from the node tree of a
    template text. *)
Definition compile (t : list node) : template :=
  fun scope => render_nodes t [scope].

(** ** renderBlocks *)

(** A row of the [block_types] table, with the template text given by its
    node tree. *)
Record block_type : Type := {
  name : string;
  template_nodes : list node;
  is_enabled : bool
}.

(** An element of the [blocks] array. *)
Record block : Type := {
  type : string;
  config : value
}.

(** [SELECT name, template FROM block_types WHERE is_enabled = true] *)
Definition select_enabled (block_types : list block_type) : list block_type :=
  filter (fun bt => is_enabled bt = true) block_types.

(** The loop [templates[bt.name] = Handlebars.compile(bt.template)], as the
    finite map of the members it stores.  A row named [__proto__] would
    store no member: the assignment sets the prototype of [templates] to the
    compiled function, whose own and inherited members every later lookup
    then finds; the statements on unregistered types leave such a row out. *)
Definition load_templates (rows : list block_type) : gmap string template :=
  foldl (fun templates bt => <[name bt := compile (template_nodes bt)]> templates)
        ∅ rows.

(** [target[key] = v] in module (strict) code: it throws unless [target] is
    an object.  Only results of [escapeBlockConfig] are assigned to, and
    these are never arrays. *)
Definition set_property (target : value) (key : string) (v : value) : option value :=
  match target with
  | VObj members => Some (VObj (set_member key v members))
  | _ => None
  end.

Definition error_marker (type : string) : string :=
  "<!-- Error rendering " +:+ type +:+ " block -->".

(** [safeConfig] after the two assignments that follow the call of
    [escapeBlockConfig]; [None] when an assignment throws. *)
Definition render_scope (year : Z) (config : value) : option value :=
  let safeConfig := escapeBlockConfig config in
  safeConfig ← set_property safeConfig "year" (VNum year);
  set_property safeConfig "jsonConfig" (JSON_stringify config).

(** The body of the [try] block for one block; [None] when it throws. *)
Definition try_render (tpl : template) (year : Z) (config : value) : option string :=
  safeConfig ← render_scope year config;
  tpl safeConfig.

(** One turn of the loop over [blocks]: what is appended to [html].  The
    lookup [templates[type]] is that of a finite map; a [type] named like a
    member of [Object.prototype] (see [object_prototype_member] below) would
    find the inherited member instead, and is left out of the statements on
    unregistered types. *)
Definition render_block (templates : gmap string template) (year : Z) (b : block)
  : string :=
  match templates !! type b with
  | None => ""                              (* console.warn(...); continue *)
  | Some tpl =>
      match try_render tpl year (config b) with
      | Some out => out
      | None => error_marker (type b)       (* catch (error) *)
      end
  end.

(** The loop of [renderBlocks] over a given [templates] object. *)
Definition render_with (templates : gmap string template) (year : Z)
    (blocks : list block) : string :=
  foldl (fun html b => html +:+ render_block templates year b) "" blocks.

(** [renderBlocks(blocks, db)] for an array [blocks]; [block_types] is the
    table the query reads and [year] what the clock answers. *)
Definition renderBlocks (block_types : list block_type) (year : Z)
    (blocks : list block) : string :=
  render_with (load_templates (select_enabled block_types)) year blocks.

(** The names every plain object inherits from [Object.prototype]; looking
    one of them up in the object [templates] finds the inherited member. *)
Definition object_prototype_member (key : string) : bool :=
  bool_decide (key ∈ ["constructor"; "__defineGetter__"; "__defineSetter__";
                      "hasOwnProperty"; "__lookupGetter__"; "__lookupSetter__";
                      "isPrototypeOf"; "propertyIsEnumerable"; "toString";
                      "valueOf"; "__proto__"; "toLocaleString"]).

(** Whether an enabled row of [block_types] carries the name [t]. *)
Definition registered (block_types : list block_type) (t : string) : bool :=
  existsb (fun bt => is_enabled bt && String.eqb (name bt) t) block_types.

(** A config that is a string, a number, a boolean, [null] or missing. *)
Definition not_an_object (v : value) : bool :=
  match v with
  | VArr _ | VObj _ => false
  | _ => true
  end.

(** The field reached from [v] by the names [keys], one after the other,
    through objects and arrays. *)
Definition get_path (keys : list string) (v : value) : value :=
  fold_left get_property keys v.

(** A field under the names [keys], as a template path. *)
Definition field (keys : list string) : path := {| up := 0; segments := keys |}.

(** A parent field [../keys], as a template path. *)
Definition parent_field (keys : list string) : path := {| up := 1; segments := keys |}.

(** How a string leaf stored under [key] is meant to be shown. *)
Definition shown (key : string) (s : string) : string :=
  if String.eqb key "content" then s else escapeHtml s.

(** ** Well-formed values and the sanitizer in the words of the specification *)

Fixpoint distinct (keys : list string) : bool :=
  match keys with
  | [] => true
  | k :: rest => negb (existsb (String.eqb k) rest) && distinct rest
  end.

(** The values a JSON text parses to, as far as the sanitizer can tell them
    apart: member names are distinct and none is [__proto__] (assigning to
    that name sets the prototype instead of a member). *)
Fixpoint wf_value (v : value) : bool :=
  match v with
  | VArr items => forallb wf_value items
  | VObj members =>
      distinct (map fst members)
      && negb (existsb (String.eqb "__proto__") (map fst members))
      && forallb (fun kv => wf_value (snd kv)) members
  | _ => true
  end.

Definition Array_isArray (v : value) : bool :=
  match v with
  | VArr _ => true
  | _ => false
  end.

(** No array is an element of an array. *)
Fixpoint arrays_flat (v : value) : bool :=
  match v with
  | VArr items => forallb (fun item => negb (Array_isArray item) && arrays_flat item) items
  | VObj members => forallb (fun kv => arrays_flat (snd kv)) members
  | _ => true
  end.

(** The sanitizer as the specification words it (section 4.2), over the
    tagged values of its design notes, in three rules.  First the rule for an
    element of an array: an object element is sanitized, a scalar element is
    stringified and escaped.  With [null_verbatim = false] this holds for
    every scalar element, [null] included, as the specification has it; with
    [null_verbatim = true] a [null] element is kept as it is. *)
Fixpoint sanitize_element_ref (null_verbatim : bool) (on_object : value -> value)
    (v : value) {struct v} : value :=
  match v with
  | VObj _ => on_object v
  | VArr items => VArr (map (sanitize_element_ref null_verbatim on_object) items)
  | VNull => if null_verbatim then VNull else VStr (escapeHtml (to_String v))
  | VUndefined | VBool _ | VNum _ | VStr _ => VStr (escapeHtml (to_String v))
  end.

(** The rule for the member [key] of an object: a string is escaped unless
    [key] is [content], an array is mapped element by element, an object is
    sanitized, the other scalars pass through. *)
Definition sanitize_field_ref (null_verbatim : bool) (on_object : value -> value)
    (key : string) (v : value) : value :=
  match v with
  | VStr s => if String.eqb key "content" then VStr s else VStr (escapeHtml s)
  | VArr items => VArr (map (sanitize_element_ref null_verbatim on_object) items)
  | VObj _ => on_object v
  | VUndefined | VNull | VBool _ | VNum _ => v
  end.

(** The rule for the input: an object is sanitized member by member, any
    other input is returned unchanged. *)
Fixpoint sanitize_ref (null_verbatim : bool) (v : value) {struct v} : value :=
  match v with
  | VObj members =>
      VObj (map (fun kv =>
                   (fst kv,
                    sanitize_field_ref null_verbatim (sanitize_ref null_verbatim)
                      (fst kv) (snd kv)))
                members)
  | _ => v
  end.

(** ** The pages and page_versions tables and [PUT /api/pages/:id] *)

Record page_row : Type := {
  p_id : Z;
  p_tenant_id : Z;
  p_theme_id : option Z;
  p_slug : string;
  p_title : string;
  p_meta_description : option string;
  p_is_published : bool;
  p_blocks : value;
  p_seo_settings : value;
  p_updated_at : Z;
  p_published_at : option Z
}.

Record page_version_row : Type := {
  pv_page_id : Z;
  pv_version_number : Z;
  pv_blocks : value;
  pv_created_at : Z;
  pv_created_by : Z
}.

Record database : Type := {
  pages : list page_row;
  page_versions : list page_version_row
}.

(** The request: [req.params.id], [req.user] and the members of [req.body];
    a member that is absent or [null] reaches the statement as SQL [NULL]. *)
Record put_request : Type := {
  param_id : Z;
  user_tenantId : Z;
  user_userId : Z;
  body_slug : option string;
  body_title : option string;
  body_meta_description : option string;
  body_theme_id : option Z;
  body_blocks : option value;
  body_is_published : option bool;
  body_seo_settings : option value
}.

Inductive response : Type :=
| Json (row : page_row)            (* res.json(result.rows[0]) *)
| NotFound                         (* 404, Page not found *)
| ServerError.                     (* 500, Failed to update page *)

(** Handlers run statements one by one against the pool, each in its own
    implicit transaction: a statement that is rejected changes nothing and
    throws, and what earlier statements wrote stays. *)
Definition handler (A : Type) : Type := database -> database * option A.

Definition ret {A} (a : A) : handler A := fun db => (db, Some a).

Definition bind {A B} (m : handler A) (k : A -> handler B) : handler B :=
  fun db =>
    match m db with
    | (db', Some a) => k a db'
    | (db', None) => (db', None)
    end.

Notation "'await' x <- m 'in' k" := (bind m (fun x => k))
  (at level 10, x name, m at level 100, k at level 200).

(** [await db.query(...)]: statement number [n] of the request.  [faults n]
    tells whether the store rejects it for a reason outside the two tables
    (connection lost, a column out of range, ...); otherwise [stmt] gives
    the new tables and the rows, or [None] when a constraint is violated. *)
Definition query {A} (faults : nat -> bool) (n : nat)
    (stmt : database -> option (database * A)) : handler A :=
  fun db =>
    if faults n then (db, None)
    else match stmt db with
         | Some (db', a) => (db', Some a)
         | None => (db, None)
         end.

Definition is_page (id tenantId : Z) (p : page_row) : bool :=
  (p_id p =? id) && (p_tenant_id p =? tenantId).

(** [SELECT blocks FROM pages WHERE id = $1 AND tenant_id = $2] *)
Definition select_page_blocks (id tenantId : Z) (db : database)
  : option (database * list value) :=
  Some (db, map p_blocks (filter (fun p => is_page id tenantId p = true) (pages db))).

Definition versions_of (id : Z) (db : database) : list page_version_row :=
  filter (fun v => (pv_page_id v =? id) = true) (page_versions db).

(** The aggregate [MAX]; [None] is SQL [NULL], for no rows. *)
Definition sql_max (numbers : list Z) : option Z :=
  match numbers with
  | [] => None
  | n :: rest => Some (fold_right Z.max n rest)
  end.

(** [SELECT MAX(version_number) as max_version FROM page_versions
     WHERE page_id = $1] *)
Definition select_max_version (id : Z) (db : database) : option (database * option Z) :=
  Some (db, sql_max (map pv_version_number (versions_of id db))).

(** [max_version || 0] *)
Definition or_zero (max_version : option Z) : Z :=
  match max_version with
  | None => 0
  | Some n => if n =? 0 then 0 else n
  end.

(** What the store makes of a JavaScript value that a handler binds, as it
    is, to a [JSONB] column. *)
Inductive jsonb : Type :=
| SqlNull                          (* NULL *)
| Stored (v : value)               (* the value the text sent denotes *)
| Rejected.                        (* invalid input syntax for type json *)

(** The driver sends [null] and [undefined] as [NULL], an array as an array
    literal in braces, another object as its JSON text, a number or a boolean
    as its text, and a string as it stands; the column takes a text that is
    JSON.  The literal of the empty array is [{}], which is the empty object,
    and the literal of any other array is no JSON text.  An object is kept up
    to the order of its members, which is not followed here.  A string is
    taken only when it spells a JSON text: such strings are outside this
    model, which counts every string as rejected. *)
Definition jsonb_param (v : value) : jsonb :=
  match v with
  | VUndefined | VNull => SqlNull
  | VBool b => Stored (VBool b)
  | VNum n => Stored (VNum n)
  | VStr _ => Rejected
  | VArr [] => Stored (VObj [])
  | VArr (_ :: _) => Rejected
  | VObj members => Stored (VObj members)
  end.

(** The store takes the value for a [JSONB NOT NULL] column. *)
Definition storable (v : value) : bool :=
  match jsonb_param v with
  | Stored _ => true
  | _ => false
  end.

(** [INSERT INTO page_versions (page_id, version_number, blocks, created_by)
     VALUES ($1, $2, $3, $4)], with [blocks JSONB NOT NULL] and under
    [UNIQUE(page_id, version_number)]. *)
Definition insert_page_version (now id nextVersion : Z) (blocks : value) (userId : Z)
    (db : database) : option (database * unit) :=
  match jsonb_param blocks with
  | Stored snapshot =>
      if existsb (fun v => (pv_page_id v =? id) && (pv_version_number v =? nextVersion))
                 (page_versions db)
      then None
      else Some ({| pages := pages db;
                    page_versions :=
                      page_versions db ++
                      [{| pv_page_id := id; pv_version_number := nextVersion;
                          pv_blocks := snapshot; pv_created_at := now;
                          pv_created_by := userId |}] |}, tt)
  | SqlNull | Rejected => None
  end.

(** Whether the store takes the parameter of a [JSONB] column; a member of
    the body that is absent is sent as [NULL]. *)
Definition accepts (param : option value) : bool :=
  match param with
  | Some v => match jsonb_param v with
              | Rejected => false
              | _ => true
              end
  | None => true
  end.

(** [COALESCE($n, column)] for a [JSONB] column whose parameter is taken. *)
Definition coalesce_jsonb (param : option value) (column : value) : value :=
  match param with
  | Some v => match jsonb_param v with
              | Stored w => w
              | _ => column
              end
  | None => column
  end.

(** [COALESCE($n, column)] *)
Definition coalesce {A} (param : option A) (column : A) : A :=
  match param with
  | Some a => a
  | None => column
  end.

(** The [SET] list of the [UPDATE]. *)
Definition updated_row (now : Z) (req : put_request) (p : page_row) : page_row :=
  {| p_id := p_id p;
     p_tenant_id := p_tenant_id p;
     p_theme_id := match body_theme_id req with
                   | Some t => Some t
                   | None => p_theme_id p
                   end;
     p_slug := coalesce (body_slug req) (p_slug p);
     p_title := coalesce (body_title req) (p_title p);
     p_meta_description := match body_meta_description req with
                           | Some d => Some d
                           | None => p_meta_description p
                           end;
     p_is_published := coalesce (body_is_published req) (p_is_published p);
     p_blocks := coalesce_jsonb (body_blocks req) (p_blocks p);
     p_seo_settings := coalesce_jsonb (body_seo_settings req) (p_seo_settings p);
     p_updated_at := now;
     p_published_at :=
       match body_is_published req with
       | Some true => if p_is_published p then p_published_at p else Some now
       | _ => p_published_at p
       end |}.

(** [UNIQUE(tenant_id, slug)] on a table of pages. *)
Fixpoint slugs_unique (rows : list page_row) : bool :=
  match rows with
  | [] => true
  | p :: rest =>
      negb (existsb (fun q => (p_tenant_id q =? p_tenant_id p)
                              && String.eqb (p_slug q) (p_slug p)) rest)
      && slugs_unique rest
  end.

(** [UPDATE pages SET ... WHERE id = $8 AND tenant_id = $9 RETURNING *]: a
    parameter that the store does not take makes it reject the statement
    whatever the rows are. *)
Definition update_page (now : Z) (req : put_request) (db : database)
  : option (database * list page_row) :=
  let hit p := is_page (param_id req) (user_tenantId req) p in
  let rows := map (fun p => if hit p then updated_row now req p else p) (pages db) in
  let returned := map (updated_row now req) (filter (fun p => hit p = true) (pages db)) in
  if negb (accepts (body_blocks req) && accepts (body_seo_settings req)) then None
  else if existsb hit (pages db) && negb (slugs_unique rows) then None
  else Some ({| pages := rows; page_versions := page_versions db |}, returned).

(** The block under the comment [Save version before updating], after the
    first [SELECT]. *)
Definition save_version (faults : nat -> bool) (now : Z) (req : put_request)
    (existingPage : list value) : handler unit :=
  match existingPage with
  | [] => ret tt                             (* existingPage.rows.length = 0 *)
  | blocks :: _ =>
      await latestVersion <- query faults 1 (select_max_version (param_id req)) in
      let nextVersion := or_zero latestVersion + 1 in
      query faults 2
        (insert_page_version now (param_id req) nextVersion blocks (user_userId req))
  end.

(** The body of the [try] block of the handler. *)
Definition put_page_body (faults : nat -> bool) (now : Z) (req : put_request)
  : handler response :=
  await existingPage <-
     query faults 0 (select_page_blocks (param_id req) (user_tenantId req)) in
  await saved <- save_version faults now req existingPage in
  await result <- query faults 3 (update_page now req) in
  match result with
  | [] => ret NotFound
  | row :: _ => ret (Json row)
  end.

(** [app.put('/api/pages/:id', authMiddleware, async (req, res) => ...)] *)
Definition put_page (faults : nat -> bool) (now : Z) (req : put_request)
    (db : database) : database * response :=
  match put_page_body faults now req db with
  | (db', Some r) => (db', r)
  | (db', None) => (db', ServerError)       (* catch (error) *)
  end.

Definition no_faults : nat -> bool := fun _ => false.

(** ** [POST /api/pages] *)

(** The request: [req.user.tenantId] and the members of [req.body];
    [slug] and [title] are the values the body holds, [undefined] when it
    holds none. *)
Record post_request : Type := {
  post_tenantId : Z;
  post_slug : value;
  post_title : value;
  post_meta_description : option string;
  post_theme_id : option Z;
  post_blocks : option value
}.

Inductive post_response : Type :=
| Created (row : page_row)             (* 201 *)
| BadRequest (error : string)          (* 400 *)
| CreateFailed.                        (* 500, Failed to create page *)

(** A character of the class [a-z0-9-]. *)
Definition slug_char (c : ascii) : bool :=
  let n := nat_of_ascii c in
  (Nat.leb 97 n && Nat.leb n 122) || (Nat.leb 48 n && Nat.leb n 57) || Nat.eqb n 45.

(** The test of the slug against the pattern: one or more such characters. *)
Definition slug_format (slug : string) : bool :=
  negb (String.eqb slug "") && forallb slug_char (list_ascii_of_string slug).

(** An element of an array literal that is no array: in double quotes, the
    backslashes and double quotes of its text escaped. *)
Fixpoint escape_element (s : string) : string :=
  match s with
  | EmptyString => ""
  | String c rest =>
      (if Ascii.eqb c "\"%char || Ascii.eqb c quot
       then String "\"%char (String c "") else String c "")
      +:+ escape_element rest
  end.

(** The text the driver sends for a value bound to a text column: a string
    as it stands, a number or a boolean printed, an array as an array literal
    in braces, another object as its JSON text. *)
Fixpoint pg_text (v : value) : string :=
  match v with
  | VUndefined | VNull => ""
  | VBool b => if b then "true" else "false"
  | VNum n => pretty n
  | VStr s => s
  | VArr items =>
      "{" +:+ join "," (map (fun item =>
                              match item with
                              | VUndefined | VNull => "NULL"
                              | VArr _ => pg_text item
                              | _ => String quot (escape_element (pg_text item))
                                     +:+ String quot ""
                              end) items)
          +:+ "}"
  | VObj members => default "" (json_text (VObj members))
  end.

(** [blocks || []] *)
Definition blocks_or_empty (blocks : option value) : value :=
  match blocks with
  | Some blocks => if truthy blocks then blocks else VArr []
  | None => VArr []
  end.

(** The row of [INSERT INTO pages (tenant_id, theme_id, slug, title,
    meta_description, blocks)], the other columns taking their defaults;
    [new_id] is what the sequence of [pages.id] hands out, [slug] and
    [title] the texts and [blocks] the content the store has taken. *)
Definition created_row (now new_id : Z) (req : post_request) (slug title : string)
    (blocks : value) : page_row :=
  {| p_id := new_id;
     p_tenant_id := post_tenantId req;
     p_theme_id := match post_theme_id req with
                   | Some t => if t =? 0 then None else Some t      (* theme_id || null *)
                   | None => None
                   end;
     p_slug := slug;
     p_title := title;
     p_meta_description := Some (default "" (post_meta_description req));
     p_is_published := false;
     p_blocks := blocks;
     p_seo_settings := VObj [];
     p_updated_at := now;
     p_published_at := None |}.

(** [app.post('/api/pages', authMiddleware, async (req, res) => ...)];
    [fault] tells whether the store rejects the [INSERT] for a reason other
    than the blocks it is sent and the [UNIQUE(tenant_id, slug)] constraint
    (a theme that does not exist, a text too long for its column, ...).  The
    pattern is tested on the slug converted to a string, and the store is
    sent the slug itself. *)
Definition post_page (fault : bool) (now new_id : Z) (req : post_request)
    (db : database) : database * post_response :=
  if negb (truthy (post_slug req)) || negb (truthy (post_title req)) then
    (db, BadRequest "Slug and title are required")
  else if negb (slug_format (to_String (post_slug req))) then
    (db, BadRequest
           "Invalid slug format. Use lowercase letters, numbers, and hyphens only.")
  else if fault then (db, CreateFailed)
  else
    match jsonb_param (blocks_or_empty (post_blocks req)) with
    | Stored blocks =>
        let slug := pg_text (post_slug req) in
        if existsb (fun q => (p_tenant_id q =? post_tenantId req)
                             && String.eqb (p_slug q) slug) (pages db)
        then (db, BadRequest "Page with this slug already exists")    (* code 23505 *)
        else
          let row := created_row now new_id req slug (pg_text (post_title req)) blocks in
          ({| pages := pages db ++ [row]; page_versions := page_versions db |},
           Created row)
    | SqlNull | Rejected => (db, CreateFailed)                        (* code 22P02 *)
    end.

(** The fragments of the elements of an array, in order; an exception in one
    of them is the result. *)
Definition concat_fragments (f : value -> option string) (items : list value)
  : option string :=
  fold_right (fun item rest => out ← f item; more ← rest; Some (out +:+ more))
             (Some "") items.

(** ** Example data *)

(** A hero block type whose template is [<h1>{{title}}</h1>]. *)
Definition hero_type : block_type :=
  {| name := "hero";
     template_nodes := [Text "<h1>"; Var (field ["title"]); Text "</h1>"];
     is_enabled := true |}.

(** A block type that is switched off. *)
Definition banner_type : block_type :=
  {| name := "banner"; template_nodes := [Text "<aside></aside>"];
     is_enabled := false |}.

(** [{{#each items}}<li>{{this.name}}</li>{{/each}}] *)
Definition list_type : block_type :=
  {| name := "list";
     template_nodes :=
       [Iteration (field ["items"])
          [Text "<li>"; Var (field ["name"]); Text "</li>"]];
     is_enabled := true |}.

(** [{{#if x}}A{{/if}}] *)
Definition if_type : block_type :=
  {| name := "if";
     template_nodes := [Conditional (field ["x"]) [Text "A"] []];
     is_enabled := true |}.

(** [{{#each items}}{{this.name}}-{{../title}}{{/each}}] *)
Definition shop_type : block_type :=
  {| name := "shop";
     template_nodes :=
       [Iteration (field ["items"])
          [Var (field ["name"]); Text "-"; Var (parent_field ["title"])]];
     is_enabled := true |}.

(** A footer line, [(c) {{year}} {{companyName}}]. *)
Definition footer_type : block_type :=
  {| name := "footer";
     template_nodes :=
       [Text "(c) "; Var (field ["year"]); Text " "; Var (field ["companyName"])];
     is_enabled := true |}.

Definition block_types_example : list block_type :=
  [hero_type; banner_type; list_type; if_type; shop_type; footer_type].

Definition hero_block : block :=
  {| type := "hero";
     config := VObj [("title", VStr "<script>alert(1)</script>");
                     ("subtitle", VStr "Welcome")] |}.

Definition mystery_block : block :=
  {| type := "mystery"; config := VObj [("title", VStr "Hello")] |}.

Definition banner_block : block :=
  {| type := "banner"; config := VObj [] |}.

(** A list block whose [items] member is missing. *)
Definition broken_list_block : block :=
  {| type := "list"; config := VObj [("heading", VStr "Links")] |}.

Definition if_block (x : value) : block :=
  {| type := "if"; config := VObj [("x", x)] |}.

Definition shop_block : block :=
  {| type := "shop";
     config := VObj [("items", VArr [VObj [("name", VStr "p1")];
                                     VObj [("name", VStr "p2")]]);
                     ("title", VStr "Shop")] |}.

Definition footer_block : block :=
  {| type := "footer";
     config := VObj [("year", VStr "<b>1999</b>"); ("companyName", VStr "A&B")] |}.

(** The last of the names [key :: keys]. *)
Fixpoint last_key (key : string) (keys : list string) : string :=
  match keys with
  | [] => key
  | k :: rest => last_key k rest
  end.

(** The names of the two members [renderBlocks] stores into the scope. *)
Definition synthesized (key : string) : bool :=
  String.eqb key "year" || String.eqb key "jsonConfig".

(** The scope of the hero block of the specification. *)
Definition hero_scope (year : Z) : value :=
  VObj [("title", VStr "&lt;script&gt;alert(1)&lt;/script&gt;");
        ("subtitle", VStr "Welcome");
        ("year", VNum year);
        ("jsonConfig",
         JSON_stringify (VObj [("title", VStr "<script>alert(1)</script>");
                               ("subtitle", VStr "Welcome")]))].

(** The page row the request addresses, if there is one. *)
Definition existing_page (req : put_request) (db : database) : option page_row :=
  head (filter (fun p => is_page (param_id req) (user_tenantId req) p = true) (pages db)).

(** The version row the specification asks for (section 4.5): numbered one
    more than the largest version number of the page, or 1 when it has none,
    holding the blocks of [page] and the identity of the editor. *)
Definition asked_version (now : Z) (req : put_request) (page : page_row)
    (db : database) : page_version_row :=
  {| pv_page_id := param_id req;
     pv_version_number :=
       default 0 (sql_max (map pv_version_number (versions_of (param_id req) db))) + 1;
     pv_blocks := p_blocks page;
     pv_created_at := now;
     pv_created_by := user_userId req |}.

(** The version row the handler inserts when the store takes the blocks of
    [page]: the row asked for, holding what the store made of the blocks. *)
Definition expected_version (now : Z) (req : put_request) (page : page_row)
    (db : database) : page_version_row :=
  {| pv_page_id := param_id req;
     pv_version_number :=
       default 0 (sql_max (map pv_version_number (versions_of (param_id req) db))) + 1;
     pv_blocks := coalesce_jsonb (Some (p_blocks page)) (p_blocks page);
     pv_created_at := now;
     pv_created_by := user_userId req |}.

(** A row is the snapshot of a request but for the blocks it holds. *)
Definition snapshot_row (now : Z) (req : put_request) (db : database)
    (v : page_version_row) : bool :=
  (pv_page_id v =? param_id req)
  && (pv_version_number v
      =? default 0 (sql_max (map pv_version_number (versions_of (param_id req) db))) + 1)
  && (pv_created_at v =? now)
  && (pv_created_by v =? user_userId req).

(** The [pages] table after the [UPDATE] of the request. *)
Definition updated_pages (now : Z) (req : put_request) (db : database) : list page_row :=
  map (fun p => if is_page (param_id req) (user_tenantId req) p
                then updated_row now req p else p) (pages db).

(** Two pages of tenant 1, neither with a version yet. *)
Definition home_page : page_row :=
  {| p_id := 1; p_tenant_id := 1; p_theme_id := None; p_slug := "home";
     p_title := "Home"; p_meta_description := None; p_is_published := false;
     p_blocks := VArr [VObj [("type", VStr "hero"); ("config", VObj [])]];
     p_seo_settings := VObj []; p_updated_at := 10; p_published_at := None |}.

Definition about_page : page_row :=
  {| p_id := 2; p_tenant_id := 1; p_theme_id := None; p_slug := "about";
     p_title := "About"; p_meta_description := None; p_is_published := false;
     p_blocks := VArr []; p_seo_settings := VObj []; p_updated_at := 11;
     p_published_at := None |}.

Definition site : database :=
  {| pages := [home_page; about_page]; page_versions := [] |}.

(** A request of editor 7 for page [id] of tenant 1 that sets [blocks]. *)
Definition set_blocks (id : Z) (blocks : value) : put_request :=
  {| param_id := id; user_tenantId := 1; user_userId := 7;
     body_slug := None; body_title := None; body_meta_description := None;
     body_theme_id := None; body_blocks := Some blocks; body_is_published := None;
     body_seo_settings := None |}.

(** A request of tenant 1 that creates a page without blocks. *)
Definition create_contact : post_request :=
  {| post_tenantId := 1; post_slug := VStr "contact"; post_title := VStr "Contact";
     post_meta_description := None; post_theme_id := None;
     post_blocks := None |}.

(** A request of editor 7 that renames page 1 to the slug of page 2. *)
Definition rename_home_to_about : put_request :=
  {| param_id := 1; user_tenantId := 1; user_userId := 7;
     body_slug := Some "about"; body_title := None; body_meta_description := None;
     body_theme_id := None; body_blocks := Some (VArr []); body_is_published := None;
     body_seo_settings := None |}.

(** A request of editor 7 that renames page 2, which holds no block, to the
    slug of page 1. *)
Definition rename_about_to_home : put_request :=
  {| param_id := 2; user_tenantId := 1; user_userId := 7;
     body_slug := Some "home"; body_title := None; body_meta_description := None;
     body_theme_id := None; body_blocks := None; body_is_published := None;
     body_seo_settings := None |}.

(** The statements up to and including the insert are not rejected for a
    reason outside the tables and the parameters. *)
Definition snapshot_statements_succeed (faults : nat -> bool) : bool :=
  negb (faults 0%nat) && negb (faults 1%nat) && negb (faults 2%nat).

(** The store takes the blocks of the pages with the given id and tenant. *)
Definition snapshots_storable (id tenantId : Z) (db : database) : bool :=
  forallb (fun p => negb (is_page id tenantId p) || storable (p_blocks p)) (pages db).

(** The request is for page [id] of tenant [tenantId]. *)
Definition addresses (req : put_request) (id tenantId : Z) : bool :=
  (param_id req =? id) && (user_tenantId req =? tenantId).

(** The tables once the snapshot of [page] has been inserted. *)
Definition with_snapshot (now : Z) (req : put_request) (page : page_row)
    (db : database) : database :=
  {| pages := pages db;
     page_versions := page_versions db ++ [expected_version now req page db] |}.

(** A gallery block whose images carry texts of their own. *)
Definition gallery_block : block :=
  {| type := "gallery";
     config :=
       VObj [("columns", VStr "3");
             ("images",
              VArr [VObj [("src", VStr "/a.jpg"); ("alt", VStr "Harbour")];
                    VObj [("src", VStr "/b.jpg"); ("alt", VStr "<Sea & sky>");
                          ("content", VStr "<em>new</em>")]])] |}.

(** * Further parts of the module *)

(** ** Characters of a text *)

(** The five characters [escapeHtml] replaces. *)
Definition special (c : ascii) : bool :=
  Ascii.eqb c "&"%char || Ascii.eqb c "<"%char || Ascii.eqb c ">"%char
  || Ascii.eqb c quot || Ascii.eqb c "'"%char.

(** The four of them that open or close markup: the angle brackets and the
    two quotes. *)
Definition markup (c : ascii) : bool :=
  Ascii.eqb c "<"%char || Ascii.eqb c ">"%char
  || Ascii.eqb c quot || Ascii.eqb c "'"%char.

(** Whether some character of the text satisfies [p]. *)
Fixpoint contains (p : ascii -> bool) (s : string) : bool :=
  match s with
  | EmptyString => false
  | String c rest => p c || contains p rest
  end.

Definition is_string (v : value) : bool :=
  match v with
  | VStr _ => true
  | _ => false
  end.

(** A value is free of markup when none of its strings holds a markup
    character, the strings stored directly under a key [content] aside. *)
Fixpoint markup_free (v : value) : bool :=
  match v with
  | VStr s => negb (contains markup s)
  | VArr items => forallb markup_free items
  | VObj members =>
      forallb (fun kv =>
                 (String.eqb (fst kv) "content" && is_string (snd kv))
                 || markup_free (snd kv)) members
  | VUndefined | VNull | VBool _ | VNum _ => true
  end.

(** The condition of [markup_free] on one member. *)
Definition member_free (kv : string * value) : bool :=
  (String.eqb (fst kv) "content" && is_string (snd kv)) || markup_free (snd kv).

(** The members of an object value. *)
Definition members_of (v : value) : list (string * value) :=
  match v with
  | VObj members => members
  | _ => []
  end.

(** ** renderBlocks on the value it is handed, and the routes that call it *)

(** [const { type, config } = block]: it throws for [null] and
    [undefined]; a member that is missing is [undefined].  [type] is then
    used as a property name and inside template literals, that is, as the
    string it converts to. *)
Definition destructure_block (v : value) : option block :=
  match v with
  | VUndefined | VNull => None
  | _ => Some {| type := to_String (get_property v "type");
                 config := get_property v "config" |}
  end.

(** [renderBlocks(blocks, db)] for any value [blocks]: the guard on
    [Array.isArray], the query for the templates ([query_fails] tells
    whether it is rejected) and the loop, one turn of which is
    [render_block], with its proviso on the names of [Object.prototype];
    [None] when the call throws. *)
Definition renderBlocks_value (query_fails : bool) (block_types : list block_type)
    (year : Z) (blocks : value) : option string :=
  match blocks with
  | VArr items =>
      if query_fails then None
      else
        foldl (fun html block =>
                 html ← html; b ← destructure_block block;
                 Some (html +:+ render_block
                                  (load_templates (select_enabled block_types)) year b))
              (Some "") items
  | _ => Some ""
  end.

Inductive render_response : Type :=
| RenderOk (html : string)         (* res.json({ html }) *)
| RenderBadRequest                 (* 400, Blocks must be an array *)
| RenderFailed.                    (* 500, Failed to render page *)

(** [app.post('/api/pages/render', authMiddleware, ...)] on the member
    [blocks] of the body. *)
Definition post_render (query_fails : bool) (block_types : list block_type)
    (year : Z) (body_blocks : value) : render_response :=
  if negb (Array_isArray body_blocks) then RenderBadRequest
  else match renderBlocks_value query_fails block_types year body_blocks with
       | Some html => RenderOk html
       | None => RenderFailed            (* catch (error) *)
       end.

(** A row of [tenants], with the columns the routes read. *)
Record tenant_row : Type := {
  t_id : Z;
  t_subdomain : string;
  t_store_name : string
}.

Record storefront_request : Type := {
  header_subdomain : option string;   (* req.headers['x-tenant-subdomain'] *)
  query_subdomain : option string;    (* req.query.subdomain *)
  param_slug : string                 (* req.params.slug *)
}.

(** The body of the answer of the storefront route. *)
Record served_page : Type := {
  sp_title : string;
  sp_slug : string;
  sp_meta_description : option string;
  sp_seo_settings : value;
  sp_html : string;
  sp_storeName : string
}.

Inductive storefront_response : Type :=
| Served (page : served_page)
| SubdomainRequired                (* 400 *)
| StoreNotFound                    (* 404 *)
| PageNotFound                     (* 404 *)
| LoadFailed.                      (* 500, Failed to load page *)

(** [a || b] on two strings that may be missing. *)
Definition or_else (a b : option string) : option string :=
  match a with
  | Some s => if String.eqb s "" then b else Some s
  | None => b
  end.

(** The published pages of a tenant under a slug. *)
Definition published_pages (tenantId : Z) (slug : string) (db : database)
  : list page_row :=
  filter (fun p => (p_tenant_id p =? tenantId) && String.eqb (p_slug p) slug
                   && p_is_published p = true) (pages db).

(** [app.get('/api/storefront/page/:slug', ...)]; [faults] numbers the three
    queries: tenants, pages, block types. *)
Definition storefront_page (faults : nat -> bool) (tenants : list tenant_row)
    (block_types : list block_type) (year : Z) (req : storefront_request)
    (db : database) : storefront_response :=
  match or_else (header_subdomain req) (query_subdomain req) with
  | None => SubdomainRequired
  | Some subdomain =>
      if String.eqb subdomain "" then SubdomainRequired
      else if faults 0%nat then LoadFailed
      else
        match filter (fun t => String.eqb (t_subdomain t) subdomain = true) tenants with
        | [] => StoreNotFound
        | tenant :: _ =>
            if faults 1%nat then LoadFailed
            else
              match published_pages (t_id tenant) (param_slug req) db with
              | [] => PageNotFound
              | page :: _ =>
                  match renderBlocks_value (faults 2%nat) block_types year
                          (p_blocks page) with
                  | Some html =>
                      Served {| sp_title := p_title page;
                                sp_slug := p_slug page;
                                sp_meta_description := p_meta_description page;
                                sp_seo_settings := p_seo_settings page;
                                sp_html := html;
                                sp_storeName := t_store_name tenant |}
                  | None => LoadFailed
                  end
              end
        end
  end.

(** The raw form of a block. *)
Definition block_value (b : block) : value :=
  VObj [("type", VStr (type b)); ("config", config b)].

Definition shop_tenant : tenant_row :=
  {| t_id := 1; t_subdomain := "shop"; t_store_name := "The Shop" |}.

Definition other_tenant : tenant_row :=
  {| t_id := 2; t_subdomain := "other"; t_store_name := "Other" |}.

(** A published page of tenant 1 and a draft of tenant 2 under one slug. *)
Definition published_home : page_row :=
  {| p_id := 3; p_tenant_id := 1; p_theme_id := None; p_slug := "welcome";
     p_title := "Welcome"; p_meta_description := Some "Hi"; p_is_published := true;
     p_blocks := VArr [block_value hero_block; block_value shop_block];
     p_seo_settings := VObj []; p_updated_at := 12; p_published_at := Some 12 |}.

Definition draft_home : page_row :=
  {| p_id := 4; p_tenant_id := 2; p_theme_id := None; p_slug := "welcome";
     p_title := "Draft"; p_meta_description := None; p_is_published := false;
     p_blocks := VArr []; p_seo_settings := VObj []; p_updated_at := 13;
     p_published_at := None |}.

Definition storefront_db : database :=
  {| pages := [home_page; draft_home; published_home]; page_versions := [] |}.

(** ** [DELETE /api/pages/:id], requests in a row, and the constraints *)

Inductive delete_response : Type :=
| Deleted                          (* Page deleted successfully *)
| DeleteNotFound                   (* 404, Page not found *)
| DeleteFailed.                    (* 500, Failed to delete page *)

(** [DELETE FROM pages WHERE id = $1 AND tenant_id = $2 RETURNING *]; the
    rows of [page_versions] that refer to a deleted page go with it
    ([ON DELETE CASCADE]). *)
Definition delete_pages (id tenantId : Z) (db : database) : database * list page_row :=
  let deleted := filter (fun p => is_page id tenantId p = true) (pages db) in
  ({| pages := filter (fun p => is_page id tenantId p = false) (pages db);
      page_versions :=
        filter (fun v => existsb (fun p => p_id p =? pv_page_id v) deleted = false)
               (page_versions db) |},
   deleted).

(** [app.delete('/api/pages/:id', authMiddleware, ...)]; [fault] tells
    whether the store rejects the statement. *)
Definition delete_page (fault : bool) (id tenantId : Z) (db : database)
  : database * delete_response :=
  if fault then (db, DeleteFailed)
  else match delete_pages id tenantId db with
       | (db', []) => (db', DeleteNotFound)
       | (db', _ :: _) => (db', Deleted)
       end.

(** One [PUT /api/pages/:id] as the server sees it. *)
Record put_call : Type := {
  call_faults : nat -> bool;
  call_now : Z;
  call_request : put_request
}.

(** Requests handled one after the other. *)
Definition put_pages (calls : list put_call) (db : database) : database :=
  foldl (fun db call =>
           fst (put_page (call_faults call) (call_now call) (call_request call) db))
        db calls.

(** [UNIQUE(page_id, version_number)] on a table of versions. *)
Fixpoint versions_unique (rows : list page_version_row) : bool :=
  match rows with
  | [] => true
  | v :: rest =>
      negb (existsb (fun w => (pv_page_id w =? pv_page_id v)
                              && (pv_version_number w =? pv_version_number v)) rest)
      && versions_unique rest
  end.

(** [page_id REFERENCES pages(id)]: every version is one of a page in the
    table. *)
Definition versions_refer_to_pages (db : database) : bool :=
  forallb (fun v => existsb (fun p => p_id p =? pv_page_id v) (pages db))
          (page_versions db).

(** The three constraints of the migration on the two tables. *)
Definition consistent (db : database) : bool :=
  slugs_unique (pages db) && versions_unique (page_versions db)
  && versions_refer_to_pages db.

(** The answer is [201]. *)
Definition is_created (r : post_response) : bool :=
  match r with
  | Created _ => true
  | _ => false
  end.

(** A request whose slug is an array of one string. *)
Definition slug_in_an_array : post_request :=
  {| post_tenantId := 1; post_slug := VArr [VStr "abc"]; post_title := VStr "Abc";
     post_meta_description := None; post_theme_id := None; post_blocks := None |}.

(** A site with one version of the home page. *)
Definition site_with_version : database :=
  {| pages := [home_page; about_page];
     page_versions := [{| pv_page_id := 1; pv_version_number := 1;
                          pv_blocks := VArr []; pv_created_at := 5;
                          pv_created_by := 7 |}] |}.

(** A page of another tenant. *)
Definition foreign_page : page_row :=
  {| p_id := 9; p_tenant_id := 2; p_theme_id := None; p_slug := "home";
     p_title := "Theirs"; p_meta_description := None; p_is_published := true;
     p_blocks := VArr []; p_seo_settings := VObj []; p_updated_at := 3;
     p_published_at := Some 3 |}.

Definition shared_site : database :=
  {| pages := [home_page; foreign_page]; page_versions := [] |}.

(** The request sends no string as blocks; a string can spell a JSON text,
    which [jsonb_param] leaves out. *)
Definition blocks_not_string (req : put_request) : bool :=
  match body_blocks req with
  | Some blocks => negb (is_string blocks)
  | None => true
  end.

(** A page as [POST /api/pages] creates it, holding the empty object. *)
Definition landing_page : page_row :=
  {| p_id := 1; p_tenant_id := 1; p_theme_id := None; p_slug := "home";
     p_title := "Home"; p_meta_description := Some ""; p_is_published := false;
     p_blocks := VObj []; p_seo_settings := VObj []; p_updated_at := 10;
     p_published_at := None |}.

(** Two pages of tenant 1 and one version of the first. *)
Definition drafts : database :=
  {| pages := [landing_page; about_page];
     page_versions := [{| pv_page_id := 1; pv_version_number := 1;
                          pv_blocks := VObj []; pv_created_at := 5;
                          pv_created_by := 7 |}] |}.

(** Three requests of editor 7 for page 1 of tenant 1. *)
Definition three_calls : list put_call :=
  [{| call_faults := no_faults; call_now := 20;
      call_request := set_blocks 1 (VArr []) |};
   {| call_faults := no_faults; call_now := 21;
      call_request := rename_home_to_about |};
   {| call_faults := no_faults; call_now := 22;
      call_request := set_blocks 1 (VArr [VNull]) |}].

(** The body of the answer of the storefront route for a page of a tenant. *)
Definition served (tenant : tenant_row) (page : page_row) (html : string) : served_page :=
  {| sp_title := p_title page;
     sp_slug := p_slug page;
     sp_meta_description := p_meta_description page;
     sp_seo_settings := p_seo_settings page;
     sp_html := html;
     sp_storeName := t_store_name tenant |}.

Definition welcome_request : storefront_request :=
  {| header_subdomain := Some ""; query_subdomain := Some "shop";
     param_slug := "welcome" |}.

(** ** The themes table, [PUT /api/themes/:id] and [POST /api/themes] *)

Record theme_row : Type := {
  th_id : Z;
  th_tenant_id : Z;
  th_name : string;
  th_is_active : bool;
  th_settings : value;
  th_updated_at : Z
}.

(** The request: [req.params.id], [req.user.tenantId] and the members of
    [req.body]; a member that is absent or [null] reaches the statement as
    SQL [NULL]; [is_active], when present, is a boolean. *)
Record theme_request : Type := {
  theme_param_id : Z;
  theme_tenantId : Z;
  theme_name : option string;
  theme_settings : option value;
  theme_is_active : option bool
}.

Inductive theme_response : Type :=
| ThemeJson (row : theme_row)      (* res.json(result.rows[0]) *)
| ThemeNotFound                    (* 404, Theme not found *)
| ThemeFailed.                     (* 500, Failed to update theme *)

Definition is_theme (id tenantId : Z) (t : theme_row) : bool :=
  (th_id t =? id) && (th_tenant_id t =? tenantId).

(** [UPDATE themes SET is_active = false WHERE tenant_id = $1], on one row. *)
Definition deactivated (tenantId : Z) (t : theme_row) : theme_row :=
  if th_tenant_id t =? tenantId then
    {| th_id := th_id t; th_tenant_id := th_tenant_id t; th_name := th_name t;
       th_is_active := false; th_settings := th_settings t;
       th_updated_at := th_updated_at t |}
  else t.

(** The [SET] list of the second [UPDATE]. *)
Definition updated_theme (now : Z) (req : theme_request) (t : theme_row) : theme_row :=
  {| th_id := th_id t;
     th_tenant_id := th_tenant_id t;
     th_name := coalesce (theme_name req) (th_name t);
     th_is_active := coalesce (theme_is_active req) (th_is_active t);
     th_settings := coalesce_jsonb (theme_settings req) (th_settings t);
     th_updated_at := now |}.

(** [UNIQUE(tenant_id, name)] on a table of themes. *)
Fixpoint names_unique (rows : list theme_row) : bool :=
  match rows with
  | [] => true
  | t :: rest =>
      negb (existsb (fun u => (th_tenant_id u =? th_tenant_id t)
                              && String.eqb (th_name u) (th_name t)) rest)
      && names_unique rest
  end.

(** The table after the first statement, issued under [if (is_active)]. *)
Definition staged_themes (req : theme_request) (themes : list theme_row)
  : list theme_row :=
  if default false (theme_is_active req)
  then map (deactivated (theme_tenantId req)) themes
  else themes.

(** [app.put('/api/themes/:id', authMiddleware, ...)]; [faults] numbers the
    two statements; [settings] is bound to a [JSONB] column as it is. *)
Definition put_theme (faults : nat -> bool) (now : Z) (req : theme_request)
    (themes : list theme_row) : list theme_row * theme_response :=
  if default false (theme_is_active req) && faults 0%nat then (themes, ThemeFailed)
  else
    let staged := staged_themes req themes in
    let hit := is_theme (theme_param_id req) (theme_tenantId req) in
    let rows := map (fun t => if hit t then updated_theme now req t else t) staged in
    if faults 1%nat then (staged, ThemeFailed)
    else if negb (accepts (theme_settings req)) then (staged, ThemeFailed)
    else if existsb hit staged && negb (names_unique rows) then (staged, ThemeFailed)
    else match filter (fun t => hit t = true) staged with
         | [] => (rows, ThemeNotFound)
         | t :: _ => (rows, ThemeJson (updated_theme now req t))
         end.

Inductive theme_post_response : Type :=
| ThemeCreated (row : theme_row)       (* 201 *)
| ThemeBadRequest (error : string)     (* 400 *)
| ThemeCreateFailed.                   (* 500, Failed to create theme *)

(** [settings || {}] *)
Definition settings_or_empty (settings : option value) : value :=
  match settings with
  | Some s => if truthy s then s else VObj []
  | None => VObj []
  end.

(** [app.post('/api/themes', authMiddleware, ...)]: the new row takes the
    default of [is_active], which is [false]. *)
Definition post_theme (fault : bool) (now new_id tenantId : Z) (name : option string)
    (settings : option value) (themes : list theme_row)
  : list theme_row * theme_post_response :=
  match name with
  | None => (themes, ThemeBadRequest "Theme name is required")
  | Some name =>
      if String.eqb name "" then (themes, ThemeBadRequest "Theme name is required")
      else if fault then (themes, ThemeCreateFailed)
      else
        match jsonb_param (settings_or_empty settings) with
        | Stored stored =>
            if existsb (fun u => (th_tenant_id u =? tenantId)
                                 && String.eqb (th_name u) name) themes
            then (themes, ThemeBadRequest "Theme name already exists")  (* code 23505 *)
            else
              let row := {| th_id := new_id; th_tenant_id := tenantId; th_name := name;
                            th_is_active := false; th_settings := stored;
                            th_updated_at := now |} in
              (themes ++ [row], ThemeCreated row)
        | SqlNull | Rejected => (themes, ThemeCreateFailed)             (* code 22P02 *)
        end
  end.

(** No tenant has two active themes. *)
Fixpoint at_most_one_active (rows : list theme_row) : bool :=
  match rows with
  | [] => true
  | t :: rest =>
      (negb (th_is_active t)
       || negb (existsb (fun u => th_is_active u
                                  && (th_tenant_id u =? th_tenant_id t)) rest))
      && at_most_one_active rest
  end.

(** [id SERIAL PRIMARY KEY] on a table of themes. *)
Fixpoint theme_ids_unique (rows : list theme_row) : bool :=
  match rows with
  | [] => true
  | t :: rest =>
      negb (existsb (fun u => th_id u =? th_id t) rest) && theme_ids_unique rest
  end.

Definition light_theme : theme_row :=
  {| th_id := 1; th_tenant_id := 1; th_name := "Light"; th_is_active := true;
     th_settings := VObj []; th_updated_at := 1 |}.

Definition dark_theme : theme_row :=
  {| th_id := 2; th_tenant_id := 1; th_name := "Dark"; th_is_active := false;
     th_settings := VObj []; th_updated_at := 2 |}.

Definition their_theme : theme_row :=
  {| th_id := 3; th_tenant_id := 2; th_name := "Light"; th_is_active := true;
     th_settings := VObj []; th_updated_at := 3 |}.

Definition themes_example : list theme_row := [light_theme; their_theme; dark_theme].

(** Tenant 1 activates theme [id], renaming it when [name] is given. *)
Definition activate (id : Z) (name : option string) : theme_request :=
  {| theme_param_id := id; theme_tenantId := 1; theme_name := name;
     theme_settings := None; theme_is_active := Some true |}.

(** ** The rate limiter of the server *)

(** [rateLimitCache], a [Map] from keys to the times of the requests that
    were let through. *)
Definition rateLimitCache : Type := gmap string (list Z).

(** [rateLimit(key, maxRequests, windowMs)], with [now] the value of
    [Date.now()]; the result is the cache after the call and the boolean
    returned. *)
Definition rateLimit (now : Z) (key : string) (maxRequests windowMs : Z)
    (cache : rateLimitCache) : rateLimitCache * bool :=
  let requests := default [] (cache !! key) in
  let recentRequests := filter (fun time => now - time < windowMs) requests in
  if Z.of_nat (length recentRequests) >=? maxRequests then (cache, false)
  else (<[key := recentRequests ++ [now]]> cache, true).

Record limiter_request : Type := {
  req_ip : string;                (* req.ip *)
  req_path : string;              (* req.path *)
  req_time : Z                    (* Date.now() when it is handled *)
}.

Inductive limiter_response : Type :=
| Next                             (* next() *)
| TooManyRequests.                 (* 429, Too many requests *)

Definition limiter_key (req : limiter_request) : string :=
  req_ip req +:+ ":" +:+ req_path req.

(** The function returned by [rateLimitMiddleware(maxRequests, windowMs)]. *)
Definition rateLimitMiddleware (maxRequests windowMs : Z) (req : limiter_request)
    (cache : rateLimitCache) : rateLimitCache * limiter_response :=
  match rateLimit (req_time req) (limiter_key req) maxRequests windowMs cache with
  | (cache', true) => (cache', Next)
  | (cache', false) => (cache', TooManyRequests)
  end.

(** The requests handled so far with their answers, and the cache. *)
Definition limiter_state : Type :=
  list (limiter_request * limiter_response) * rateLimitCache.

Definition serve (maxRequests windowMs : Z) (state : limiter_state)
    (req : limiter_request) : limiter_state :=
  let answer := rateLimitMiddleware maxRequests windowMs req (snd state) in
  (fst state ++ [(req, snd answer)], fst answer).

(** Requests handled one after the other by one middleware, from an empty
    cache. *)
Definition serve_all (maxRequests windowMs : Z) (reqs : list limiter_request)
  : limiter_state :=
  foldl (serve maxRequests windowMs) ([], ∅) reqs.

Definition is_next (r : limiter_response) : bool :=
  match r with
  | Next => true
  | TooManyRequests => false
  end.

(** The times of the requests of a key that were let through. *)
Definition admitted (key : string) (log : list (limiter_request * limiter_response))
  : list Z :=
  map (fun entry => req_time (fst entry))
      (filter (fun entry => is_next (snd entry)
                            && String.eqb (limiter_key (fst entry)) key = true) log).

(** The clock does not go back. *)
Fixpoint nondecreasing (times : list Z) : bool :=
  match times with
  | [] => true
  | t :: rest => forallb (fun u => t <=? u) rest && nondecreasing rest
  end.

Definition checkout_at (ip : string) (time : Z) : limiter_request :=
  {| req_ip := ip; req_path := "/api/checkout"; req_time := time |}.

(** ** [GET /api/block-types] *)

(** A row of the query of the route: the columns [id], [name], [category],
    [icon], [default_config] and [schema] of an enabled block type. *)
Record block_type_entry : Type := {
  bt_id : Z;
  bt_name : string;
  bt_category : string;
  bt_icon : option string;
  bt_default_config : value;
  bt_schema : value
}.

(** The loop under the comment [Group by category], on the object
    [blocksByCategory]: a category that names a member every object inherits
    finds that member, which is no array, and [push] throws. *)
Definition group_by_category (rows : list block_type_entry)
  : option (gmap string (list block_type_entry)) :=
  foldl (fun blocksByCategory block =>
           groups ← blocksByCategory;
           if object_prototype_member (bt_category block) then None
           else Some (<[bt_category block :=
                          default [] (groups !! bt_category block) ++ [block]]> groups))
        (Some ∅) rows.

Inductive block_types_response : Type :=
| BlockTypes (blockTypes : list block_type_entry)
             (byCategory : gmap string (list block_type_entry))
| BlockTypesFailed.                (* 500, Failed to fetch block types *)

(** [app.get('/api/block-types', authMiddleware, ...)] on the rows the query
    returns, or [None] when it is rejected. *)
Definition get_block_types (result : option (list block_type_entry))
  : block_types_response :=
  match result with
  | None => BlockTypesFailed
  | Some rows =>
      match group_by_category rows with
      | Some byCategory => BlockTypes rows byCategory
      | None => BlockTypesFailed
      end
  end.

(** The rows of a category, in the order of the query. *)
Definition in_category (category : string) (rows : list block_type_entry)
  : list block_type_entry :=
  filter (fun block => String.eqb (bt_category block) category = true) rows.

Definition entry (id : Z) (name category : string) : block_type_entry :=
  {| bt_id := id; bt_name := name; bt_category := category; bt_icon := None;
     bt_default_config := VObj []; bt_schema := VObj [] |}.

Definition entries_example : list block_type_entry :=
  [entry 2 "text" "content"; entry 1 "hero" "layout"; entry 3 "spacer" "layout"].

(** The characters of a string, as the one-character strings that indexing
    yields. *)
Definition characters (s : string) : list value :=
  map (fun c => VStr (String c "")) (list_ascii_of_string s).

(** A text of ASCII characters: its bytes are the units JavaScript counts
    and indexes. *)
Definition ascii_text (s : string) : bool :=
  forallb (fun c => Nat.ltb (nat_of_ascii c) 128) (list_ascii_of_string s).

(** A body that shows the element between angle brackets. *)
Definition bracketed : Options :=
  {| fn := fun item => Some ("<" +:+ to_String item +:+ ">");
     inverse := fun _ => Some "" |}.

(** ** [PATCH /api/themes/:id/activate] of the server *)

Inductive activate_response : Type :=
| ActivateOk                       (* { success: true } *)
| ActivateFailed.                  (* 500, Failed to activate theme *)

(** [UPDATE themes SET is_active = true WHERE id = $1 AND tenant_id = $2],
    on one row. *)
Definition activated (id tenantId : Z) (t : theme_row) : theme_row :=
  if is_theme id tenantId t then
    {| th_id := th_id t; th_tenant_id := th_tenant_id t; th_name := th_name t;
       th_is_active := true; th_settings := th_settings t;
       th_updated_at := th_updated_at t |}
  else t.

(** [app.patch('/api/themes/:id/activate', authMiddleware, ...)], once the
    pool has handed out a client: the two statements run between [BEGIN] and
    [COMMIT] on that client, and a rejection of any of the four ([faults]
    numbers them) ends in [ROLLBACK]. *)
Definition activate_theme (faults : nat -> bool) (id tenantId : Z)
    (themes : list theme_row) : list theme_row * activate_response :=
  if faults 0%nat || faults 1%nat || faults 2%nat || faults 3%nat
  then (themes, ActivateFailed)
  else (map (activated id tenantId) (map (deactivated tenantId) themes), ActivateOk).

(** ** [GET /api/pages/slug/:slug] *)

Inductive slug_response : Type :=
| SlugJson (row : page_row)        (* res.json(result.rows[0]) *)
| SlugSubdomainRequired            (* 400 *)
| SlugStoreNotFound                (* 404 *)
| SlugPageNotFound                 (* 404 *)
| SlugFailed.                      (* 500, Failed to fetch page *)

(** [app.get('/api/pages/slug/:slug', ...)]; [faults] numbers the two
    queries. *)
Definition get_page_by_slug (faults : nat -> bool) (tenants : list tenant_row)
    (req : storefront_request) (db : database) : slug_response :=
  match or_else (header_subdomain req) (query_subdomain req) with
  | None => SlugSubdomainRequired
  | Some subdomain =>
      if String.eqb subdomain "" then SlugSubdomainRequired
      else if faults 0%nat then SlugFailed
      else
        match filter (fun t => String.eqb (t_subdomain t) subdomain = true) tenants with
        | [] => SlugStoreNotFound
        | tenant :: _ =>
            if faults 1%nat then SlugFailed
            else
              match published_pages (t_id tenant) (param_slug req) db with
              | [] => SlugPageNotFound
              | page :: _ => SlugJson page
              end
        end
  end.

(** * Properties *)

(** ** Induction on values *)

Lemma value_induction (P : value -> Prop) :
  P VUndefined -> P VNull -> (forall b, P (VBool b)) -> (forall n, P (VNum n)) ->
  (forall s, P (VStr s)) ->
  (forall items, Forall P items -> P (VArr items)) ->
  (forall members, Forall (fun kv => P (snd kv)) members -> P (VObj members)) ->
  forall v, P v.
Proof.
  intros Hu Hn Hb Hz Hs Ha Ho.
  fix IH 1. intros [| |b|n|s|items|members].
  - exact Hu.
  - exact Hn.
  - apply Hb.
  - apply Hz.
  - apply Hs.
  - apply Ha. induction items as [|item rest IHrest]; constructor;
      [apply IH | exact IHrest].
  - apply Ho. induction members as [|[k v] rest IHrest]; constructor;
      [apply IH | exact IHrest].
Qed.

(** ** Members of objects *)

Lemma existsb_eqb_elem (key : string) (keys : list string) :
  existsb (String.eqb key) keys = true <-> key ∈ keys.
Proof.
  rewrite existsb_exists. split.
  - intros (k & Hin & Heq). apply String.eqb_eq in Heq. subst k.
    now apply list_elem_of_In.
  - intros Hin. exists key. split; [now apply list_elem_of_In | apply String.eqb_refl].
Qed.

Lemma existsb_eqb_not_elem (key : string) (keys : list string) :
  existsb (String.eqb key) keys = false <-> key ∉ keys.
Proof.
  rewrite <- existsb_eqb_elem. destruct (existsb _ _); split; congruence.
Qed.

Lemma distinct_NoDup (keys : list string) : distinct keys = true -> NoDup keys.
Proof.
  induction keys as [|k rest IH]; simpl; intros H; [constructor|].
  apply andb_true_iff in H as [Hk Hrest]. apply negb_true_iff in Hk.
  constructor; [now apply existsb_eqb_not_elem | auto].
Qed.

Lemma set_member_fresh (key : string) (v : value) (members : list (string * value)) :
  key ∉ map fst members -> set_member key v members = members ++ [(key, v)].
Proof.
  induction members as [|[k w] rest IH]; simpl; intros Hfresh; [reflexivity|].
  apply not_elem_of_cons in Hfresh as [Hne Hrest].
  destruct (String.eqb_spec k key) as [->|_]; [congruence|].
  now rewrite IH.
Qed.

Lemma get_member_set_other (key key' : string) (v : value) (members : list (string * value)) :
  key <> key' -> get_member key (set_member key' v members) = get_member key members.
Proof.
  intros Hne. induction members as [|[k w] rest IH]; simpl.
  - destruct (String.eqb_spec key' key); congruence.
  - destruct (String.eqb_spec k key') as [->|Hk]; simpl.
    + destruct (String.eqb_spec key' key); congruence.
    + now rewrite IH.
Qed.

Lemma get_member_absent (key : string) (members : list (string * value)) :
  key ∉ map fst members -> get_member key members = VUndefined.
Proof.
  induction members as [|[k w] rest IH]; simpl; intros Hfresh; [reflexivity|].
  apply not_elem_of_cons in Hfresh as [Hne Hrest].
  destruct (String.eqb_spec k key); [congruence | auto].
Qed.

Lemma get_member_map (f : string -> value -> value) (key : string)
    (members : list (string * value)) :
  key ∈ map fst members ->
  get_member key (map (fun kv => (fst kv, f (fst kv) (snd kv))) members)
  = f key (get_member key members).
Proof.
  induction members as [|[k w] rest IH]; simpl; intros Hin.
  - now apply elem_of_nil in Hin.
  - destruct (String.eqb_spec k key) as [->|Hne]; [reflexivity|].
    apply elem_of_cons in Hin as [Heq|Hin]; [congruence | auto].
Qed.

(** ** The loops of escapeBlockConfig *)

Lemma escape_array_entries_eq rec items : forall i escaped,
  escape_array_entries rec i items escaped
  = escape_entries rec (array_entries i items) escaped.
Proof.
  induction items as [|v rest IH]; intros i escaped; simpl; [reflexivity|].
  apply IH.
Qed.

(** [escapeBlockConfig] on a non-null value of type ['object'] runs the loop
    over [Object.entries(config)], starting from the empty object. *)
Lemma escapeBlockConfig_entries config :
  typeof config = TObject -> config <> VNull ->
  escapeBlockConfig config
  = VObj (escape_entries escapeBlockConfig (Object_entries config) []).
Proof.
  destruct config; simpl; try discriminate; try congruence.
  intros _ _. now rewrite escape_array_entries_eq.
Qed.

(** The sanitizer never returns an array, so the assignments of
    [renderBlocks] only meet objects and values that are not objects. *)
Lemma escapeBlockConfig_never_array config :
  Array_isArray (escapeBlockConfig config) = false.
Proof. now destruct config. Qed.

(** With distinct names the loop stores one member per entry, in order. *)
Lemma escape_entries_distinct rec (entries : list (string * value)) :
  forall escaped,
  NoDup (map fst entries) ->
  (forall key : string, key ∈ map fst entries -> key ∉ map fst escaped) ->
  escape_entries rec entries escaped
  = escaped ++ map (fun kv => (fst kv, escape_field rec (fst kv) (snd kv))) entries.
Proof.
  induction entries as [|[key v] rest IH]; simpl; intros escaped Hnd Hfresh.
  - now rewrite app_nil_r.
  - apply NoDup_cons in Hnd as [Hkey Hrest].
    rewrite set_member_fresh by (apply Hfresh; left).
    rewrite IH; [now rewrite <- app_assoc | assumption |].
    intros k Hk. rewrite map_app. simpl. intros Hin.
    apply elem_of_app in Hin as [Hin|Hin].
    + revert Hin. apply Hfresh. now right.
    + apply list_elem_of_singleton in Hin. congruence.
Qed.

Lemma escapeBlockConfig_object members :
  distinct (map fst members) = true ->
  escapeBlockConfig (VObj members)
  = VObj (map (fun kv => (fst kv, escape_field escapeBlockConfig (fst kv) (snd kv)))
              members).
Proof.
  intros Hd. simpl. f_equal.
  rewrite escape_entries_distinct; [reflexivity | now apply distinct_NoDup |].
  intros key _ Hin. now apply elem_of_nil in Hin.
Qed.

(** ** The sanitizer against its reference definition *)

Lemma wf_value_object members :
  wf_value (VObj members) = true ->
  distinct (map fst members) = true
  /\ Forall (fun kv => wf_value (snd kv) = true) members.
Proof.
  simpl. intros H. apply andb_true_iff in H as [H Hall].
  apply andb_true_iff in H as [Hd _]. split; [assumption|].
  apply Forall_forall. intros kv Hin.
  rewrite forallb_forall in Hall. apply Hall. now apply list_elem_of_In.
Qed.

Lemma forallb_Forall {A} (f : A -> bool) (l : list A) :
  forallb f l = true -> Forall (fun x => f x = true) l.
Proof.
  intros H. apply Forall_forall. intros x Hin.
  rewrite forallb_forall in H. apply H. now apply list_elem_of_In.
Qed.

(** The three rules of the sanitizer agree with the reference in which a
    [null] element of an array is kept, on well-formed values whose arrays
    hold no arrays. *)
Lemma escape_rules_agree (v : value) :
  wf_value v = true -> arrays_flat v = true ->
  (Array_isArray v = false -> escapeBlockConfig v = sanitize_ref true v)
  /\ (forall key,
        escape_field escapeBlockConfig key v
        = sanitize_field_ref true (sanitize_ref true) key v)
  /\ (Array_isArray v = false ->
        escape_item escapeBlockConfig v
        = sanitize_element_ref true (sanitize_ref true) v).
Proof.
  induction v as [| |b|n|s|items IH|members IH] using value_induction;
    intros Hwf Hflat; try (repeat split; intros; reflexivity).
  - (* arrays *)
    split; [discriminate|]. split; [|discriminate].
    intros key. simpl. f_equal.
    simpl in Hwf, Hflat.
    apply forallb_Forall in Hwf. apply forallb_Forall in Hflat.
    induction items as [|item rest IHrest]; [reflexivity|].
    inversion IH as [|? ? Hitem Hrest]; subst.
    inversion Hwf as [|? ? Hw Hws]; subst.
    inversion Hflat as [|? ? Hf Hfs]; subst.
    apply andb_true_iff in Hf as [Hno Hf]. apply negb_true_iff in Hno.
    simpl. f_equal; [|now apply IHrest].
    now apply Hitem.
  - (* objects *)
    assert (Hobj : escapeBlockConfig (VObj members) = sanitize_ref true (VObj members)).
    { apply wf_value_object in Hwf as [Hd Hwf].
      rewrite escapeBlockConfig_object by assumption. simpl. f_equal.
      simpl in Hflat. apply forallb_Forall in Hflat.
      clear Hd. induction members as [|[k w] rest IHrest]; [reflexivity|].
      inversion IH as [|? ? Hw Hrest]; subst.
      inversion Hwf as [|? ? Hw1 Hws]; subst.
      inversion Hflat as [|? ? Hf Hfs]; subst.
      simpl. f_equal; [|now apply IHrest].
      f_equal. now apply Hw. }
    repeat split; intros; exact Hobj.
Qed.

(** C2, as stated: [escapeBlockConfig] does not equal the reference
    definition on every input.  A [null] element of an array is one of the
    scalars the reference stringifies and escapes, while the code, which sends
    every element of type ['object'] back through [escapeBlockConfig], keeps
    it as [null]. *)
Lemma escapeBlockConfig_null_element_differs :
  escapeBlockConfig (VObj [("tags", VArr [VNull])]) = VObj [("tags", VArr [VNull])]
  /\ sanitize_ref false (VObj [("tags", VArr [VNull])])
     = VObj [("tags", VArr [VStr "null"])]
  /\ escapeBlockConfig (VObj [("tags", VArr [VNull])])
     <> sanitize_ref false (VObj [("tags", VArr [VNull])]).
Proof.
  repeat split; try reflexivity. vm_compute. discriminate.
Qed.

(** C2, amended: on every well-formed input that is not itself an array and
    whose arrays hold no arrays, [escapeBlockConfig] equals the recursive
    reference definition in which a string member is escaped unless its key
    is [content], an array member is mapped element by element (object
    elements sanitized recursively, [null] elements kept, the other scalar
    elements stringified then escaped), the other scalar members pass
    through, and a non-object input is returned unchanged. *)
Theorem escapeBlockConfig_refines_reference (config : value) :
  wf_value config = true ->
  arrays_flat config = true ->
  Array_isArray config = false ->
  escapeBlockConfig config = sanitize_ref true config.
Proof.
  intros Hwf Hflat Harr.
  now apply (escape_rules_agree config Hwf Hflat).
Qed.

Lemma escapeBlockConfig_refines_reference_witness :
  escapeBlockConfig
    (VObj [("title", VStr "<b>Sale</b>"); ("content", VStr "<p>50% off</p>");
           ("tags", VArr [VStr "a&b"; VNum 7; VNull; VObj [("content", VStr "<i>")]]);
           ("nested", VObj [("label", VStr "'x'")]); ("count", VNum 3)])
  = sanitize_ref true
    (VObj [("title", VStr "<b>Sale</b>"); ("content", VStr "<p>50% off</p>");
           ("tags", VArr [VStr "a&b"; VNum 7; VNull; VObj [("content", VStr "<i>")]]);
           ("nested", VObj [("label", VStr "'x'")]); ("count", VNum 3)]).
Proof.
  apply escapeBlockConfig_refines_reference; reflexivity.
Defined.

(** ** Strings *)

Lemma append_cons c (s t : string) : String c s +:+ t = String c (s +:+ t).
Proof. reflexivity. Qed.

Lemma append_nil_l (s : string) : "" +:+ s = s.
Proof. reflexivity. Qed.

Lemma append_nil_r (s : string) : s +:+ "" = s.
Proof. induction s as [|c s IH]; [reflexivity|]. now rewrite append_cons, IH. Qed.

Lemma append_assoc (s t u : string) : (s +:+ t) +:+ u = s +:+ (t +:+ u).
Proof. induction s as [|c s IH]; [reflexivity|]. now rewrite !append_cons, IH. Qed.

(** ** The loop of renderBlocks *)

Lemma render_loop_from templates year (blocks : list block) : forall html,
  foldl (fun html b => html +:+ render_block templates year b) html blocks
  = html +:+ render_with templates year blocks.
Proof.
  unfold render_with.
  induction blocks as [|b rest IH]; intros html; simpl.
  - now rewrite append_nil_r.
  - rewrite IH, (IH (_ +:+ _)), append_nil_l. apply append_assoc.
Qed.

Lemma render_with_cons templates year b (rest : list block) :
  render_with templates year (b :: rest)
  = render_block templates year b +:+ render_with templates year rest.
Proof.
  unfold render_with at 1. simpl. now rewrite render_loop_from, append_nil_l.
Qed.

Lemma render_with_app templates year (front back : list block) :
  render_with templates year (front ++ back)
  = render_with templates year front +:+ render_with templates year back.
Proof.
  induction front as [|b rest IH]; [reflexivity|].
  rewrite <- app_comm_cons, !render_with_cons, IH. symmetry. apply append_assoc.
Qed.

Lemma render_with_single templates year b :
  render_with templates year [b] = render_block templates year b.
Proof. rewrite render_with_cons. apply append_nil_r. Qed.

(** ** The templates object *)

Lemma load_templates_from (rows : list block_type) (t : string) :
  forall templates : gmap string template,
  (forall bt, bt ∈ rows -> name bt <> t) ->
  foldl (fun templates bt => <[name bt := compile (template_nodes bt)]> templates)
        templates rows !! t
  = templates !! t.
Proof.
  induction rows as [|bt rest IH]; intros templates Hnone; simpl; [reflexivity|].
  rewrite IH.
  - apply lookup_insert_ne. apply Hnone. left.
  - intros bt' Hin. apply Hnone. now right.
Qed.

Lemma load_templates_found (rows : list block_type) (t : string) :
  forall templates : gmap string template,
  (is_Some (templates !! t) \/ exists bt, bt ∈ rows /\ name bt = t) ->
  is_Some (foldl (fun templates bt =>
                    <[name bt := compile (template_nodes bt)]> templates)
                 templates rows !! t).
Proof.
  induction rows as [|bt rest IH]; intros templates H; simpl.
  - destruct H as [H|(bt & Hin & _)]; [assumption | now apply elem_of_nil in Hin].
  - apply IH. destruct (decide (name bt = t)) as [Heq|Hne].
    + left. rewrite Heq, lookup_insert_eq. eauto.
    + destruct H as [H|(bt' & Hin & Hname)].
      * left. now rewrite lookup_insert_ne.
      * apply elem_of_cons in Hin as [->|Hin]; [congruence|]. right. eauto.
Qed.

Lemma registered_false block_types t :
  registered block_types t = false ->
  load_templates (select_enabled block_types) !! t = None.
Proof.
  intros Hreg. unfold load_templates. rewrite load_templates_from.
  - apply lookup_empty.
  - intros bt Hin Hname. unfold select_enabled in Hin.
    apply list_elem_of_filter in Hin as [Hen Hin].
    unfold registered in Hreg.
    assert (Hex : existsb (fun bt => is_enabled bt && String.eqb (name bt) t)
                    block_types = true).
    { apply existsb_exists. exists bt. split; [now apply list_elem_of_In|].
      rewrite Hen, Hname. apply String.eqb_refl. }
    congruence.
Qed.

Lemma registered_true block_types t :
  registered block_types t = true ->
  exists tpl, load_templates (select_enabled block_types) !! t = Some tpl.
Proof.
  intros Hreg. unfold registered in Hreg.
  apply existsb_exists in Hreg as (bt & Hin & Hbt).
  apply andb_true_iff in Hbt as [Hen Hname]. apply String.eqb_eq in Hname.
  apply (load_templates_found (select_enabled block_types) t ∅).
  right. exists bt. split; [|assumption].
  unfold select_enabled. apply list_elem_of_filter. split; [assumption|].
  now apply list_elem_of_In.
Qed.

(** The block in the middle of a list contributes its own fragment, between
    those of the blocks before and after it. *)
Lemma renderBlocks_middle block_types year front b back :
  renderBlocks block_types year (front ++ b :: back)
  = renderBlocks block_types year front
    +:+ render_block (load_templates (select_enabled block_types)) year b
    +:+ renderBlocks block_types year back.
Proof.
  unfold renderBlocks. now rewrite render_with_app, render_with_cons.
Qed.

(** ** Blocks of an unregistered type *)

(** C5, as stated: no marker comment is emitted for a block whose type is
    absent from, or disabled in, [block_types]; the block contributes
    nothing to the HTML. *)
Lemma unknown_type_emits_no_marker :
  registered block_types_example "mystery" = false
  /\ renderBlocks block_types_example 2026 [mystery_block] = ""
  /\ renderBlocks block_types_example 2026 [mystery_block]
     <> "<!-- Unknown block type: mystery -->"
  /\ registered block_types_example "banner" = false
  /\ renderBlocks block_types_example 2026 [banner_block] = ""
  /\ renderBlocks block_types_example 2026 [hero_block; mystery_block; hero_block]
     = "<h1>&lt;script&gt;alert(1)&lt;/script&gt;</h1>"
       +:+ "<h1>&lt;script&gt;alert(1)&lt;/script&gt;</h1>".
Proof.
  repeat split; try reflexivity. vm_compute. discriminate.
Qed.

(** C5, amended: when no enabled block type is named [__proto__], a block
    whose type is not registered (no enabled row of that name, the name not
    being one every object inherits) adds nothing to the output:
    [renderBlocks] only logs a warning and continues, so the output is the
    HTML of all other blocks, unchanged and in order. *)
Theorem unknown_type_is_skipped block_types year front b back :
  registered block_types "__proto__" = false ->
  registered block_types (type b) = false ->
  object_prototype_member (type b) = false ->
  renderBlocks block_types year (front ++ b :: back)
  = renderBlocks block_types year front +:+ renderBlocks block_types year back
  /\ renderBlocks block_types year (front ++ b :: back)
     = renderBlocks block_types year (front ++ back).
Proof.
  intros _ Hreg _.
  assert (Hskip : render_block (load_templates (select_enabled block_types)) year b = "").
  { unfold render_block. now rewrite (registered_false _ _ Hreg). }
  rewrite renderBlocks_middle, Hskip, append_nil_l.
  split; [reflexivity|].
  unfold renderBlocks. now rewrite render_with_app.
Qed.

Lemma unknown_type_is_skipped_witness :
  renderBlocks block_types_example 2026 ([hero_block] ++ mystery_block :: [shop_block])
  = renderBlocks block_types_example 2026 [hero_block]
    +:+ renderBlocks block_types_example 2026 [shop_block]
  /\ renderBlocks block_types_example 2026 ([hero_block] ++ mystery_block :: [shop_block])
     = renderBlocks block_types_example 2026 ([hero_block] ++ [shop_block]).
Proof.
  apply unknown_type_is_skipped; reflexivity.
Defined.

(** ** Blocks whose rendering throws *)

(** C6: when the compiled template of a block throws on its scope, the
    error marker of that block takes the place of its output, and the blocks
    before and after it are rendered as they would be without it, all
    fragments in block order. *)
Theorem failing_block_is_isolated block_types year front b back
    (tpl : template) (scope : value) :
  load_templates (select_enabled block_types) !! type b = Some tpl ->
  render_scope year (config b) = Some scope ->
  tpl scope = None ->
  renderBlocks block_types year (front ++ b :: back)
  = renderBlocks block_types year front
    +:+ ("<!-- Error rendering " +:+ type b +:+ " block -->")
    +:+ renderBlocks block_types year back.
Proof.
  intros Htpl Hscope Hthrow.
  rewrite renderBlocks_middle. unfold render_block, try_render.
  now rewrite Htpl, Hscope; simpl; rewrite Hthrow.
Qed.

Lemma failing_block_is_isolated_witness :
  renderBlocks block_types_example 2026 ([hero_block] ++ broken_list_block :: [shop_block])
  = "<h1>&lt;script&gt;alert(1)&lt;/script&gt;</h1>"
    +:+ "<!-- Error rendering list block -->"
    +:+ "p1-Shopp2-Shop".
Proof.
  rewrite (failing_block_is_isolated block_types_example 2026 [hero_block]
             broken_list_block [shop_block]
             (compile (template_nodes list_type))
             (VObj [("heading", VStr "Links"); ("year", VNum 2026);
                    ("jsonConfig", JSON_stringify (config broken_list_block))]));
    reflexivity.
Defined.

(** ** Composability *)

(** C7: with the same block types and the same clock, rendering a list is
    the concatenation, in order, of rendering each block on its own; hence
    rendering two sublists and concatenating equals rendering the whole. *)
Theorem renderBlocks_composable block_types year :
  (forall blocks,
     renderBlocks block_types year blocks
     = fold_right String.append ""
         (map (fun b => renderBlocks block_types year [b]) blocks))
  /\ (forall front back,
        renderBlocks block_types year (front ++ back)
        = renderBlocks block_types year front +:+ renderBlocks block_types year back).
Proof.
  split.
  - unfold renderBlocks. induction blocks as [|b rest IH]; [reflexivity|].
    simpl. rewrite render_with_cons, render_with_single. now rewrite IH.
  - intros front back. unfold renderBlocks. apply render_with_app.
Qed.

(** ** Configs that are not objects *)

(** C10: for a block of a registered type whose config is a string, a
    number, a boolean, [null] or missing, the sanitizer returns the config
    unchanged, storing [year] into it throws, and [renderBlocks] emits the
    error marker of the block instead of any template output. *)
Theorem non_object_config_renders_error_marker block_types year front b back :
  registered block_types (type b) = true ->
  not_an_object (config b) = true ->
  escapeBlockConfig (config b) = config b
  /\ set_property (escapeBlockConfig (config b)) "year" (VNum year) = None
  /\ renderBlocks block_types year (front ++ b :: back)
     = renderBlocks block_types year front
       +:+ ("<!-- Error rendering " +:+ type b +:+ " block -->")
       +:+ renderBlocks block_types year back.
Proof.
  intros Hreg Hconfig.
  destruct (registered_true _ _ Hreg) as [tpl Htpl].
  assert (Hsame : escapeBlockConfig (config b) = config b)
    by (destruct (config b); try discriminate; reflexivity).
  assert (Hthrow : set_property (escapeBlockConfig (config b)) "year" (VNum year) = None)
    by (rewrite Hsame; destruct (config b); try discriminate; reflexivity).
  repeat split; try assumption.
  rewrite renderBlocks_middle. unfold render_block, try_render, render_scope.
  now rewrite Htpl, Hthrow.
Qed.

Lemma non_object_config_renders_error_marker_witness :
  escapeBlockConfig (VStr "<b>") = VStr "<b>"
  /\ set_property (escapeBlockConfig (VStr "<b>")) "year" (VNum 2026) = None
  /\ renderBlocks block_types_example 2026
       ([hero_block] ++ {| type := "hero"; config := VStr "<b>" |} :: [shop_block])
     = "<h1>&lt;script&gt;alert(1)&lt;/script&gt;</h1>"
       +:+ "<!-- Error rendering hero block -->"
       +:+ "p1-Shopp2-Shop".
Proof.
  destruct (non_object_config_renders_error_marker block_types_example 2026
              [hero_block] {| type := "hero"; config := VStr "<b>" |} [shop_block])
    as (Hsame & Hthrow & Hout); [reflexivity|reflexivity|].
  split; [exact Hsame|]. split; [exact Hthrow|]. rewrite Hout. reflexivity.
Defined.

(** ** Template sections *)

Lemma render_node_conditional p A B scopes :
  render_node (Conditional p A B) scopes
  = if_helper (hd VUndefined scopes) (resolve p scopes)
      {| fn := fun ctx => render_nodes A (ctx :: tl scopes);
         inverse := fun ctx => render_nodes B (ctx :: tl scopes) |}.
Proof. reflexivity. Qed.

Lemma render_node_iteration p body scopes :
  render_node (Iteration p body) scopes
  = each_helper (resolve p scopes)
      {| fn := fun ctx => render_nodes body (ctx :: scopes);
         inverse := fun _ => Some "" |}.
Proof. reflexivity. Qed.

Lemma each_loop (f : value -> option string) (rest : list value) :
  forall (before : list value) (ret : option string),
  foldl (fun ret i =>
           r ← ret; out ← f (nth i (before ++ rest) VUndefined); Some (r +:+ out))
        ret (seq (length before) (length rest))
  = r ← ret; more ← concat_fragments f rest; Some (r +:+ more).
Proof.
  induction rest as [|item rest IH]; intros before ret; simpl.
  - destruct ret as [r|]; simpl; [now rewrite append_nil_r | reflexivity].
  - replace (before ++ item :: rest) with ((before ++ [item]) ++ rest)
      by now rewrite <- app_assoc.
    replace (S (length before)) with (length (before ++ [item]))
      by (rewrite length_app; simpl; lia).
    rewrite IH.
    rewrite <- app_assoc. simpl.
    rewrite nth_middle.
    destruct ret as [r|]; simpl; [|reflexivity].
    destruct (f item) as [out|]; simpl; [|reflexivity].
    destruct (concat_fragments f rest) as [more|]; simpl; [|reflexivity].
    now rewrite append_assoc.
Qed.

Lemma each_helper_array items options :
  each_helper (VArr items) options = concat_fragments (fn options) items.
Proof.
  unfold each_helper. simpl. rewrite Nat2Z.id.
  pose proof (each_loop (fn options) items [] (Some "")) as Hloop.
  simpl in Hloop. rewrite Hloop.
  destruct (concat_fragments (fn options) items); reflexivity.
Qed.

(** C3, as stated: an empty array is not falsy.  The registered [if] helper
    tests its argument with a plain JavaScript [if], for which every array is
    truthy, so [{{#if x}}A{{/if}}] with [x = []] renders [A]. *)
Lemma empty_array_condition_renders_branch :
  truthy (VArr []) = true
  /\ render_node (Conditional (field ["x"]) [Text "A"] []) [VObj [("x", VArr [])]]
     = Some "A"
  /\ renderBlocks block_types_example 2026 [if_block (VArr [])] = "A"
  /\ renderBlocks block_types_example 2026 [if_block (VArr [])] <> "".
Proof.
  repeat split; try reflexivity. vm_compute. discriminate.
Qed.

(** C3, amended: a section [{{#if field}}A{{else}}B{{/if}}] renders branch
    [A] exactly when the field is truthy and branch [B] (nothing without an
    [else]) otherwise, where the falsy values are undefined/missing, [null],
    [false], [0] and the empty string; arrays, the empty one included, and
    objects are truthy.  So [{{#if x}}A{{/if}}] renders the empty string for
    [x] absent, [null], the empty string, [false] or [0], and renders [A] for
    [x = "yes"], [x = 1] and [x = []]. *)
Theorem conditional_section_semantics :
  (forall this conditional options,
     if_helper this conditional options
     = if truthy conditional then fn options this else inverse options this)
  /\ (forall p A B scope parents,
     render_node (Conditional p A B) (scope :: parents)
     = if truthy (resolve p (scope :: parents))
       then render_nodes A (scope :: parents)
       else render_nodes B (scope :: parents))
  /\ (forall v,
        truthy v = false
        <-> v = VUndefined \/ v = VNull \/ v = VBool false \/ v = VNum 0 \/ v = VStr "")
  /\ (forall year,
        renderBlocks block_types_example year [{| type := "if"; config := VObj [] |}] = ""
        /\ Forall (fun x => renderBlocks block_types_example year [if_block x] = "")
                  [VUndefined; VNull; VStr ""; VBool false; VNum 0]
        /\ Forall (fun x => renderBlocks block_types_example year [if_block x] = "A")
                  [VStr "yes"; VNum 1; VArr []]).
Proof.
  split; [reflexivity|]. split; [|split].
  - intros p A B scope parents. rewrite render_node_conditional.
    unfold if_helper. simpl. now destruct (truthy _).
  - intros v. split.
    + destruct v as [| |b|n|s|items|members]; simpl; intros H; auto; try discriminate.
      * destruct b; [discriminate | auto].
      * apply negb_false_iff, Z.eqb_eq in H. subst. auto 6.
      * apply negb_false_iff, String.eqb_eq in H. subst. auto 6.
    + intros [->|[->|[->|[->| ->]]]]; reflexivity.
  - intros year. repeat split; repeat constructor.
Qed.

Lemma conditional_section_semantics_witness :
  render_node (Conditional (field ["x"]) [Text "A"] [Text "B"])
    [VObj [("x", VNull)]] = Some "B"
  /\ truthy (VNum 0) = false.
Proof.
  destruct conditional_section_semantics as (_ & Hsection & Hfalsy & _).
  split.
  - rewrite Hsection. reflexivity.
  - apply Hfalsy. right. right. right. left. reflexivity.
Defined.

(** C4: a section [{{#each field}}...{{/each}}] whose field resolves to an
    array renders its body once per element, in array order, each time in a
    child scope where [this] is the element and the fields of the parent
    scope are reached through [../]; the template of the specification
    renders [p1-Shop] then [p2-Shop]. *)
Theorem iteration_section_semantics :
  (forall items options,
     each_helper (VArr items) options = concat_fragments (fn options) items)
  /\ (forall p body scopes items,
     resolve p scopes = VArr items ->
     render_node (Iteration p body) scopes
     = concat_fragments (fun item => render_nodes body (item :: scopes)) items)
  /\ (forall keys item scopes,
        resolve (field keys) (item :: scopes) = get_path keys item)
  /\ (forall keys item scope parents,
        resolve (parent_field keys) (item :: scope :: parents)
        = resolve (field keys) (scope :: parents))
  /\ (forall year,
        renderBlocks block_types_example year [shop_block] = "p1-Shop" +:+ "p2-Shop").
Proof.
  split; [exact each_helper_array|]. repeat split.
  intros p body scopes items Hitems.
  rewrite render_node_iteration, Hitems. apply each_helper_array.
Qed.

Lemma iteration_section_semantics_witness :
  render_node
    (Iteration (field ["items"]) [Var (field ["name"]); Text "-"; Var (parent_field ["title"])])
    [VObj [("items", VArr [VObj [("name", VStr "p1")]; VObj [("name", VStr "p2")]]);
           ("title", VStr "Shop")]]
  = Some "p1-Shopp2-Shop".
Proof.
  rewrite (proj1 (proj2 iteration_section_semantics) _ _ _
             [VObj [("name", VStr "p1")]; VObj [("name", VStr "p2")]]);
    reflexivity.
Defined.

(** ** Escaped fields in the rendered output *)

Lemma get_path_undefined keys : get_path keys VUndefined = VUndefined.
Proof. induction keys as [|k rest IH]; [reflexivity | exact IH]. Qed.

Lemma get_path_scalar keys v s :
  not_an_object v = true -> get_path keys v = VStr s -> keys = [].
Proof.
  destruct keys as [|k rest]; [reflexivity|]. unfold get_path. simpl.
  intros Hv Hpath. destruct v; try discriminate;
    change (get_path rest VUndefined = VStr s) in Hpath;
    rewrite get_path_undefined in Hpath; discriminate.
Qed.

(** A path that leads to a string goes through the entries of a container. *)
Lemma get_path_container key keys v s :
  get_path (key :: keys) v = VStr s ->
  not_an_object v = false
  /\ get_property v key = get_member key (Object_entries v)
  /\ get_path keys (get_member key (Object_entries v)) = VStr s.
Proof.
  intros Hpath.
  destruct v as [| |b|n|t|items|members];
    try (apply get_path_scalar in Hpath; [discriminate | reflexivity]).
  - unfold get_path in Hpath. simpl in Hpath. simpl.
    destruct (String.eqb key "length").
    + change (get_path keys (VNum (Z.of_nat (length items))) = VStr s) in Hpath.
      pose proof (get_path_scalar keys (VNum (Z.of_nat (length items))) s
                    eq_refl Hpath) as ->.
      discriminate.
    + auto.
  - auto.
Qed.

Lemma get_member_present (key : string) (members : list (string * value)) :
  get_member key members <> VUndefined -> key ∈ map fst members.
Proof.
  intros H. destruct (decide (key ∈ map fst members)) as [Hin|Hout]; [assumption|].
  now rewrite get_member_absent in H.
Qed.

Lemma get_path_present (key : string) keys (entries : list (string * value)) s :
  get_path keys (get_member key entries) = VStr s -> key ∈ map fst entries.
Proof.
  intros Hpath. apply get_member_present. intros Hu. rewrite Hu in Hpath.
  now rewrite get_path_undefined in Hpath.
Qed.

(** The entries of an array carry distinct names, none of them [content]. *)
Lemma array_entries_keys i (items : list value) :
  map fst (array_entries i items) = map pretty (seq i (length items)).
Proof.
  revert i. induction items as [|item rest IH]; intros i; [reflexivity|].
  simpl. now rewrite IH.
Qed.

Lemma array_entries_NoDup i (items : list value) :
  NoDup (map fst (array_entries i items)).
Proof.
  rewrite array_entries_keys. apply (NoDup_fmap_2 pretty), NoDup_seq.
Qed.

Lemma pretty_N_go_not_word x : forall s s',
  s <> String "c" s' -> pretty_N_go x s <> String "c" s'.
Proof.
  induction (N.lt_wf_0 x) as [x _ IH]; intros s s' Hs.
  assert (Hx : (x = 0 \/ 0 < x)%N) by lia. destruct Hx as [->|Hx].
  - now rewrite pretty_N_go_0.
  - rewrite pretty_N_go_step by assumption. apply IH.
    + now apply N.div_lt.
    + unfold pretty_N_char. repeat case_match; discriminate.
Qed.

Lemma index_is_not_content (i : nat) : String.eqb (pretty i) "content" = false.
Proof.
  apply String.eqb_neq. unfold pretty, pretty_nat, pretty, pretty_N.
  case_decide; [discriminate|]. now apply pretty_N_go_not_word.
Qed.

Lemma array_entry_is_not_content (key : string) i (items : list value) :
  key ∈ map fst (array_entries i items) -> String.eqb key "content" = false.
Proof.
  rewrite array_entries_keys. intros Hin.
  apply list_elem_of_fmap in Hin as (n & -> & _). apply index_is_not_content.
Qed.

Lemma array_entries_map (f : value -> value) (items : list value) : forall i,
  array_entries i (map f items)
  = map (fun kv => (fst kv, f (snd kv))) (array_entries i items).
Proof.
  induction items as [|item rest IH]; intros i; [reflexivity|].
  simpl. now rewrite IH.
Qed.

(** A container is rebuilt entry by entry. *)
Lemma escapeBlockConfig_container v :
  wf_value v = true -> not_an_object v = false ->
  escapeBlockConfig v
  = VObj (map (fun kv => (fst kv, escape_field escapeBlockConfig (fst kv) (snd kv)))
              (Object_entries v)).
Proof.
  intros Hwf Hv. destruct v as [| |b|n|t|items|members]; try discriminate.
  - simpl. f_equal. rewrite escape_array_entries_eq.
    rewrite escape_entries_distinct; [reflexivity | apply array_entries_NoDup |].
    intros key _ Hin. now apply elem_of_nil in Hin.
  - apply escapeBlockConfig_object. now apply wf_value_object in Hwf.
Qed.

Lemma wf_value_entry (key : string) v :
  wf_value v = true -> wf_value (get_member key (Object_entries v)) = true.
Proof.
  intros Hwf. destruct v as [| |b|n|t|items|members]; try reflexivity.
  - simpl in *. apply forallb_Forall in Hwf. generalize 0%nat.
    induction Hwf as [|item rest Hitem _ IH]; intros i; simpl; [reflexivity|].
    destruct (String.eqb (pretty i) key); [assumption | apply IH].
  - apply wf_value_object in Hwf as [_ Hall]. simpl.
    induction Hall as [|[k w] rest Hw _ IH]; simpl; [reflexivity|].
    now destruct (String.eqb k key).
Qed.

(** A string leaf of a well-formed value, reached through objects and
    arrays, is found under the same names in the sanitized value, escaped
    unless the last name is [content]; this holds for the value stored for a
    member (first part) and for an element of an array (second part). *)
Lemma escaped_leaf keys :
  (forall key v s,
     wf_value v = true ->
     get_path keys v = VStr s ->
     get_path keys (escape_field escapeBlockConfig key v)
     = VStr (shown (last_key key keys) s))
  /\ (forall idx v s,
        wf_value v = true ->
        String.eqb idx "content" = false ->
        get_path keys v = VStr s ->
        get_path keys (escape_item escapeBlockConfig v)
        = VStr (shown (last_key idx keys) s)).
Proof.
  induction keys as [|k rest [IHfield IHitem]].
  - split.
    + intros key v s _ Hpath. unfold get_path in *. simpl in *. subst v. simpl.
      unfold shown. now destruct (String.eqb key "content").
    + intros idx v s _ Hidx Hpath. unfold get_path in *. simpl in *. subst v.
      simpl. unfold shown. now rewrite Hidx.
  - assert (Hrebuilt : forall v s,
              wf_value v = true ->
              get_path (k :: rest) v = VStr s ->
              get_path (k :: rest) (escapeBlockConfig v)
              = VStr (shown (last_key k rest) s)).
    { intros v s Hwf Hpath.
      apply get_path_container in Hpath as (Hv & _ & Hleaf).
      rewrite (escapeBlockConfig_container v Hwf Hv).
      unfold get_path. simpl.
      rewrite get_member_map by (now apply get_path_present in Hleaf).
      apply IHfield; [now apply wf_value_entry | exact Hleaf]. }
    split.
    + intros key v s Hwf Hpath.
      destruct v as [| |b|n|t|items|members];
        try (apply get_path_scalar in Hpath; [discriminate | reflexivity]).
      * (* an array stored for a member keeps being an array *)
        apply get_path_container in Hpath as (_ & Hprop & Hleaf).
        change (Object_entries (VArr items)) with (array_entries 0 items)
          in Hprop, Hleaf.
        assert (Hin : k ∈ map fst (array_entries 0 items))
          by now apply get_path_present in Hleaf.
        assert (Hlen : String.eqb k "length" = false).
        { destruct (String.eqb_spec k "length") as [->|]; [|reflexivity].
          change (VNum (Z.of_nat (length items))
                  = get_member "length" (array_entries 0 items)) in Hprop.
          rewrite <- Hprop in Hleaf.
          pose proof (get_path_scalar rest (VNum (Z.of_nat (length items))) s
                        eq_refl Hleaf) as ->.
          discriminate. }
        change (get_path (k :: rest) (escape_field escapeBlockConfig key (VArr items)))
          with (get_path rest
                  (if String.eqb k "length"
                   then VNum (Z.of_nat (length (map (escape_item escapeBlockConfig) items)))
                   else get_member k
                          (array_entries 0 (map (escape_item escapeBlockConfig) items)))).
        rewrite Hlen, array_entries_map.
        rewrite (get_member_map (fun _ => escape_item escapeBlockConfig)) by assumption.
        apply IHitem;
          [exact (wf_value_entry k (VArr items) Hwf)
          | now apply array_entry_is_not_content in Hin | exact Hleaf].
      * exact (Hrebuilt _ s Hwf Hpath).
    + intros idx v s Hwf Hidx Hpath.
      pose proof (get_path_container _ _ _ _ Hpath) as (Hv & _).
      replace (escape_item escapeBlockConfig v) with (escapeBlockConfig v)
        by (destruct v; try discriminate; reflexivity).
      exact (Hrebuilt _ s Hwf Hpath).
Qed.

(** The same for the sanitized config as a whole. *)
Lemma escaped_path key keys v s :
  wf_value v = true ->
  get_path (key :: keys) v = VStr s ->
  get_path (key :: keys) (escapeBlockConfig v) = VStr (shown (last_key key keys) s).
Proof.
  intros Hwf Hpath.
  pose proof (get_path_container _ _ _ _ Hpath) as (Hv & _).
  destruct (escaped_leaf (key :: keys)) as [_ Hitem].
  specialize (Hitem "0" v s Hwf eq_refl Hpath).
  replace (escape_item escapeBlockConfig v) with (escapeBlockConfig v) in Hitem
    by (destruct v; try discriminate; reflexivity).
  exact Hitem.
Qed.

Lemma render_nodes_app (front back : list node) scopes :
  render_nodes (front ++ back) scopes
  = a ← render_nodes front scopes; b ← render_nodes back scopes; Some (a +:+ b).
Proof.
  induction front as [|n rest IH]; simpl.
  - now destruct (render_nodes back scopes).
  - rewrite IH. destruct (render_node n scopes) as [out|]; simpl; [|reflexivity].
    destruct (render_nodes rest scopes) as [a|]; simpl; [|reflexivity].
    destruct (render_nodes back scopes) as [b|]; simpl; [|reflexivity].
    now rewrite append_assoc.
Qed.

Lemma render_around_variable (before after : list node) p scopes o1 o2 :
  render_nodes before scopes = Some o1 ->
  render_nodes after scopes = Some o2 ->
  render_nodes (before ++ Var p :: after) scopes
  = Some (o1 +:+ print (resolve p scopes) +:+ o2).
Proof.
  intros Hb Ha. rewrite render_nodes_app, Hb. simpl. now rewrite Ha.
Qed.

Lemma render_single_block block_types year b (tpl : template) scope out :
  load_templates (select_enabled block_types) !! type b = Some tpl ->
  render_scope year (config b) = Some scope ->
  tpl scope = Some out ->
  renderBlocks block_types year [b] = out.
Proof.
  intros Htpl Hscope Hout. unfold renderBlocks. rewrite render_with_single.
  unfold render_block, try_render. now rewrite Htpl, Hscope; simpl; rewrite Hout.
Qed.

(** The scope of a block whose config is an object or an array holds, under
    every name but the two synthesized ones, what the sanitized config
    holds. *)
Lemma render_scope_container year v :
  wf_value v = true -> not_an_object v = false ->
  exists members,
    render_scope year v = Some (VObj members)
    /\ forall key,
         synthesized key = false ->
         get_member key members = get_property (escapeBlockConfig v) key.
Proof.
  intros Hwf Hv. unfold render_scope.
  rewrite (escapeBlockConfig_container v Hwf Hv). simpl.
  eexists. split; [reflexivity|].
  intros key Hsyn. apply orb_false_iff in Hsyn as [Hyear Hjson].
  apply String.eqb_neq in Hyear, Hjson.
  now rewrite !get_member_set_other by congruence.
Qed.

(** C1, as stated: a string field keyed [year] (not [content]) does not
    appear escaped in the output; [renderBlocks] stores the calendar year
    under that name after sanitizing, so the footer shows the clock's year
    in place of the field. *)
Lemma year_field_is_replaced :
  get_member "year" [("year", VStr "<b>1999</b>"); ("companyName", VStr "A&B")]
  = VStr "<b>1999</b>"
  /\ renderBlocks block_types_example 2026 [footer_block] = "(c) 2026 A&amp;B"
  /\ renderBlocks block_types_example 2026 [footer_block]
     <> "(c) " +:+ escapeHtml "<b>1999</b>" +:+ " A&amp;B".
Proof.
  repeat split; try reflexivity. vm_compute. discriminate.
Qed.

(** C1, amended: for a block whose config is an object (or an array) with
    distinct member names, none of them [__proto__], at every depth, every
    string-valued field, at any depth through objects and arrays, whose
    top-level name is not one of the two synthesized names [year] and
    [jsonConfig], reaches the template escaped (the characters [&], [<],
    [>], the double quote and the apostrophe replaced by the entities
    [&amp;], [&lt;], [&gt;], [&quot;] and [&#039;]) unless its own key is
    [content], in which case it reaches it byte for byte; a template that
    substitutes the field shows exactly that text.  For the hero block of the
    specification and a hero template containing [<h1>{{title}}</h1>] the
    output contains [<h1>&lt;script&gt;alert(1)&lt;/script&gt;</h1>]. *)
Theorem renderBlocks_escapes_fields block_types year :
  (forall b key keys s,
     not_an_object (config b) = false ->
     wf_value (config b) = true ->
     synthesized key = false ->
     get_path (key :: keys) (config b) = VStr s ->
     exists scope,
       render_scope year (config b) = Some scope
       /\ resolve (field (key :: keys)) [scope] = VStr (shown (last_key key keys) s)
       /\ forall before after o1 o2,
            load_templates (select_enabled block_types) !! type b
            = Some (compile (before ++ Var (field (key :: keys)) :: after)) ->
            render_nodes before [scope] = Some o1 ->
            render_nodes after [scope] = Some o2 ->
            renderBlocks block_types year [b]
            = o1 +:+ shown (last_key key keys) s +:+ o2)
  /\ (forall before after o1 o2,
        load_templates (select_enabled block_types) !! "hero"
        = Some (compile (before ++ [Text "<h1>"; Var (field ["title"]); Text "</h1>"]
                                ++ after)) ->
        render_nodes before [hero_scope year] = Some o1 ->
        render_nodes after [hero_scope year] = Some o2 ->
        renderBlocks block_types year [hero_block]
        = o1 +:+ "<h1>&lt;script&gt;alert(1)&lt;/script&gt;</h1>" +:+ o2)
  /\ shown "label" (String "&" (String "<" (String ">" (String quot "'"))))
     = "&amp;&lt;&gt;&quot;&#039;"
  /\ shown "content" (String "&" (String "<" (String ">" (String quot "'"))))
     = String "&" (String "<" (String ">" (String quot "'"))).
Proof.
  split; [|split; [|split; reflexivity]].
  - intros b key keys s Hconfig Hwf Hsyn Hpath.
    destruct (render_scope_container year _ Hwf Hconfig) as (members & Hscope & Hsame).
    assert (Hresolve :
      resolve (field (key :: keys)) [VObj members]
      = VStr (shown (last_key key keys) s)).
    { unfold resolve. simpl. rewrite (Hsame key Hsyn).
      exact (escaped_path key keys _ s Hwf Hpath). }
    exists (VObj members). split; [exact Hscope|]. split; [exact Hresolve|].
    intros before after o1 o2 Htpl Hb Ha.
    apply (render_single_block _ _ _ _ _ _ Htpl Hscope).
    unfold compile. rewrite (render_around_variable _ _ _ _ _ _ Hb Ha).
    now rewrite Hresolve.
  - intros before after o1 o2 Htpl Hb Ha.
    apply (render_single_block block_types year hero_block _ (hero_scope year) _ Htpl);
      [reflexivity|].
    unfold compile. rewrite render_nodes_app, Hb. simpl.
    rewrite Ha. reflexivity.
Qed.

Lemma renderBlocks_escapes_fields_witness :
  renderBlocks block_types_example 2026 [hero_block]
  = "" +:+ "<h1>&lt;script&gt;alert(1)&lt;/script&gt;</h1>" +:+ ""
  /\ exists scope,
       render_scope 2026 (config gallery_block) = Some scope
       /\ resolve (field ["images"; "1"; "alt"]) [scope] = VStr "&lt;Sea &amp; sky&gt;"
       /\ resolve (field ["images"; "1"; "content"]) [scope] = VStr "<em>new</em>".
Proof.
  destruct (renderBlocks_escapes_fields block_types_example 2026)
    as (Hfields & Hhero & _).
  split.
  - apply (Hhero [] []); reflexivity.
  - destruct (Hfields gallery_block "images" ["1"; "alt"] "<Sea & sky>")
      as (scope & Hscope & Halt & _); try reflexivity.
    destruct (Hfields gallery_block "images" ["1"; "content"] "<em>new</em>")
      as (scope' & Hscope' & Hcontent & _); try reflexivity.
    rewrite Hscope in Hscope'. injection Hscope' as <-.
    exists scope. repeat split; assumption.
Defined.

(** ** The version store *)

Lemma or_zero_default (max_version : option Z) :
  or_zero max_version = default 0 max_version.
Proof.
  destruct max_version as [n|]; [|reflexivity]. simpl.
  destruct (Z.eqb_spec n 0); congruence.
Qed.

Lemma sql_max_upper (numbers : list Z) (m : Z) :
  sql_max numbers = Some m -> forall n, n ∈ numbers -> n <= m.
Proof.
  destruct numbers as [|first rest]; [discriminate|]. simpl.
  intros [= <-]. revert first.
  induction rest as [|second rest IH]; intros first n Hin; simpl.
  - apply list_elem_of_singleton in Hin. lia.
  - assert (Hrest : n = second \/ n ∈ first :: rest).
    { apply elem_of_cons in Hin as [Heq|Hin]; [rewrite Heq; right; left|].
      apply elem_of_cons in Hin as [Heq|Hin]; [now left | right; now right]. }
    destruct Hrest as [Heq|Hrest]; [lia|].
    specialize (IH first n Hrest). lia.
Qed.

Lemma sql_max_none (numbers : list Z) : sql_max numbers = None -> numbers = [].
Proof. destruct numbers; [reflexivity | discriminate]. Qed.

(** The next version number is not taken, so the [UNIQUE] constraint of
    [page_versions] never rejects the insert of the handler. *)
Lemma next_version_is_free (id : Z) (db : database) :
  existsb (fun v => (pv_page_id v =? id)
                    && (pv_version_number v
                        =? default 0 (sql_max (map pv_version_number (versions_of id db))) + 1))
          (page_versions db) = false.
Proof.
  destruct (existsb _ _) eqn:Hex; [|reflexivity]. exfalso.
  apply existsb_exists in Hex as (v & Hin & Hv).
  apply andb_true_iff in Hv as [Hid Hnum].
  apply Z.eqb_eq in Hnum.
  assert (Hmem : pv_version_number v ∈ map pv_version_number (versions_of id db)).
  { apply list_elem_of_fmap. exists v. split; [reflexivity|].
    unfold versions_of. apply list_elem_of_filter. split; [assumption|].
    now apply list_elem_of_In. }
  destruct (sql_max (map pv_version_number (versions_of id db))) as [m|] eqn:Hmax.
  - pose proof (sql_max_upper _ _ Hmax _ Hmem). simpl in Hnum. lia.
  - apply sql_max_none in Hmax. rewrite Hmax in Hmem. now apply elem_of_nil in Hmem.
Qed.

Lemma no_hit_existsb (hit : page_row -> bool) (rows : list page_row) :
  filter (fun p => hit p = true) rows = [] -> existsb hit rows = false.
Proof.
  induction rows as [|p rest IH]; [reflexivity|]. rewrite filter_cons. simpl.
  destruct (hit p) eqn:Hp; case_decide; try congruence; intros Hnil;
    try discriminate. now apply IH.
Qed.

Lemma no_hit_map (hit : page_row -> bool) (f : page_row -> page_row)
    (rows : list page_row) :
  filter (fun p => hit p = true) rows = [] ->
  map (fun p => if hit p then f p else p) rows = rows.
Proof.
  induction rows as [|p rest IH]; [reflexivity|]. rewrite filter_cons. simpl.
  destruct (hit p) eqn:Hp; case_decide; try congruence; intros Hnil;
    try discriminate. now rewrite IH.
Qed.

Lemma update_page_eq now req db :
  update_page now req db
  = if negb (accepts (body_blocks req) && accepts (body_seo_settings req)) then None
    else if existsb (is_page (param_id req) (user_tenantId req)) (pages db)
            && negb (slugs_unique (updated_pages now req db))
    then None
    else Some ({| pages := updated_pages now req db;
                  page_versions := page_versions db |},
               map (updated_row now req)
                   (filter (fun p => is_page (param_id req) (user_tenantId req) p = true)
                           (pages db))).
Proof. reflexivity. Qed.

Lemma storable_stored (blocks : value) :
  storable blocks = true ->
  jsonb_param blocks = Stored (coalesce_jsonb (Some blocks) blocks).
Proof.
  unfold storable, coalesce_jsonb.
  destruct (jsonb_param blocks); try discriminate; reflexivity.
Qed.

(** What the store has taken once, it takes back. *)
Lemma coalesce_jsonb_storable (param : option value) (column : value) :
  storable column = true -> storable (coalesce_jsonb param column) = true.
Proof.
  intros Hcolumn. destruct param as [[| |b|n|s|[|item items]|members]|]; simpl;
    try assumption; reflexivity.
Qed.

(** What a request can leave behind: nothing; nothing, the page being absent;
    the snapshot alone; or the snapshot and the updated page. *)
Lemma put_page_outcomes faults now req db :
  let after := fst (put_page faults now req db) in
  let answer := snd (put_page faults now req db) in
  (after = db /\ answer = ServerError)
  \/ (existing_page req db = None
      /\ pages after = pages db /\ page_versions after = page_versions db
      /\ answer = NotFound)
  \/ (exists page,
        existing_page req db = Some page
        /\ storable (p_blocks page) = true
        /\ pages after = pages db
        /\ page_versions after
           = page_versions db ++ [expected_version now req page db]
        /\ answer = ServerError)
  \/ (exists page,
        existing_page req db = Some page
        /\ storable (p_blocks page) = true
        /\ pages after = updated_pages now req db
        /\ page_versions after
           = page_versions db ++ [expected_version now req page db]
        /\ answer = Json (updated_row now req page)).
Proof.
  unfold existing_page, put_page, put_page_body, bind, query, select_page_blocks.
  destruct (faults 0%nat); [left; auto|].
  destruct (filter _ (pages db)) as [|page rest] eqn:Hfound; simpl.
  - (* no page row *)
    destruct (faults 3%nat); [left; auto|].
    rewrite update_page_eq.
    destruct (negb (accepts (body_blocks req) && accepts (body_seo_settings req)));
      [left; auto|].
    rewrite (no_hit_existsb _ _ Hfound), Hfound. simpl.
    right. left. repeat split. unfold updated_pages. now apply no_hit_map.
  - (* a page row: the version is saved first *)
    unfold bind, query.
    destruct (faults 1%nat); [left; auto|]. simpl.
    destruct (faults 2%nat); [left; auto|].
    unfold insert_page_version.
    destruct (storable (p_blocks page)) eqn:Hstorable.
    2: { unfold storable in Hstorable.
         destruct (jsonb_param (p_blocks page)); [left; auto|discriminate|left; auto]. }
    rewrite (storable_stored _ Hstorable), or_zero_default, next_version_is_free.
    destruct (faults 3%nat); simpl.
    { right. right. left. exists page. auto. }
    rewrite update_page_eq.
    destruct (negb (accepts (body_blocks req) && accepts (body_seo_settings req))); simpl.
    { right. right. left. exists page. auto. }
    unfold updated_pages. simpl. rewrite Hfound. simpl.
    destruct (existsb _ (pages db) && negb _); simpl.
    + right. right. left. exists page. auto.
    + right. right. right. exists page. auto.
Qed.

Lemma existing_page_found req db page :
  existing_page req db = Some page ->
  exists rest,
    filter (fun p => is_page (param_id req) (user_tenantId req) p = true) (pages db)
    = page :: rest.
Proof.
  unfold existing_page. destruct (filter _ _) as [|p rest]; [discriminate|].
  intros [= ->]. eauto.
Qed.

(** Once the three statements of the snapshot have gone through, the rest of
    the request is the [UPDATE] alone, on tables that hold the snapshot. *)
Lemma put_page_after_snapshot faults now req db page :
  existing_page req db = Some page ->
  storable (p_blocks page) = true ->
  snapshot_statements_succeed faults = true ->
  put_page faults now req db
  = if faults 3%nat then (with_snapshot now req page db, ServerError)
    else match update_page now req (with_snapshot now req page db) with
         | None => (with_snapshot now req page db, ServerError)
         | Some (db', []) => (db', NotFound)
         | Some (db', row :: _) => (db', Json row)
         end.
Proof.
  intros Hpage Hstorable Hok. apply existing_page_found in Hpage as [rest Hfound].
  unfold snapshot_statements_succeed in Hok.
  apply andb_true_iff in Hok as [Hok H2]. apply andb_true_iff in Hok as [H0 H1].
  apply negb_true_iff in H0, H1, H2.
  unfold put_page, put_page_body, bind, query, select_page_blocks.
  rewrite H0, Hfound. simpl. unfold bind, query. rewrite H1. simpl. rewrite H2.
  unfold insert_page_version.
  rewrite (storable_stored _ Hstorable), or_zero_default, next_version_is_free.
  fold (expected_version now req page db). fold (with_snapshot now req page db).
  destruct (faults 3%nat); [reflexivity|].
  destruct (update_page now req (with_snapshot now req page db)) as [[db' rows]|];
    [|reflexivity].
  now destruct rows.
Qed.

Lemma put_page_saves_snapshot faults now req db page :
  existing_page req db = Some page ->
  storable (p_blocks page) = true ->
  snapshot_statements_succeed faults = true ->
  page_versions (fst (put_page faults now req db))
  = page_versions db ++ [expected_version now req page db].
Proof.
  intros Hpage Hstorable Hok.
  rewrite (put_page_after_snapshot _ _ _ _ _ Hpage Hstorable Hok).
  destruct (faults 3%nat); [reflexivity|].
  rewrite update_page_eq. destruct (negb _); [reflexivity|].
  destruct (_ && _); [reflexivity|].
  now destruct (map _ _).
Qed.

(** The store rejects the snapshot of a list that holds a block. *)
Lemma put_page_rejects_block_list faults now req db page first rest :
  existing_page req db = Some page ->
  p_blocks page = VArr (first :: rest) ->
  put_page faults now req db = (db, ServerError).
Proof.
  intros Hpage Hblocks. apply existing_page_found in Hpage as [others Hfound].
  unfold put_page, put_page_body, bind, query, select_page_blocks.
  destruct (faults 0%nat); [reflexivity|]. rewrite Hfound. simpl.
  unfold bind, query. destruct (faults 1%nat); [reflexivity|]. simpl.
  destruct (faults 2%nat); [reflexivity|].
  unfold insert_page_version. now rewrite Hblocks.
Qed.

Lemma existing_page_exists req db id tenantId :
  addresses req id tenantId = true ->
  existsb (is_page id tenantId) (pages db) = true ->
  exists page, existing_page req db = Some page.
Proof.
  unfold addresses. intros Haddr Hex.
  apply andb_true_iff in Haddr as [Hid Hten].
  apply Z.eqb_eq in Hid, Hten. subst id tenantId.
  unfold existing_page.
  destruct (filter _ (pages db)) as [|page rest] eqn:Hfound; [|simpl; eauto].
  apply no_hit_existsb in Hfound. congruence.
Qed.

Lemma existing_page_is_page req db page :
  existing_page req db = Some page ->
  page ∈ pages db /\ is_page (param_id req) (user_tenantId req) page = true.
Proof.
  intros H. apply existing_page_found in H as [rest Hfound].
  assert (Hin : page ∈ filter (fun p => is_page (param_id req) (user_tenantId req) p = true)
                              (pages db)) by (rewrite Hfound; left).
  apply list_elem_of_filter in Hin. tauto.
Qed.

Lemma existsb_updated_pages now req db id tenantId :
  existsb (is_page id tenantId) (updated_pages now req db)
  = existsb (is_page id tenantId) (pages db).
Proof.
  unfold updated_pages. induction (pages db) as [|p rest IH]; [reflexivity|].
  simpl. rewrite IH. f_equal.
  now destruct (is_page (param_id req) (user_tenantId req) p).
Qed.

(** The pages after a request: as they were, or those of the [UPDATE]. *)
Lemma put_page_pages_cases faults now req db :
  pages (fst (put_page faults now req db)) = pages db
  \/ pages (fst (put_page faults now req db)) = updated_pages now req db.
Proof.
  destruct (put_page_outcomes faults now req db)
    as [(-> & _)|[(_ & Hp & _)|[(page & _ & _ & Hp & _)|(page & _ & _ & Hp & _)]]];
    auto.
Qed.

(** A request never removes a page row, nor changes whose page it is. *)
Lemma put_page_keeps_pages faults now req db id tenantId :
  existsb (is_page id tenantId) (pages (fst (put_page faults now req db)))
  = existsb (is_page id tenantId) (pages db).
Proof.
  destruct (put_page_pages_cases faults now req db) as [->| ->];
    [reflexivity|apply existsb_updated_pages].
Qed.

(** Nor does it put into a page blocks that the store would not take back. *)
Lemma put_page_keeps_storable faults now req db id tenantId :
  snapshots_storable id tenantId db = true ->
  snapshots_storable id tenantId (fst (put_page faults now req db)) = true.
Proof.
  unfold snapshots_storable. intros Hdb.
  destruct (put_page_pages_cases faults now req db) as [->| ->]; [assumption|].
  unfold updated_pages. rewrite forallb_forall in Hdb. apply forallb_forall.
  intros q Hq. apply in_map_iff in Hq as (p & <- & Hp). specialize (Hdb p Hp).
  destruct (is_page (param_id req) (user_tenantId req) p); [|assumption].
  change (is_page id tenantId (updated_row now req p)) with (is_page id tenantId p).
  destruct (is_page id tenantId p); [|reflexivity]. simpl in *.
  now apply coalesce_jsonb_storable.
Qed.

Lemma versions_of_snapshot now req page db id :
  param_id req = id ->
  versions_of id (with_snapshot now req page db)
  = versions_of id db ++ [expected_version now req page db].
Proof.
  intros <-. unfold versions_of, with_snapshot. simpl.
  rewrite filter_app. f_equal. rewrite filter_cons. simpl.
  rewrite Z.eqb_refl. now case_decide.
Qed.

(** One request for an existing page whose blocks the store takes adds one
    version of that page, numbered one above the largest there was. *)
Lemma version_step faults now req db id tenantId :
  existsb (is_page id tenantId) (pages db) = true ->
  snapshots_storable id tenantId db = true ->
  addresses req id tenantId = true ->
  snapshot_statements_succeed faults = true ->
  existsb (is_page id tenantId) (pages (fst (put_page faults now req db))) = true
  /\ snapshots_storable id tenantId (fst (put_page faults now req db)) = true
  /\ map pv_version_number (versions_of id (fst (put_page faults now req db)))
     = map pv_version_number (versions_of id db)
       ++ [default 0 (sql_max (map pv_version_number (versions_of id db))) + 1].
Proof.
  intros Hex Hstorable Haddr Hok.
  split; [now rewrite put_page_keeps_pages|].
  split; [now apply put_page_keeps_storable|].
  destruct (existing_page_exists _ _ _ _ Haddr Hex) as [page Hpage].
  apply andb_true_iff in Haddr as [Hid Hten]. apply Z.eqb_eq in Hid, Hten.
  assert (Hblocks : storable (p_blocks page) = true).
  { destruct (existing_page_is_page _ _ _ Hpage) as [Hin Hhit].
    unfold snapshots_storable in Hstorable. rewrite forallb_forall in Hstorable.
    apply list_elem_of_In, Hstorable in Hin. rewrite <- Hid, <- Hten, Hhit in Hin.
    exact Hin. }
  pose proof (put_page_saves_snapshot _ now _ _ _ Hpage Hblocks Hok) as Hsaved.
  pose proof (versions_of_snapshot now req page db id Hid) as Hof.
  unfold versions_of in *. simpl in Hof. rewrite Hsaved, Hof, map_app.
  simpl. now rewrite Hid.
Qed.

(** C8: the handler binds the blocks of the page to the [JSONB] column as
    the JavaScript value they are, where the code that seeds pages
    serializes them first.  For a page that holds a list with a block in it,
    the store rejects the insert of the snapshot: every update request
    answers 500 and neither inserts a version nor updates the page.  For a
    page that holds the empty list, the version inserted holds the empty
    object in place of the list.  A version numbered one above the largest,
    attributed to the editor, is inserted when the store takes the blocks;
    none is inserted when the page has no row. *)
Theorem block_list_snapshot_is_rejected :
  (forall faults now req db page first rest,
     existing_page req db = Some page ->
     p_blocks page = VArr (first :: rest) ->
     put_page faults now req db = (db, ServerError))
  /\ (forall faults now req db page,
        existing_page req db = Some page ->
        p_blocks page = VArr [] ->
        snapshot_statements_succeed faults = true ->
        page_versions (fst (put_page faults now req db))
        = page_versions db
          ++ [{| pv_page_id := param_id req;
                 pv_version_number :=
                   default 0 (sql_max (map pv_version_number
                                         (versions_of (param_id req) db))) + 1;
                 pv_blocks := VObj [];
                 pv_created_at := now;
                 pv_created_by := user_userId req |}]
        /\ page_versions (fst (put_page faults now req db))
           <> page_versions db ++ [asked_version now req page db])
  /\ (forall faults now req db page,
        existing_page req db = Some page ->
        storable (p_blocks page) = true ->
        snapshot_statements_succeed faults = true ->
        page_versions (fst (put_page faults now req db))
        = page_versions db ++ [expected_version now req page db])
  /\ (forall faults now req db,
        existing_page req db = None ->
        page_versions (fst (put_page faults now req db)) = page_versions db).
Proof.
  split; [|split; [|split]].
  - intros faults now req db page first rest.
    apply put_page_rejects_block_list.
  - intros faults now req db page Hpage Hblocks Hok.
    assert (Hstorable : storable (p_blocks page) = true) by now rewrite Hblocks.
    rewrite (put_page_saves_snapshot _ _ _ _ _ Hpage Hstorable Hok).
    unfold expected_version, asked_version. rewrite Hblocks. simpl.
    split; [reflexivity|]. intros Hsame. apply app_inj_tail in Hsame as [_ Hrow].
    discriminate Hrow.
  - intros faults now req db page. apply put_page_saves_snapshot.
  - intros faults now req db Hnone.
    destruct (put_page_outcomes faults now req db)
      as [(-> & _)|[(_ & _ & Hv & _)|[(page & Hp & _)|(page & Hp & _)]]];
      congruence.
Qed.

Lemma block_list_snapshot_is_rejected_witness :
  p_blocks home_page = VArr [VObj [("type", VStr "hero"); ("config", VObj [])]]
  /\ put_page no_faults 100 (set_blocks 1 (VArr [])) site = (site, ServerError)
  /\ p_blocks about_page = VArr []
  /\ page_versions (fst (put_page no_faults 100 (set_blocks 2 (VArr [])) site))
     = [{| pv_page_id := 2; pv_version_number := 1; pv_blocks := VObj [];
           pv_created_at := 100; pv_created_by := 7 |}]
  /\ page_versions (fst (put_page no_faults 100 (set_blocks 5 (VArr [])) site)) = [].
Proof.
  destruct block_list_snapshot_is_rejected as (Hlist & Hempty & _ & Hnone).
  split; [reflexivity|]. split.
  { apply (Hlist no_faults 100 (set_blocks 1 (VArr [])) site home_page
             (VObj [("type", VStr "hero"); ("config", VObj [])]) []); reflexivity. }
  split; [reflexivity|]. split.
  - apply (Hempty no_faults 100 (set_blocks 2 (VArr [])) site about_page); reflexivity.
  - apply (Hnone no_faults 100 (set_blocks 5 (VArr [])) site). reflexivity.
Defined.

Lemma app_singleton_neq {A} (l : list A) (x : A) : l ++ [x] <> l.
Proof.
  intros H. apply (f_equal length) in H. rewrite length_app in H. simpl in H. lia.
Qed.

Lemma expected_version_snapshot now req page db :
  snapshot_row now req db (expected_version now req page db) = true.
Proof.
  unfold snapshot_row, expected_version. simpl. now rewrite !Z.eqb_refl.
Qed.

(** C9, as stated: the insert of the snapshot and the update of the page
    are not atomic as a unit.  Renaming page 2, which holds no block, to the
    slug of page 1 makes the [UPDATE] violate [UNIQUE(tenant_id, slug)] after
    the snapshot has been inserted: the request answers 500, the page is
    unchanged, and the [page_versions] row stays. *)
Lemma failed_update_leaves_orphan_version :
  put_page no_faults 100 rename_about_to_home site
  = ({| pages := pages site;
        page_versions :=
          [{| pv_page_id := 2; pv_version_number := 1; pv_blocks := VObj [];
              pv_created_at := 100; pv_created_by := 7 |}] |},
     ServerError)
  /\ page_versions site = [].
Proof. split; reflexivity. Qed.

(** C9, amended: the snapshot is inserted before the page is updated, each
    as a statement of its own and not as one transaction.  The page row is
    never changed without a version row of the request (the id of the page,
    the next version number, the editor) having been inserted; a request
    that answers with the updated row has done both; when no version row is
    inserted the page is not updated either.  When the store has taken the
    snapshot and the [UPDATE] is then rejected, for a reason of its own or
    because the new slug is taken, the request answers 500, the page is
    unchanged and the [page_versions] row stays.  What the row holds as
    blocks is left out. *)
Theorem snapshot_precedes_update faults now req db :
  let after := fst (put_page faults now req db) in
  let answer := snd (put_page faults now req db) in
  (pages after <> pages db ->
   exists version,
     snapshot_row now req db version = true
     /\ page_versions after = page_versions db ++ [version])
  /\ (forall row,
        answer = Json row ->
        row ∈ pages after
        /\ is_page (param_id req) (user_tenantId req) row = true
        /\ exists version,
             snapshot_row now req db version = true
             /\ page_versions after = page_versions db ++ [version])
  /\ (page_versions after = page_versions db -> pages after = pages db)
  /\ (forall page,
        existing_page req db = Some page ->
        storable (p_blocks page) = true ->
        snapshot_statements_succeed faults = true ->
        faults 3%nat || negb (slugs_unique (updated_pages now req db)) = true ->
        pages after = pages db
        /\ (exists version,
              snapshot_row now req db version = true
              /\ page_versions after = page_versions db ++ [version])
        /\ answer = ServerError).
Proof.
  intros after answer. subst after answer.
  split; [|split; [|split]].
  - intros Hchanged.
    destruct (put_page_outcomes faults now req db)
      as [(Hdb & _)|[(_ & Hp & _)|[(page & _ & _ & Hp & _)|(page & _ & _ & _ & Hv & _)]]];
      try congruence.
    exists (expected_version now req page db).
    split; [apply expected_version_snapshot|exact Hv].
  - intros row Hrow.
    destruct (put_page_outcomes faults now req db)
      as [(_ & Ha)|[(_ & _ & _ & Ha)|[(page & _ & _ & _ & _ & Ha)
                                     |(page & Hpage & _ & Hp & Hv & Ha)]]];
      try congruence.
    rewrite Ha in Hrow. injection Hrow as <-.
    destruct (existing_page_is_page _ _ _ Hpage) as [Hin Hhit].
    split; [|split].
    + rewrite Hp. unfold updated_pages. apply list_elem_of_fmap.
      exists page. now rewrite Hhit.
    + exact Hhit.
    + exists (expected_version now req page db).
      split; [apply expected_version_snapshot|exact Hv].
  - intros Hsame.
    destruct (put_page_outcomes faults now req db)
      as [(-> & _)|[(_ & Hp & _)|[(page & _ & _ & _ & Hv & _)|(page & _ & _ & _ & Hv & _)]]];
      try assumption; try reflexivity;
      rewrite Hv in Hsame; now apply app_singleton_neq in Hsame.
  - intros page Hpage Hstorable Hok Hrejected.
    rewrite (put_page_after_snapshot _ _ _ _ _ Hpage Hstorable Hok).
    assert (Hnone : faults 3%nat = false ->
                    update_page now req (with_snapshot now req page db) = None).
    { intros Hf3. rewrite Hf3 in Hrejected. simpl in Hrejected.
      rewrite update_page_eq. destruct (negb (accepts _ && accepts _)); [reflexivity|].
      destruct (existing_page_is_page _ _ _ Hpage) as [Hin Hhit].
      assert (Hex : existsb (is_page (param_id req) (user_tenantId req)) (pages db) = true).
      { apply existsb_exists. exists page. split; [now apply list_elem_of_In|exact Hhit]. }
      unfold with_snapshot, updated_pages in *. simpl. now rewrite Hex, Hrejected. }
    destruct (faults 3%nat); [|rewrite (Hnone eq_refl)]; simpl;
      (split; [reflexivity|]);
      (split; [|reflexivity]);
      exists (expected_version now req page db);
      (split; [apply expected_version_snapshot|reflexivity]).
Qed.

Lemma snapshot_precedes_update_witness :
  pages (fst (put_page no_faults 100 rename_about_to_home site)) = pages site
  /\ (exists version,
        snapshot_row 100 rename_about_to_home site version = true
        /\ page_versions (fst (put_page no_faults 100 rename_about_to_home site))
           = page_versions site ++ [version])
  /\ snd (put_page no_faults 100 rename_about_to_home site) = ServerError.
Proof.
  destruct (snapshot_precedes_update no_faults 100 rename_about_to_home site)
    as (_ & _ & _ & Horphan).
  apply (Horphan about_page); reflexivity.
Defined.

(** * Further properties *)

(** ** escapeHtml *)

Ltac escape_cases c :=
  unfold escape_char, special, markup, quot in *;
  destruct (Ascii.eqb_spec c "&"%char); [subst c|];
  [|destruct (Ascii.eqb_spec c "<"%char); [subst c|];
    [|destruct (Ascii.eqb_spec c ">"%char); [subst c|];
      [|destruct (Ascii.eqb_spec c "034"%char); [subst c|];
        [|destruct (Ascii.eqb_spec c "'"%char); [subst c|]]]]].

Lemma contains_append p (s t : string) :
  contains p (s +:+ t) = contains p s || contains p t.
Proof.
  induction s as [|c s IH]; [reflexivity|].
  rewrite append_cons. simpl. now rewrite IH, orb_assoc.
Qed.

Lemma escape_char_markup c : contains markup (escape_char c) = false.
Proof.
  escape_cases c; try reflexivity. simpl.
  repeat match goal with
         | H : ?x <> ?y |- _ => apply Ascii.eqb_neq in H; rewrite H; clear H
         end.
  reflexivity.
Qed.

Lemma escapeHtml_markup (text : string) : contains markup (escapeHtml text) = false.
Proof.
  induction text as [|c rest IH]; [reflexivity|]. simpl.
  now rewrite contains_append, escape_char_markup, IH.
Qed.

Lemma escape_char_special c : contains special (escape_char c) = special c.
Proof.
  escape_cases c; try reflexivity. simpl.
  repeat match goal with
         | H : ?x <> ?y |- _ => apply Ascii.eqb_neq in H; rewrite H; clear H
         end.
  reflexivity.
Qed.

Lemma escapeHtml_special (text : string) :
  contains special (escapeHtml text) = contains special text.
Proof.
  induction text as [|c rest IH]; [reflexivity|]. simpl.
  now rewrite contains_append, escape_char_special, IH.
Qed.

Lemma escape_char_plain c : special c = false -> escape_char c = String c "".
Proof.
  intros H. escape_cases c; try discriminate. reflexivity.
Qed.

Lemma escapeHtml_append (s t : string) :
  escapeHtml (s +:+ t) = escapeHtml s +:+ escapeHtml t.
Proof.
  induction s as [|c s IH]; [reflexivity|].
  rewrite append_cons. simpl. now rewrite IH, append_assoc.
Qed.

Lemma length_append (s t : string) :
  String.length (s +:+ t) = (String.length s + String.length t)%nat.
Proof.
  induction s as [|c s IH]; [reflexivity|]. rewrite append_cons. simpl. now rewrite IH.
Qed.

Lemma escape_char_length c : (1 <= String.length (escape_char c))%nat.
Proof. escape_cases c; simpl; lia. Qed.

Lemma escapeHtml_length (text : string) :
  (String.length text <= String.length (escapeHtml text))%nat.
Proof.
  induction text as [|c rest IH]; [reflexivity|]. simpl.
  rewrite length_append. pose proof (escape_char_length c). lia.
Qed.

Lemma escapeHtml_plain (text : string) :
  contains special text = false -> escapeHtml text = text.
Proof.
  induction text as [|c rest IH]; [reflexivity|]. simpl. intros H.
  apply orb_false_iff in H as [Hc Hrest].
  now rewrite (escape_char_plain c Hc), IH.
Qed.

Lemma escapeHtml_fixed (text : string) :
  escapeHtml text = text -> contains special text = false.
Proof.
  induction text as [|c rest IH]; [reflexivity|]. simpl. intros H.
  destruct (special c) eqn:Hc.
  - exfalso. pose proof (escapeHtml_length rest) as Hlen.
    apply (f_equal String.length) in H. rewrite length_append in H. simpl in H.
    assert (2 <= String.length (escape_char c))%nat; [|lia].
    clear H Hlen. escape_cases c; simpl; try lia; discriminate.
  - rewrite (escape_char_plain c Hc) in H. rewrite append_cons, append_nil_l in H.
    injection H as H. now apply IH.
Qed.

Lemma escapeHtml_injective (s : string) : forall t,
  escapeHtml s = escapeHtml t -> s = t.
Proof.
  induction s as [|c s IH]; intros [|d t] H; simpl in H.
  - reflexivity.
  - exfalso. apply (f_equal String.length) in H. rewrite length_append in H.
    pose proof (escape_char_length d). simpl in H. lia.
  - exfalso. apply (f_equal String.length) in H. rewrite length_append in H.
    pose proof (escape_char_length c). simpl in H. lia.
  - escape_cases c; escape_cases d;
      rewrite ?append_cons, ?append_nil_l in H;
      try (injection H as H); try congruence;
      try (f_equal; now apply IH);
      repeat match goal with
             | E : _ = _ |- _ => try discriminate E; try (injection E as E)
             end;
      try congruence; try (f_equal; now apply IH);
      try (f_equal; [congruence | now apply IH]).
Qed.

(** X1: the text [escapeHtml] returns holds no angle bracket, no double
    quote and no apostrophe, whatever the input. *)
Theorem escapeHtml_leaves_no_markup (text : string) :
  contains markup (escapeHtml text) = false.
Proof. apply escapeHtml_markup. Qed.

(** X2: [escapeHtml] loses nothing: two different texts never escape to the
    same text. *)
Theorem escapeHtml_is_injective (s t : string) :
  escapeHtml s = escapeHtml t -> s = t.
Proof. apply escapeHtml_injective. Qed.

Lemma escapeHtml_is_injective_witness :
  "a<b" = "a<b".
Proof. apply (escapeHtml_is_injective "a<b" "a<b"). reflexivity. Defined.

(** X3: escaping a concatenation is concatenating the escaped parts. *)
Theorem escapeHtml_of_concatenation (s t : string) :
  escapeHtml (s +:+ t) = escapeHtml s +:+ escapeHtml t.
Proof. apply escapeHtml_append. Qed.

(** X4: [escapeHtml] returns its input unchanged exactly when the input has
    none of the five characters; so it is not idempotent: escaping an
    escaped text changes it again unless the text had none of them. *)
Theorem escapeHtml_fixed_points (text : string) :
  (escapeHtml text = text <-> contains special text = false)
  /\ (escapeHtml (escapeHtml text) = escapeHtml text
      <-> contains special text = false).
Proof.
  split; split.
  - apply escapeHtml_fixed.
  - apply escapeHtml_plain.
  - intros H. apply escapeHtml_fixed in H. now rewrite escapeHtml_special in H.
  - intros H. apply escapeHtml_plain. now rewrite escapeHtml_special.
Qed.

Lemma escapeHtml_fixed_points_witness :
  escapeHtml "plain text 100%" = "plain text 100%"
  /\ contains special "Tom & Jerry" = true.
Proof.
  split.
  - apply (proj1 (escapeHtml_fixed_points "plain text 100%")). reflexivity.
  - destruct (contains special "Tom & Jerry") eqn:H; [reflexivity|].
    apply (proj1 (escapeHtml_fixed_points "Tom & Jerry")) in H. discriminate H.
Defined.

(** ** What escapeBlockConfig returns *)

Lemma markup_free_object members :
  markup_free (VObj members) = forallb member_free members.
Proof. reflexivity. Qed.

Lemma set_member_free key v (members : list (string * value)) :
  forallb member_free members = true ->
  member_free (key, v) = true ->
  forallb member_free (set_member key v members) = true.
Proof.
  intros Hall Hnew. induction members as [|[k w] rest IH]; simpl.
  - now rewrite Hnew.
  - simpl in Hall. apply andb_true_iff in Hall as [Hk Hrest].
    destruct (String.eqb_spec k key) as [->|_]; simpl.
    + now rewrite Hnew, Hrest.
    + now rewrite Hk, IH.
Qed.

Lemma escape_entries_free rec (entries : list (string * value)) : forall escaped,
  Forall (fun kv => member_free (fst kv, escape_field rec (fst kv) (snd kv)) = true)
         entries ->
  forallb member_free escaped = true ->
  forallb member_free (escape_entries rec entries escaped) = true.
Proof.
  induction entries as [|[key v] rest IH]; intros escaped Hall Hacc; simpl;
    [assumption|].
  inversion Hall as [|? ? Hhead Htail]; subst.
  apply IH; [assumption|]. now apply set_member_free.
Qed.

Lemma array_entries_Forall (Q : string -> value -> Prop) (items : list value) :
  Forall (fun item => forall key, Q key item) items ->
  forall i, Forall (fun kv => Q (fst kv) (snd kv)) (array_entries i items).
Proof.
  induction 1 as [|item rest Hitem _ IH]; intros i; simpl; constructor; auto.
Qed.

(** Both what [escapeBlockConfig] returns for a value that is not a string
    and what it stores for a member holding the value are free of markup. *)
Lemma escape_rules_free (v : value) :
  (is_string v = false -> markup_free (escapeBlockConfig v) = true)
  /\ (forall key, member_free (key, escape_field escapeBlockConfig key v) = true).
Proof.
  induction v as [| |b|n|s|items IH|members IH] using value_induction;
    try (split; [reflexivity | intros key; unfold member_free; apply orb_true_r]).
  - (* strings *)
    split; [discriminate|]. intros key. unfold member_free.
    cbn [escape_field fst snd]. destruct (String.eqb key "content"); [reflexivity|].
    cbn [is_string andb orb markup_free]. now rewrite escapeHtml_markup.
  - (* arrays *)
    split.
    + intros _. cbn [escapeBlockConfig].
      rewrite escape_array_entries_eq, markup_free_object.
      apply escape_entries_free; [|reflexivity].
      apply (array_entries_Forall
               (fun key item =>
                  member_free (key, escape_field escapeBlockConfig key item) = true)).
      apply Forall_forall. intros item Hin key.
      rewrite Forall_forall in IH. now apply IH.
    + intros key. unfold member_free.
      cbn [escape_field fst snd is_string]. rewrite andb_false_r.
      cbn [orb markup_free].
      induction IH as [|item rest [Hitem _] _ IHrest]; [reflexivity|].
      cbn [map forallb]. rewrite IHrest, andb_true_r.
      unfold escape_item. destruct (js_type_eqb (typeof item) TObject) eqn:Htype.
      * apply Hitem. now destruct item.
      * cbn [markup_free]. now rewrite escapeHtml_markup.
  - (* objects *)
    assert (Hobj : markup_free (escapeBlockConfig (VObj members)) = true).
    { cbn [escapeBlockConfig]. rewrite markup_free_object.
      apply escape_entries_free; [|reflexivity].
      apply Forall_forall. intros kv Hin. rewrite Forall_forall in IH.
      now apply IH. }
    split; [intros _; exact Hobj|].
    intros key. unfold member_free. cbn [escape_field fst snd].
    rewrite Hobj. apply orb_true_r.
Qed.

(** X5: whatever the config, unless it is itself a string, no string of
    the sanitized config holds an angle bracket, a double quote or an
    apostrophe, except the strings stored directly under a key [content]. *)
Theorem escapeBlockConfig_leaves_no_markup (config : value) :
  is_string config = false ->
  markup_free (escapeBlockConfig config) = true.
Proof. apply escape_rules_free. Qed.

Lemma escapeBlockConfig_leaves_no_markup_witness :
  markup_free
    (escapeBlockConfig
       (VObj [("title", VStr "<img src=x onerror='go()'>");
              ("content", VStr "<p>kept</p>");
              ("rows", VArr [VArr [VStr "<i>"; VNull];
                             VObj [("alt", VStr "'");
                                   ("content", VArr [VStr "<b>"])]])]))
  = true.
Proof. apply escapeBlockConfig_leaves_no_markup. reflexivity. Defined.

(** X6: for an object or an array whose member names are distinct and none
    [__proto__], at every depth, the sanitized config has the members of the
    input, under the same names and in the same order (the indices, for an
    array), and no other. *)
Theorem escapeBlockConfig_keeps_names (config : value) :
  wf_value config = true ->
  not_an_object config = false ->
  map fst (members_of (escapeBlockConfig config)) = map fst (Object_entries config).
Proof.
  intros Hwf Hv. rewrite (escapeBlockConfig_container config Hwf Hv).
  cbn [members_of]. rewrite map_map. reflexivity.
Qed.

Lemma escapeBlockConfig_keeps_names_witness :
  map fst (members_of (escapeBlockConfig (config gallery_block)))
  = ["columns"; "images"].
Proof.
  rewrite (escapeBlockConfig_keeps_names (config gallery_block)); reflexivity.
Defined.

Lemma get_member_set_same (key : string) v (members : list (string * value)) :
  get_member key (set_member key v members) = v.
Proof.
  induction members as [|[k w] rest IH]; simpl.
  - now rewrite String.eqb_refl.
  - destruct (String.eqb_spec k key) as [->|Hne]; simpl.
    + now rewrite String.eqb_refl.
    + destruct (String.eqb_spec k key); [congruence | exact IH].
Qed.

(** X7: the scope of a block whose config is an object or an array always
    holds the calendar year under [year] and the serialized original config
    under [jsonConfig], whatever the config itself holds under these two
    names. *)
Theorem render_scope_synthesized (year : Z) (config : value) :
  not_an_object config = false ->
  exists members,
    render_scope year config = Some (VObj members)
    /\ get_member "year" members = VNum year
    /\ get_member "jsonConfig" members = JSON_stringify config.
Proof.
  intros Hv. unfold render_scope.
  destruct config as [| |b|n|s|items|members]; try discriminate;
    cbn [escapeBlockConfig set_property mbind option_bind];
    eexists; (split; [reflexivity|]); split;
    rewrite ?get_member_set_same; try reflexivity;
    rewrite get_member_set_other by discriminate; apply get_member_set_same.
Qed.

Lemma render_scope_synthesized_witness :
  exists members,
    render_scope 2026 (config footer_block) = Some (VObj members)
    /\ get_member "year" members = VNum 2026
    /\ get_member "jsonConfig" members = JSON_stringify (config footer_block).
Proof. apply render_scope_synthesized. reflexivity. Defined.

(** ** renderBlocks on raw values and the preview route *)

Lemma render_value_loop templates year (items : list value) : forall html,
  foldl (fun html block =>
           html ← html; b ← destructure_block block;
           Some (html +:+ render_block templates year b)) html items
  = html ← html; bs ← mapM destructure_block items;
    Some (html +:+ render_with templates year bs).
Proof.
  induction items as [|item rest IH]; intros html; simpl.
  - destruct html as [h|]; simpl; [|reflexivity].
    unfold render_with. simpl. now rewrite append_nil_r.
  - rewrite IH. destruct html as [h|]; simpl; [|reflexivity].
    destruct (destructure_block item) as [b|]; simpl; [|reflexivity].
    destruct (mapM destructure_block rest) as [bs|]; simpl; [|reflexivity].
    now rewrite render_with_cons, append_assoc.
Qed.

Lemma renderBlocks_value_array query_fails block_types year items :
  renderBlocks_value query_fails block_types year (VArr items)
  = if query_fails then None
    else bs ← mapM destructure_block items; Some (renderBlocks block_types year bs).
Proof.
  unfold renderBlocks_value. destruct query_fails; [reflexivity|].
  rewrite render_value_loop. simpl.
  now destruct (mapM destructure_block items).
Qed.

Lemma mapM_destructure_middle front bad back :
  destructure_block bad = None ->
  mapM destructure_block (front ++ bad :: back) = None.
Proof.
  intros Hbad. destruct (mapM destructure_block (front ++ bad :: back)) as [bs|] eqn:H;
    [|reflexivity].
  apply mapM_Some_1 in H. apply Forall2_app_inv_l in H as (b1 & b2 & _ & H & _).
  inversion H as [|? b ? ? Hb]; subst. congruence.
Qed.

(** X8: handed anything but an array, [renderBlocks] returns the empty
    string, before any query; handed an array whose elements are neither
    [null] nor [undefined], it returns the fragments of the elements, read as
    blocks, in order. *)
Theorem renderBlocks_value_cases query_fails block_types year :
  (forall blocks,
     Array_isArray blocks = false ->
     renderBlocks_value query_fails block_types year blocks = Some "")
  /\ (forall items bs,
        mapM destructure_block items = Some bs ->
        renderBlocks_value false block_types year (VArr items)
        = Some (renderBlocks block_types year bs)).
Proof.
  split.
  - intros blocks Hb. now destruct blocks.
  - intros items bs Hbs. now rewrite renderBlocks_value_array, Hbs.
Qed.

Lemma renderBlocks_value_cases_witness :
  renderBlocks_value true block_types_example 2026 (VObj []) = Some ""
  /\ renderBlocks_value false block_types_example 2026
       (VArr [block_value hero_block; VObj [("config", VNum 1)]; block_value shop_block])
     = Some (renderBlocks block_types_example 2026
               [hero_block; {| type := "undefined"; config := VNum 1 |}; shop_block]).
Proof.
  destruct (renderBlocks_value_cases true block_types_example 2026) as [Hother _].
  destruct (renderBlocks_value_cases false block_types_example 2026) as [_ Harray].
  split; [now apply Hother | now apply Harray].
Defined.

(** X9: the preview route answers 400 exactly when [blocks] is not an
    array; one [null] or [undefined] element makes the whole rendering throw,
    and the route answer 500, whatever the other blocks are; otherwise, the
    query going through, it answers the HTML of the blocks. *)
Theorem post_render_cases query_fails block_types year :
  (forall blocks,
     post_render query_fails block_types year blocks = RenderBadRequest
     <-> Array_isArray blocks = false)
  /\ (forall front bad back,
        destructure_block bad = None ->
        renderBlocks_value query_fails block_types year (VArr (front ++ bad :: back))
        = None
        /\ post_render query_fails block_types year (VArr (front ++ bad :: back))
           = RenderFailed)
  /\ (forall items bs,
        query_fails = false ->
        mapM destructure_block items = Some bs ->
        post_render query_fails block_types year (VArr items)
        = RenderOk (renderBlocks block_types year bs)).
Proof.
  split; [|split].
  - intros blocks. unfold post_render.
    destruct (Array_isArray blocks); simpl; [|split; reflexivity].
    split; [|discriminate]. now destruct (renderBlocks_value _ _ _ _).
  - intros front bad back Hbad.
    assert (Hnone : renderBlocks_value query_fails block_types year
                      (VArr (front ++ bad :: back)) = None).
    { rewrite renderBlocks_value_array, (mapM_destructure_middle _ _ _ Hbad).
      now destruct query_fails. }
    split; [exact Hnone|]. unfold post_render. now rewrite Hnone.
  - intros items bs -> Hbs. unfold post_render.
    now rewrite renderBlocks_value_array, Hbs.
Qed.

Lemma post_render_cases_witness :
  post_render false block_types_example 2026 (VStr "[]") = RenderBadRequest
  /\ post_render false block_types_example 2026
       (VArr ([block_value hero_block] ++ VNull :: [block_value shop_block]))
     = RenderFailed
  /\ post_render false block_types_example 2026
       (VArr [block_value hero_block; block_value shop_block])
     = RenderOk (renderBlocks block_types_example 2026 [hero_block; shop_block]).
Proof.
  destruct (post_render_cases false block_types_example 2026) as (H400 & H500 & H200).
  split; [|split].
  - now apply H400.
  - now apply H500.
  - now apply H200.
Defined.

(** ** The storefront route *)

(** X10: when the storefront route serves a page, the page is a row of
    [pages] that is published, carries the requested slug and belongs to a
    tenant whose subdomain is the one given (the header if it is not empty,
    else the query parameter), and the HTML is what [renderBlocks] returns
    for its blocks. *)
Theorem storefront_serves_published_pages faults tenants block_types year req db sp :
  storefront_page faults tenants block_types year req db = Served sp ->
  exists subdomain tenant page,
    or_else (header_subdomain req) (query_subdomain req) = Some subdomain
    /\ subdomain <> ""
    /\ tenant ∈ tenants /\ t_subdomain tenant = subdomain
    /\ page ∈ pages db
    /\ p_tenant_id page = t_id tenant
    /\ p_slug page = param_slug req
    /\ p_is_published page = true
    /\ sp_title sp = p_title page /\ sp_slug sp = param_slug req
    /\ sp_storeName sp = t_store_name tenant
    /\ renderBlocks_value false block_types year (p_blocks page) = Some (sp_html sp).
Proof.
  unfold storefront_page. intros H.
  destruct (or_else _ _) as [subdomain|] eqn:Hsub; [|discriminate].
  destruct (String.eqb_spec subdomain ""); [discriminate|].
  destruct (faults 0%nat); [discriminate|].
  destruct (filter _ tenants) as [|tenant rest] eqn:Htenant; [discriminate|].
  destruct (faults 1%nat); [discriminate|].
  destruct (published_pages _ _ _) as [|page others] eqn:Hpage; [discriminate|].
  destruct (renderBlocks_value _ _ _ _) as [html|] eqn:Hhtml; [|discriminate].
  injection H as <-.
  assert (Ht : tenant ∈ filter (fun t => String.eqb (t_subdomain t) subdomain = true)
                               tenants) by (rewrite Htenant; left).
  apply list_elem_of_filter in Ht as [Hts Ht]. apply String.eqb_eq in Hts.
  assert (Hp : page ∈ published_pages (t_id tenant) (param_slug req) db)
    by (rewrite Hpage; left).
  unfold published_pages in Hp. apply list_elem_of_filter in Hp as [Hpp Hp].
  apply andb_true_iff in Hpp as [Hpp Hpub]. apply andb_true_iff in Hpp as [Hpt Hps].
  apply Z.eqb_eq in Hpt. apply String.eqb_eq in Hps.
  exists subdomain, tenant, page. simpl. repeat split; try assumption.
  destruct (faults 2%nat) eqn:Hf.
  - destruct (p_blocks page); simpl in Hhtml; try exact Hhtml. discriminate.
  - exact Hhtml.
Qed.

Lemma storefront_serves_published_pages_witness :
  exists subdomain tenant page,
    or_else (Some "shop") (Some "other") = Some subdomain
    /\ subdomain <> ""
    /\ tenant ∈ [shop_tenant; other_tenant] /\ t_subdomain tenant = subdomain
    /\ page ∈ pages storefront_db
    /\ p_tenant_id page = t_id tenant
    /\ p_slug page = "welcome"
    /\ p_is_published page = true
    /\ "Welcome" = p_title page /\ "welcome" = "welcome"
    /\ "The Shop" = t_store_name tenant
    /\ renderBlocks_value false block_types_example 2026 (p_blocks page)
       = Some (renderBlocks block_types_example 2026 [hero_block; shop_block]).
Proof.
  apply (storefront_serves_published_pages no_faults [shop_tenant; other_tenant]
           block_types_example 2026
           {| header_subdomain := Some "shop"; query_subdomain := Some "other";
              param_slug := "welcome" |}
           storefront_db
           {| sp_title := "Welcome"; sp_slug := "welcome";
              sp_meta_description := Some "Hi"; sp_seo_settings := VObj [];
              sp_html := renderBlocks block_types_example 2026 [hero_block; shop_block];
              sp_storeName := "The Shop" |}).
  reflexivity.
Defined.

(** ** The page handlers and the constraints of the tables *)

Lemma existsb_filter {A} (f : A -> bool) (P : A -> Prop) `{!forall x, Decision (P x)}
    (l : list A) :
  existsb f l = false -> existsb f (filter P l) = false.
Proof.
  induction l as [|a l IH]; [reflexivity|]. rewrite filter_cons. simpl.
  intros Hall. apply orb_false_iff in Hall as [Ha Hl].
  case_decide; simpl; [rewrite Ha|]; now apply IH.
Qed.

Lemma forallb_pointwise {A} (f g : A -> bool) (l : list A) :
  (forall a, f a = true -> g a = true) -> forallb f l = true -> forallb g l = true.
Proof.
  intros Hfg. induction l as [|a l IH]; [reflexivity|]. simpl.
  intros H. apply andb_true_iff in H as [Ha Hl].
  now rewrite (Hfg a Ha), IH.
Qed.

Lemma slugs_unique_snoc (rows : list page_row) (r : page_row) :
  slugs_unique (rows ++ [r])
  = slugs_unique rows
    && negb (existsb (fun q => (p_tenant_id q =? p_tenant_id r)
                               && String.eqb (p_slug q) (p_slug r)) rows).
Proof.
  induction rows as [|p rows IH]; [reflexivity|]. simpl.
  rewrite IH, existsb_app. simpl.
  rewrite (Z.eqb_sym (p_tenant_id r)), (String.eqb_sym (p_slug r)).
  destruct (p_tenant_id p =? p_tenant_id r), (String.eqb (p_slug p) (p_slug r));
    simpl; rewrite ?orb_false_r, ?orb_true_r; simpl;
    rewrite ?andb_false_r, ?andb_assoc; reflexivity.
Qed.

Lemma slugs_unique_filter (P : page_row -> Prop) `{!forall x, Decision (P x)}
    (rows : list page_row) :
  slugs_unique rows = true -> slugs_unique (filter P rows) = true.
Proof.
  induction rows as [|p rows IH]; [reflexivity|]. rewrite filter_cons. simpl.
  intros Hall. apply andb_true_iff in Hall as [Hp Hrows].
  case_decide; [|now apply IH]. simpl. rewrite (IH Hrows), andb_true_r.
  apply negb_true_iff in Hp. now rewrite (existsb_filter _ P rows Hp).
Qed.

Lemma versions_unique_snoc (rows : list page_version_row) (r : page_version_row) :
  versions_unique (rows ++ [r])
  = versions_unique rows
    && negb (existsb (fun w => (pv_page_id w =? pv_page_id r)
                               && (pv_version_number w =? pv_version_number r)) rows).
Proof.
  induction rows as [|v rows IH]; [reflexivity|]. simpl.
  rewrite IH, existsb_app. simpl.
  rewrite (Z.eqb_sym (pv_page_id r)), (Z.eqb_sym (pv_version_number r)).
  destruct (pv_page_id v =? pv_page_id r),
           (pv_version_number v =? pv_version_number r);
    simpl; rewrite ?orb_false_r, ?orb_true_r; simpl;
    rewrite ?andb_false_r, ?andb_assoc; reflexivity.
Qed.

Lemma versions_unique_filter (P : page_version_row -> Prop)
    `{!forall x, Decision (P x)} (rows : list page_version_row) :
  versions_unique rows = true -> versions_unique (filter P rows) = true.
Proof.
  induction rows as [|v rows IH]; [reflexivity|]. rewrite filter_cons. simpl.
  intros Hall. apply andb_true_iff in Hall as [Hv Hrows].
  case_decide; [|now apply IH]. simpl. rewrite (IH Hrows), andb_true_r.
  apply negb_true_iff in Hv. now rewrite (existsb_filter _ P rows Hv).
Qed.

Lemma hit_existsb (hit : page_row -> bool) (rows : list page_row) p rest :
  filter (fun p => hit p = true) rows = p :: rest -> existsb hit rows = true.
Proof.
  intros Hfound. destruct (existsb hit rows) eqn:Hex; [reflexivity|].
  assert (Hin : p ∈ filter (fun p => hit p = true) rows) by (rewrite Hfound; left).
  apply list_elem_of_filter in Hin as [Hp Hin].
  assert (existsb hit rows = true); [|congruence].
  apply existsb_exists. exists p. split; [now apply list_elem_of_In|assumption].
Qed.

(** The pages after a request: as they were, or updated under the
    constraint on slugs. *)
Lemma put_page_pages faults now req db :
  pages (fst (put_page faults now req db)) = pages db
  \/ (pages (fst (put_page faults now req db)) = updated_pages now req db
      /\ slugs_unique (updated_pages now req db) = true).
Proof.
  destruct (slugs_unique (updated_pages now req db)) eqn:Hu.
  - destruct (put_page_pages_cases faults now req db) as [->| ->]; auto.
  - left. unfold put_page, put_page_body, bind, query, select_page_blocks.
    destruct (faults 0%nat); [reflexivity|].
    destruct (filter _ (pages db)) as [|page rest] eqn:Hfound; simpl.
    + destruct (faults 3%nat); [reflexivity|].
      rewrite update_page_eq.
      destruct (negb (accepts (body_blocks req) && accepts (body_seo_settings req)));
        [reflexivity|].
      rewrite (no_hit_existsb _ _ Hfound), Hfound. simpl.
      unfold updated_pages. now apply no_hit_map.
    + unfold bind, query.
      destruct (faults 1%nat); [reflexivity|]. simpl.
      destruct (faults 2%nat); [reflexivity|].
      unfold insert_page_version.
      destruct (jsonb_param (p_blocks page)); [reflexivity| |reflexivity].
      rewrite or_zero_default, next_version_is_free.
      destruct (faults 3%nat); simpl; [reflexivity|].
      rewrite update_page_eq.
      destruct (negb (accepts (body_blocks req) && accepts (body_seo_settings req)));
        [reflexivity|].
      unfold updated_pages in *. simpl.
      rewrite (hit_existsb _ _ _ _ Hfound), Hu. reflexivity.
Qed.

Lemma updated_pages_keys now req db :
  map (fun p => (p_id p, p_tenant_id p)) (updated_pages now req db)
  = map (fun p => (p_id p, p_tenant_id p)) (pages db).
Proof.
  unfold updated_pages. induction (pages db) as [|p rest IH]; [reflexivity|].
  simpl. rewrite IH. now destruct (is_page _ _ p).
Qed.

Lemma updated_pages_lookup now req db (i : nat) p :
  pages db !! i = Some p ->
  is_page (param_id req) (user_tenantId req) p = false ->
  updated_pages now req db !! i = Some p.
Proof.
  unfold updated_pages. intros Hi Hp.
  rewrite list_lookup_fmap, Hi. simpl. now rewrite Hp.
Qed.

Lemma put_page_keys faults now req db :
  map (fun p => (p_id p, p_tenant_id p)) (pages (fst (put_page faults now req db)))
  = map (fun p => (p_id p, p_tenant_id p)) (pages db).
Proof.
  destruct (put_page_pages faults now req db) as [->|[-> _]];
    [reflexivity|apply updated_pages_keys].
Qed.

(** The versions after a request: as they were, or with the snapshot. *)
Lemma put_page_versions faults now req db :
  page_versions (fst (put_page faults now req db)) = page_versions db
  \/ exists page,
       existing_page req db = Some page
       /\ page_versions (fst (put_page faults now req db))
          = page_versions db ++ [expected_version now req page db].
Proof.
  destruct (put_page_outcomes faults now req db)
    as [(-> & _)|[(_ & _ & Hv & _)|[(page & Hp & _ & _ & Hv & _)
                                   |(page & Hp & _ & _ & Hv & _)]]];
    eauto.
Qed.

Lemma versions_of_other now req page db id :
  id <> param_id req ->
  filter (fun v => (pv_page_id v =? id) = true)
         (page_versions db ++ [expected_version now req page db])
  = versions_of id db.
Proof.
  intros Hid. unfold versions_of. rewrite filter_app, filter_cons. simpl.
  case_decide as H; [apply Z.eqb_eq in H; congruence|].
  now rewrite filter_nil, app_nil_r.
Qed.

Lemma existsb_page_id (x : Z) (rows rows' : list page_row) :
  map (fun p => (p_id p, p_tenant_id p)) rows
  = map (fun p => (p_id p, p_tenant_id p)) rows' ->
  existsb (fun p => p_id p =? x) rows = existsb (fun p => p_id p =? x) rows'.
Proof.
  revert rows'. induction rows as [|p rows IH]; intros [|q rows'] H;
    try discriminate; [reflexivity|].
  simpl in *. injection H as Hid _ Hrest. now rewrite Hid, (IH rows').
Qed.

Lemma put_page_slugs faults now req db :
  slugs_unique (pages db) = true ->
  slugs_unique (pages (fst (put_page faults now req db))) = true.
Proof.
  intros H. now destruct (put_page_pages faults now req db) as [->|[-> ?]].
Qed.

Lemma put_page_versions_unique faults now req db :
  versions_unique (page_versions db) = true ->
  versions_unique (page_versions (fst (put_page faults now req db))) = true.
Proof.
  intros H. destruct (put_page_versions faults now req db) as [->|(page & _ & ->)];
    [assumption|].
  rewrite versions_unique_snoc, H. unfold expected_version. simpl.
  now rewrite next_version_is_free.
Qed.

Lemma put_page_refer faults now req db :
  versions_refer_to_pages db = true ->
  versions_refer_to_pages (fst (put_page faults now req db)) = true.
Proof.
  unfold versions_refer_to_pages. intros H.
  pose proof (put_page_keys faults now req db) as Hkeys.
  assert (Hold : forallb (fun v => existsb (fun p => p_id p =? pv_page_id v)
                                     (pages (fst (put_page faults now req db))))
                         (page_versions db) = true).
  { revert H. apply forallb_pointwise. intros v Hv.
    now rewrite (existsb_page_id _ _ _ Hkeys). }
  destruct (put_page_versions faults now req db) as [->|(page & Hpage & ->)];
    [assumption|].
  rewrite forallb_app, Hold. simpl. rewrite andb_true_r.
  rewrite (existsb_page_id _ _ _ Hkeys).
  apply existing_page_is_page in Hpage as [Hin Hpage].
  apply existsb_exists. exists page. split; [now apply list_elem_of_In|].
  unfold is_page in Hpage. now apply andb_true_iff in Hpage as [? _].
Qed.

Lemma post_page_after fault now new_id req db :
  (fst (post_page fault now new_id req db) = db
   /\ is_created (snd (post_page fault now new_id req db)) = false)
  \/ exists blocks,
       truthy (post_slug req) = true /\ truthy (post_title req) = true
       /\ slug_format (to_String (post_slug req)) = true
       /\ jsonb_param (blocks_or_empty (post_blocks req)) = Stored blocks
       /\ existsb (fun q => (p_tenant_id q =? post_tenantId req)
                            && String.eqb (p_slug q) (pg_text (post_slug req)))
                  (pages db) = false
       /\ post_page fault now new_id req db
          = ({| pages :=
                  pages db ++ [created_row now new_id req (pg_text (post_slug req))
                                 (pg_text (post_title req)) blocks];
                page_versions := page_versions db |},
             Created (created_row now new_id req (pg_text (post_slug req))
                        (pg_text (post_title req)) blocks)).
Proof.
  unfold post_page.
  destruct (truthy (post_slug req)); simpl; [|now left].
  destruct (truthy (post_title req)); simpl; [|now left].
  destruct (slug_format (to_String (post_slug req))) eqn:Hformat; simpl; [|now left].
  destruct fault; [now left|].
  destruct (jsonb_param (blocks_or_empty (post_blocks req))) as [|blocks|] eqn:Hblocks;
    [now left| |now left].
  destruct (existsb _ (pages db)) eqn:Hex; [now left|].
  right. exists blocks. repeat split.
Qed.

Lemma post_page_consistent fault now new_id req db :
  consistent db = true -> consistent (fst (post_page fault now new_id req db)) = true.
Proof.
  intros H. destruct (post_page_after fault now new_id req db)
    as [[-> _]|(blocks & _ & _ & _ & _ & Hex & ->)]; [assumption|].
  unfold consistent, versions_refer_to_pages in *. simpl.
  apply andb_true_iff in H as [H Hrefer]. apply andb_true_iff in H as [Hslugs Hversions].
  rewrite slugs_unique_snoc, Hslugs, Hversions. simpl. rewrite Hex. simpl.
  revert Hrefer. apply forallb_pointwise. intros v Hv.
  now rewrite existsb_app, Hv.
Qed.

Lemma delete_pages_none id tenantId db :
  filter (fun p => is_page id tenantId p = true) (pages db) = [] ->
  fst (delete_pages id tenantId db) = db.
Proof.
  intros Hnone. unfold delete_pages. rewrite Hnone. simpl.
  destruct db as [ps vs]. simpl in *. f_equal.
  - clear vs. induction ps as [|p ps IH]; [reflexivity|].
    rewrite filter_cons in Hnone. rewrite filter_cons.
    destruct (is_page id tenantId p) eqn:Hp; repeat case_decide;
      try congruence; try discriminate. now rewrite IH.
  - induction vs as [|v vs IH]; [reflexivity|].
    rewrite filter_cons. case_decide as Hd; [now rewrite IH|now destruct Hd].
Qed.

Lemma delete_page_consistent fault id tenantId db :
  consistent db = true -> consistent (fst (delete_page fault id tenantId db)) = true.
Proof.
  intros H. unfold delete_page. destruct fault; [assumption|].
  assert (Hc : consistent (fst (delete_pages id tenantId db)) = true).
  { unfold consistent, versions_refer_to_pages in *.
    apply andb_true_iff in H as [H Hrefer].
    apply andb_true_iff in H as [Hslugs Hversions].
    unfold delete_pages. simpl.
    rewrite (slugs_unique_filter _ _ Hslugs), (versions_unique_filter _ _ Hversions).
    simpl. apply forallb_forall. intros v Hv.
    apply list_elem_of_In, list_elem_of_filter in Hv as [Hkept Hv].
    rewrite forallb_forall in Hrefer.
    apply list_elem_of_In, Hrefer, existsb_exists in Hv as (p & Hp & Hid).
    apply existsb_exists. exists p. split; [|assumption].
    apply list_elem_of_In, list_elem_of_filter. split; [|now apply list_elem_of_In].
    destruct (is_page id tenantId p) eqn:Hhit; [|reflexivity].
    assert (Hdel : existsb (fun p => p_id p =? pv_page_id v)
                     (filter (fun p => is_page id tenantId p = true) (pages db)) = true);
      [|congruence].
    apply existsb_exists. exists p. split; [|assumption].
    apply list_elem_of_In, list_elem_of_filter. split; [assumption|].
    now apply list_elem_of_In. }
  now destruct (delete_pages id tenantId db) as [db' [|]].
Qed.

(** X11: a [PUT /api/pages/:id] changes no page but the one of the
    requester's tenant with the given id: the ids and tenants of the rows
    stay as they are, every other row keeps its place and its content, and
    the versions of every other page are those it had. *)
Theorem put_page_touches_one_page faults now req db :
  map (fun p => (p_id p, p_tenant_id p)) (pages (fst (put_page faults now req db)))
  = map (fun p => (p_id p, p_tenant_id p)) (pages db)
  /\ (forall (i : nat) p,
        pages db !! i = Some p ->
        is_page (param_id req) (user_tenantId req) p = false ->
        pages (fst (put_page faults now req db)) !! i = Some p)
  /\ (forall id,
        id <> param_id req ->
        versions_of id (fst (put_page faults now req db)) = versions_of id db).
Proof.
  split; [apply put_page_keys|split].
  - intros i p Hi Hp.
    destruct (put_page_pages faults now req db) as [->|[-> _]];
      [assumption|now apply updated_pages_lookup].
  - intros id Hid. unfold versions_of at 1.
    destruct (put_page_versions faults now req db) as [->|(page & _ & ->)];
      [reflexivity|now apply versions_of_other].
Qed.

Lemma put_page_touches_one_page_witness :
  pages (fst (put_page no_faults 20 (set_blocks 9 (VArr [])) shared_site)) !! 1%nat
  = Some foreign_page
  /\ versions_of 2 (fst (put_page no_faults 20 (set_blocks 1 (VArr [])) site)) = [].
Proof.
  split.
  - apply (proj1 (proj2 (put_page_touches_one_page no_faults 20 (set_blocks 9 (VArr []))
                           shared_site)) 1%nat foreign_page); reflexivity.
  - apply (proj2 (proj2 (put_page_touches_one_page no_faults 20 (set_blocks 1 (VArr []))
                           site)) 2). simpl. lia.
Defined.

(** X12: the handlers that write pages keep the constraints of the
    migration: after a [PUT], a [POST] or a [DELETE], whatever the answer, no
    two pages of a tenant share a slug, no two versions of a page share a
    number, and every version is one of a page that is in the table. *)
Theorem page_handlers_keep_constraints db :
  consistent db = true ->
  (forall faults now req, consistent (fst (put_page faults now req db)) = true)
  /\ (forall fault now new_id req,
        consistent (fst (post_page fault now new_id req db)) = true)
  /\ (forall fault id tenantId,
        consistent (fst (delete_page fault id tenantId db)) = true).
Proof.
  intros H. split; [|split].
  - intros faults now req. unfold consistent in *.
    apply andb_true_iff in H as [H Hrefer].
    apply andb_true_iff in H as [Hslugs Hversions].
    now rewrite put_page_slugs, put_page_versions_unique, put_page_refer.
  - intros fault now new_id req. now apply post_page_consistent.
  - intros fault id tenantId. now apply delete_page_consistent.
Qed.

Lemma page_handlers_keep_constraints_witness :
  consistent (fst (put_page no_faults 20 rename_home_to_about site_with_version)) = true
  /\ consistent (fst (post_page false 20 3 create_contact site_with_version)) = true
  /\ consistent (fst (delete_page false 1 1 site_with_version)) = true.
Proof.
  assert (H : consistent site_with_version = true) by reflexivity.
  destruct (page_handlers_keep_constraints site_with_version H) as (Hput & Hpost & Hdelete).
  split; [apply Hput|split; [apply Hpost|apply Hdelete]].
Defined.

Lemma slugs_unique_same (rows : list page_row) (p q : page_row) :
  slugs_unique rows = true ->
  p ∈ rows -> q ∈ rows ->
  p_tenant_id p = p_tenant_id q -> p_slug p = p_slug q -> p = q.
Proof.
  intros Hu Hp Hq Ht Hs. induction rows as [|a rows IH]; [inversion Hp|].
  simpl in Hu. apply andb_true_iff in Hu as [Ha Hu]. apply negb_true_iff in Ha.
  assert (Hclash : forall r, r ∈ rows -> p_tenant_id r = p_tenant_id a ->
                             p_slug r = p_slug a -> False).
  { intros r Hr Hrt Hrs.
    assert (existsb (fun q => (p_tenant_id q =? p_tenant_id a)
                              && String.eqb (p_slug q) (p_slug a)) rows = true);
      [|congruence].
    apply existsb_exists. exists r. split; [now apply list_elem_of_In|].
    apply andb_true_iff. split; [now apply Z.eqb_eq|now apply String.eqb_eq]. }
  apply elem_of_cons in Hp as [->|Hp]; apply elem_of_cons in Hq as [->|Hq].
  - reflexivity.
  - destruct (Hclash q Hq); congruence.
  - destruct (Hclash p Hp); congruence.
  - now apply IH.
Qed.

(** X13: no two pages of a tenant sharing a slug, the storefront route
    is unambiguous: for the first tenant with the given subdomain, a
    published page of that tenant with the requested slug is the page that
    is served, with the HTML of its blocks, when no query fails. *)
Theorem storefront_finds_the_page faults tenants block_types year req db
    subdomain tenant (i : nat) page html :
  or_else (header_subdomain req) (query_subdomain req) = Some subdomain ->
  String.eqb subdomain "" = false ->
  head (filter (fun t => String.eqb (t_subdomain t) subdomain = true) tenants)
  = Some tenant ->
  slugs_unique (pages db) = true ->
  pages db !! i = Some page ->
  (p_tenant_id page =? t_id tenant) && String.eqb (p_slug page) (param_slug req)
    && p_is_published page = true ->
  faults 0%nat || faults 1%nat || faults 2%nat = false ->
  renderBlocks_value false block_types year (p_blocks page) = Some html ->
  storefront_page faults tenants block_types year req db
  = Served (served tenant page html).
Proof.
  intros Hsub Hne Htenant Hu Hi Hpage Hfaults Hhtml.
  apply orb_false_iff in Hfaults as [Hfaults Hf2].
  apply orb_false_iff in Hfaults as [Hf0 Hf1].
  unfold storefront_page. rewrite Hsub, Hne, Hf0.
  destruct (filter _ tenants) as [|t rest]; [discriminate|].
  injection Htenant as ->. rewrite Hf1.
  assert (Hin : page ∈ published_pages (t_id tenant) (param_slug req) db).
  { unfold published_pages. apply list_elem_of_filter.
    split; [assumption|]. now apply list_elem_of_lookup_2 in Hi. }
  destruct (published_pages _ _ _) as [|first others] eqn:Hfound; [inversion Hin|].
  assert (Hfirst : first ∈ published_pages (t_id tenant) (param_slug req) db)
    by (rewrite Hfound; left).
  unfold published_pages in Hfirst. apply list_elem_of_filter in Hfirst as [Hf Hfirst].
  apply andb_true_iff in Hf as [Hf _]. apply andb_true_iff in Hf as [Hft Hfs].
  apply andb_true_iff in Hpage as [Hp _]. apply andb_true_iff in Hp as [Hpt Hps].
  apply Z.eqb_eq in Hft, Hpt. apply String.eqb_eq in Hfs, Hps.
  assert (first = page) as ->.
  { apply (slugs_unique_same (pages db)); try assumption; try congruence.
    now apply list_elem_of_lookup_2 in Hi. }
  now rewrite Hf2, Hhtml.
Qed.

Lemma storefront_finds_the_page_witness :
  storefront_page no_faults [other_tenant; shop_tenant] block_types_example 2026
    welcome_request storefront_db
  = Served (served shop_tenant published_home
              (renderBlocks block_types_example 2026 [hero_block; shop_block])).
Proof.
  apply (storefront_finds_the_page no_faults [other_tenant; shop_tenant]
           block_types_example 2026 welcome_request storefront_db "shop" shop_tenant
           2%nat published_home); reflexivity.
Defined.

Lemma sql_max_snoc (numbers : list Z) :
  default 0 (sql_max (numbers ++ [default 0 (sql_max numbers) + 1]))
  = default 0 (sql_max numbers) + 1.
Proof.
  destruct numbers as [|n rest]; [reflexivity|]. simpl.
  assert (H : forall x, fold_right Z.max n (rest ++ [x])
                        = Z.max (fold_right Z.max n rest) x).
  { intros x. induction rest as [|m rest IH]; simpl; [lia|]. rewrite IH. lia. }
  rewrite H. lia.
Qed.

Lemma put_pages_versions id tenantId (calls : list put_call) : forall db,
  existsb (is_page id tenantId) (pages db) = true ->
  snapshots_storable id tenantId db = true ->
  forallb (fun call => addresses (call_request call) id tenantId
                       && snapshot_statements_succeed (call_faults call)) calls = true ->
  map pv_version_number (versions_of id (put_pages calls db))
  = map pv_version_number (versions_of id db)
    ++ map (fun k => default 0 (sql_max (map pv_version_number (versions_of id db)))
                     + Z.of_nat k)
           (seq 1 (length calls)).
Proof.
  induction calls as [|call calls IH]; intros db Hex Hstorable Hall.
  - unfold put_pages. simpl. now rewrite app_nil_r.
  - simpl in Hall. apply andb_true_iff in Hall as [Hcall Hall].
    apply andb_true_iff in Hcall as [Haddr Hok].
    destruct (version_step (call_faults call) (call_now call) (call_request call)
                db id tenantId Hex Hstorable Haddr Hok) as (Hex' & Hstorable' & Hstep).
    change (put_pages (call :: calls) db)
      with (put_pages calls
              (fst (put_page (call_faults call) (call_now call) (call_request call) db))).
    rewrite (IH _ Hex' Hstorable' Hall), Hstep, sql_max_snoc.
    rewrite <- app_assoc. f_equal. simpl. f_equal.
    rewrite <- (seq_shift (length calls) 1), map_map. apply map_ext. intros k. lia.
Qed.

(** X14: the versions of a page are numbered in sequence: for a page whose
    blocks the store takes as a snapshot (anything but a list that holds a
    block, a string or [null]), after any number of update requests for the
    page that send no string as blocks, each with its snapshot statements
    not rejected for an outside reason, the page has one more version per
    request, numbered from one above the largest number it had, without a
    gap, whatever the answers of the requests were. *)
Theorem versions_are_numbered_in_sequence id tenantId (calls : list put_call) db :
  existsb (is_page id tenantId) (pages db) = true ->
  snapshots_storable id tenantId db = true ->
  forallb (fun call => addresses (call_request call) id tenantId
                       && snapshot_statements_succeed (call_faults call)
                       && blocks_not_string (call_request call)) calls = true ->
  map pv_version_number (versions_of id (put_pages calls db))
  = map pv_version_number (versions_of id db)
    ++ map (fun k => default 0 (sql_max (map pv_version_number (versions_of id db)))
                     + Z.of_nat k)
           (seq 1 (length calls)).
Proof.
  intros Hex Hstorable Hall. apply (put_pages_versions id tenantId); try assumption.
  revert Hall. apply forallb_pointwise. intros call Hcall.
  now apply andb_true_iff in Hcall as [Hcall _].
Qed.

Lemma versions_are_numbered_in_sequence_witness :
  map pv_version_number (versions_of 1 (put_pages three_calls drafts))
  = [1; 2; 3; 4].
Proof.
  apply (versions_are_numbered_in_sequence 1 1 three_calls drafts);
    reflexivity.
Defined.

Lemma slug_char_plain c : slug_char c = true -> special c = false.
Proof.
  destruct c as [[] [] [] [] [] [] [] []]; intros H; try reflexivity; discriminate H.
Qed.

Lemma slug_format_plain (slug : string) :
  slug_format slug = true -> contains special slug = false.
Proof.
  unfold slug_format. intros H. apply andb_true_iff in H as [_ H].
  induction slug as [|c rest IH]; [reflexivity|]. simpl in *.
  apply andb_true_iff in H as [Hc Hrest].
  now rewrite (slug_char_plain c Hc), IH.
Qed.

(** X15: a [POST /api/pages] that answers 201 has created, as the last row
    of the table, an unpublished page of the requester's tenant.  The slug
    converted to a string is made of lowercase letters, digits and hyphens
    only, and the slug column holds the text the driver sends for the slug:
    for a slug sent as a string that very string, which is then its own HTML
    escaping; for a slug sent as the array of one such string, which passes
    the pattern by coercion, the array literal in braces.  The blocks stored
    are what the store makes of [blocks || []] when that is no string: the
    empty object for the empty list.  The same request sent again creates
    nothing.  Any other answer leaves the tables as they were. *)
Theorem post_page_cases fault now new_id req db :
  (forall row,
     snd (post_page fault now new_id req db) = Created row ->
     slug_format (to_String (post_slug req)) = true
     /\ p_slug row = pg_text (post_slug req)
     /\ (forall slug,
           post_slug req = VStr slug ->
           p_slug row = slug /\ slug_format slug = true /\ escapeHtml slug = slug)
     /\ p_id row = new_id
     /\ p_tenant_id row = post_tenantId req
     /\ p_is_published row = false
     /\ (is_string (blocks_or_empty (post_blocks req)) = false ->
         jsonb_param (blocks_or_empty (post_blocks req)) = Stored (p_blocks row))
     /\ pages (fst (post_page fault now new_id req db)) = pages db ++ [row]
     /\ forall fault' now' id',
          post_page fault' now' id' req (fst (post_page fault now new_id req db))
          = (fst (post_page fault now new_id req db),
             if fault' then CreateFailed
             else BadRequest "Page with this slug already exists"))
  /\ (is_created (snd (post_page fault now new_id req db)) = false ->
      fst (post_page fault now new_id req db) = db).
Proof.
  destruct (post_page_after fault now new_id req db)
    as [[Hdb Hnot]|(blocks & Hslug & Htitle & Hformat & Hblocks & Hex & Hpost)].
  - split; [|now intros _].
    intros row Hrow. rewrite Hrow in Hnot. discriminate.
  - rewrite Hpost. simpl. split; [|discriminate].
    intros row [= <-]. simpl.
    split; [exact Hformat|]. split; [reflexivity|]. split.
    { intros slug Hsent. rewrite Hsent in *. simpl in *.
      split; [reflexivity|]. split; [exact Hformat|].
      now apply escapeHtml_plain, slug_format_plain. }
    repeat split; try assumption.
    { intros _. exact Hblocks. }
    intros fault' now' id'. unfold post_page at 1.
    rewrite Hslug, Htitle, Hformat. simpl.
    destruct fault'; [reflexivity|]. rewrite Hblocks.
    rewrite existsb_app. simpl. rewrite Z.eqb_refl, String.eqb_refl. simpl.
    now rewrite orb_true_r.
Qed.

Lemma post_page_cases_witness :
  snd (post_page false 20 3 create_contact site)
  = Created (created_row 20 3 create_contact "contact" "Contact" (VObj []))
  /\ escapeHtml "contact" = "contact"
  /\ jsonb_param (VArr []) = Stored (VObj [])
  /\ p_slug (created_row 20 3 slug_in_an_array (pg_text (VArr [VStr "abc"])) "Abc" (VObj []))
     = String "{" (String quot "abc" +:+ String quot "}")
  /\ fst (post_page true 20 3 create_contact site) = site.
Proof.
  destruct (post_page_cases false 20 3 create_contact site) as [Hcreated _].
  destruct (Hcreated (created_row 20 3 create_contact "contact" "Contact" (VObj [])))
    as (_ & _ & Hsent & _ & _ & _ & Hblocks & _); [reflexivity|].
  destruct (Hsent "contact") as (_ & _ & Hescape); [reflexivity|].
  destruct (post_page_cases false 20 3 slug_in_an_array site) as [Harray _].
  destruct (Harray (created_row 20 3 slug_in_an_array (pg_text (VArr [VStr "abc"]))
                      "Abc" (VObj [])))
    as (_ & Htext & _); [reflexivity|].
  destruct (post_page_cases true 20 3 create_contact site) as [_ Hfailed].
  split; [reflexivity|]. split; [exact Hescape|].
  split; [apply Hblocks; reflexivity|].
  split; [rewrite Htext; reflexivity|apply Hfailed; reflexivity].
Defined.

Lemma deleted_ids id tenantId (rows : list page_row) (x : Z) :
  existsb (fun p => p_id p =? x)
          (filter (fun p => is_page id tenantId p = true) rows)
  = (x =? id) && existsb (is_page id tenantId) rows.
Proof.
  induction rows as [|p rows IH]; [now rewrite andb_false_r|].
  rewrite filter_cons. simpl.
  destruct (is_page id tenantId p) eqn:Hp; case_decide; try congruence; simpl.
  - unfold is_page in Hp. apply andb_true_iff in Hp as [Hid _].
    apply Z.eqb_eq in Hid. rewrite Hid, (Z.eqb_sym id x), IH.
    now destruct (x =? id).
  - exact IH.
Qed.

Lemma delete_pages_versions id tenantId db (other : Z) :
  filter (fun v => (pv_page_id v =? other) = true)
         (page_versions (fst (delete_pages id tenantId db)))
  = if (other =? id) && existsb (is_page id tenantId) (pages db) then []
    else versions_of other db.
Proof.
  unfold delete_pages, versions_of. simpl.
  induction (page_versions db) as [|v vs IH].
  - now destruct (_ && _).
  - rewrite (filter_cons _ v vs), (filter_cons (fun v => (pv_page_id v =? other) = true) v vs).
    rewrite deleted_ids.
    destruct (pv_page_id v =? other) eqn:Hv.
    + apply Z.eqb_eq in Hv. rewrite Hv.
      destruct ((other =? id) && existsb (is_page id tenantId) (pages db)) eqn:Hdel;
        repeat case_decide; try congruence.
      rewrite filter_cons, IH. case_decide as Hd; [reflexivity|].
      rewrite Hv, Z.eqb_refl in Hd. congruence.
    + repeat case_decide; try congruence; try exact IH.
      rewrite filter_cons, Hv. case_decide; [congruence|exact IH].
Qed.

Lemma delete_pages_pages id tenantId db :
  existsb (is_page id tenantId) (pages (fst (delete_pages id tenantId db))) = false.
Proof.
  unfold delete_pages. simpl. induction (pages db) as [|p rows IH]; [reflexivity|].
  rewrite filter_cons. case_decide as Hp; [|exact IH]. simpl. now rewrite Hp, IH.
Qed.

(** X16: a [DELETE /api/pages/:id] that answers with success has removed
    the page of the requester's tenant with that id and nothing else from
    [pages], has removed every version of the page with it and left the
    versions of the other pages; an update request for the page then finds
    no page, writes nothing and does not answer with a row.  Any other answer
    of the [DELETE] leaves the tables as they were. *)
Theorem delete_page_cascades fault id tenantId db :
  (snd (delete_page fault id tenantId db) = Deleted ->
   pages (fst (delete_page fault id tenantId db))
   = filter (fun p => is_page id tenantId p = false) (pages db)
   /\ versions_of id (fst (delete_page fault id tenantId db)) = []
   /\ (forall other,
         other <> id ->
         versions_of other (fst (delete_page fault id tenantId db))
         = versions_of other db)
   /\ forall faults now req,
        addresses req id tenantId = true ->
        let after := put_page faults now req (fst (delete_page fault id tenantId db)) in
        pages (fst after) = pages (fst (delete_page fault id tenantId db))
        /\ page_versions (fst after)
           = page_versions (fst (delete_page fault id tenantId db))
        /\ (snd after = NotFound \/ snd after = ServerError))
  /\ (snd (delete_page fault id tenantId db) <> Deleted ->
      fst (delete_page fault id tenantId db) = db).
Proof.
  unfold delete_page. destruct fault; [split; [discriminate|reflexivity]|].
  destruct (filter (fun p => is_page id tenantId p = true) (pages db))
    as [|page rest] eqn:Hfound.
  - pose proof (delete_pages_none id tenantId db Hfound) as Hnone.
    unfold delete_pages in *. rewrite Hfound in *. simpl in *.
    split; [discriminate|now intros _].
  - pose proof (delete_pages_versions id tenantId db) as Hversions.
    pose proof (delete_pages_pages id tenantId db) as Hpages.
    pose proof (hit_existsb _ _ _ _ Hfound) as Hex.
    unfold delete_pages in *. rewrite Hfound in *. simpl in *.
    split; [intros _|congruence]. split; [reflexivity|].
    split; [|split].
    + unfold versions_of. simpl. now rewrite Hversions, Z.eqb_refl, Hex.
    + intros other Hother. unfold versions_of at 1. simpl. rewrite Hversions.
      destruct (Z.eqb_spec other id); [contradiction|reflexivity].
    + intros faults now req Haddr.
      set (db' := {| pages := _; page_versions := _ |}).
      assert (Hgone : existing_page req db' = None).
      { unfold addresses in Haddr. apply andb_true_iff in Haddr as [Hid Hten].
        apply Z.eqb_eq in Hid, Hten. unfold existing_page. rewrite Hid, Hten.
        destruct (filter _ (pages db')) as [|p ps] eqn:Hp; [reflexivity|].
        apply hit_existsb in Hp. subst db'. simpl in Hp. congruence. }
      destruct (put_page_outcomes faults now req db')
        as [(Hdb & Ha)|[(_ & Hp & Hv & Ha)|[(p & He & _)|(p & He & _)]]];
        try congruence; simpl; [rewrite Hdb|]; auto.
Qed.

Lemma delete_page_cascades_witness :
  versions_of 1 (fst (delete_page false 1 1 site_with_version)) = []
  /\ fst (delete_page false 1 2 site_with_version) = site_with_version.
Proof.
  destruct (delete_page_cascades false 1 1 site_with_version) as [Hdeleted _].
  destruct Hdeleted as (_ & Hversions & _); [reflexivity|].
  destruct (delete_page_cascades false 1 2 site_with_version) as [_ Hkept].
  split; [exact Hversions|apply Hkept; discriminate].
Defined.

(** ** The theme handlers *)

Lemma active_existsb_map (f : theme_row -> theme_row) (x : Z) (rows : list theme_row) :
  (forall t, th_tenant_id (f t) = th_tenant_id t) ->
  (forall t, th_is_active (f t) = true -> th_is_active t = true) ->
  existsb (fun u => th_is_active u && (th_tenant_id u =? x)) rows = false ->
  existsb (fun u => th_is_active u && (th_tenant_id u =? x)) (map f rows) = false.
Proof.
  intros Hten Hact. induction rows as [|t rows IH]; [reflexivity|]. simpl.
  intros H. apply orb_false_iff in H as [Ht Hrows]. rewrite (IH Hrows), orb_false_r.
  rewrite Hten. destruct (th_is_active (f t)) eqn:Hf; [|reflexivity].
  now rewrite (Hact t Hf) in Ht.
Qed.

(** A statement that activates no row keeps the invariant. *)
Lemma at_most_one_active_map (f : theme_row -> theme_row) (rows : list theme_row) :
  (forall t, th_tenant_id (f t) = th_tenant_id t) ->
  (forall t, th_is_active (f t) = true -> th_is_active t = true) ->
  at_most_one_active rows = true -> at_most_one_active (map f rows) = true.
Proof.
  intros Hten Hact. induction rows as [|t rows IH]; [reflexivity|]. simpl.
  intros H. apply andb_true_iff in H as [Ht Hrows]. rewrite (IH Hrows), andb_true_r.
  rewrite Hten. destruct (th_is_active (f t)) eqn:Hf; [|reflexivity]. simpl.
  rewrite (Hact t Hf) in Ht. simpl in Ht. apply negb_true_iff in Ht.
  now rewrite (active_existsb_map f _ rows Hten Hact Ht).
Qed.

Lemma deactivated_tenant tenantId t : th_tenant_id (deactivated tenantId t) = th_tenant_id t.
Proof. unfold deactivated. now destruct (_ =? _). Qed.

Lemma deactivated_id tenantId t : th_id (deactivated tenantId t) = th_id t.
Proof. unfold deactivated. now destruct (_ =? _). Qed.

Lemma deactivated_active tenantId t :
  th_is_active (deactivated tenantId t)
  = th_is_active t && negb (th_tenant_id t =? tenantId).
Proof.
  unfold deactivated. destruct (_ =? _); simpl;
    [now rewrite andb_false_r|now rewrite andb_true_r].
Qed.

Lemma theme_ids_unique_map (f : theme_row -> theme_row) (rows : list theme_row) :
  (forall t, th_id (f t) = th_id t) ->
  theme_ids_unique (map f rows) = theme_ids_unique rows.
Proof.
  intros Hid. induction rows as [|t rows IH]; [reflexivity|]. simpl.
  rewrite IH, Hid. f_equal. f_equal.
  clear IH. induction rows as [|u rows IH]; [reflexivity|]. simpl.
  now rewrite IH, Hid.
Qed.

Lemma no_theme_hit (id tenantId : Z) (f : theme_row -> theme_row)
    (rows : list theme_row) :
  existsb (fun u => th_id u =? id) rows = false ->
  map (fun t => if is_theme id tenantId t then f t else t) rows = rows.
Proof.
  induction rows as [|t rows IH]; [reflexivity|]. simpl.
  intros H. apply orb_false_iff in H as [Ht Hrows].
  unfold is_theme at 1. now rewrite Ht, (IH Hrows).
Qed.

(** With the themes of the tenant all inactive and ids that are unique,
    a statement that changes the row with a given id activates at most one
    row. *)
Lemma at_most_one_active_hit (id tenantId : Z) (f : theme_row -> theme_row)
    (rows : list theme_row) :
  (forall t, th_tenant_id (f t) = th_tenant_id t) ->
  theme_ids_unique rows = true ->
  existsb (fun u => th_is_active u && (th_tenant_id u =? tenantId)) rows = false ->
  at_most_one_active rows = true ->
  at_most_one_active (map (fun t => if is_theme id tenantId t then f t else t) rows)
  = true.
Proof.
  intros Hf.
  set (g := fun t => if is_theme id tenantId t then f t else t).
  assert (Hten : forall t, th_tenant_id (g t) = th_tenant_id t).
  { intros t. unfold g. destruct (is_theme _ _ t); [apply Hf|reflexivity]. }
  induction rows as [|t rows IH]; [reflexivity|]. simpl.
  intros Hids Hoff Hone.
  apply andb_true_iff in Hids as [Hid Hids]. apply negb_true_iff in Hid.
  apply orb_false_iff in Hoff as [Ht Hoff].
  apply andb_true_iff in Hone as [Hfirst Hone].
  rewrite (IH Hids Hoff Hone), andb_true_r, Hten.
  destruct (is_theme id tenantId t) eqn:Hhit.
  - (* the row that is changed: no other row has its id *)
    unfold is_theme in Hhit. apply andb_true_iff in Hhit as [Hi Hte].
    apply Z.eqb_eq in Hi, Hte. rewrite Hi in Hid.
    unfold g at 2. rewrite (no_theme_hit _ _ _ rows Hid), Hte, Hoff.
    now rewrite orb_true_r.
  - assert (Hg : g t = t) by (unfold g; now rewrite Hhit). rewrite Hg.
    destruct (th_is_active t) eqn:Hactive; [|reflexivity]. simpl in *.
    destruct (Z.eqb_spec (th_tenant_id t) tenantId) as [Hsame|Hother];
      [discriminate|].
    apply negb_true_iff. apply negb_true_iff in Hfirst. rewrite <- Hfirst.
    clear -Hother Hf. induction rows as [|u rows IH]; [reflexivity|]. simpl.
    rewrite IH. f_equal. unfold g, is_theme.
    destruct (th_id u =? id); [|reflexivity]. simpl.
    destruct (Z.eqb_spec (th_tenant_id u) tenantId) as [Hu|Hu]; [|reflexivity].
    rewrite Hf, Hu.
    destruct (Z.eqb_spec tenantId (th_tenant_id t)) as [He|He];
      [congruence|]. now rewrite !andb_false_r.
Qed.

Lemma at_most_one_active_update now req (rows : list theme_row) :
  theme_ids_unique rows = true ->
  existsb (fun u => th_is_active u && (th_tenant_id u =? theme_tenantId req)) rows = false ->
  at_most_one_active rows = true ->
  at_most_one_active
    (map (fun t => if is_theme (theme_param_id req) (theme_tenantId req) t
                   then updated_theme now req t else t) rows) = true.
Proof. now apply at_most_one_active_hit. Qed.

Lemma deactivated_off tenantId (rows : list theme_row) :
  existsb (fun u => th_is_active u && (th_tenant_id u =? tenantId))
          (map (deactivated tenantId) rows) = false.
Proof.
  induction rows as [|t rows IH]; [reflexivity|]. simpl.
  rewrite IH, deactivated_active, deactivated_tenant.
  now destruct (th_is_active t), (th_tenant_id t =? tenantId).
Qed.

Lemma staged_themes_one_active req themes :
  at_most_one_active themes = true -> at_most_one_active (staged_themes req themes) = true.
Proof.
  intros H. unfold staged_themes. destruct (default false _); [|assumption].
  apply at_most_one_active_map; [apply deactivated_tenant| |assumption].
  intros t. rewrite deactivated_active. now destruct (th_is_active t).
Qed.

Lemma updated_themes_one_active now req themes :
  theme_ids_unique themes = true ->
  at_most_one_active themes = true ->
  at_most_one_active
    (map (fun t => if is_theme (theme_param_id req) (theme_tenantId req) t
                   then updated_theme now req t else t)
         (staged_themes req themes)) = true.
Proof.
  intros Hids Hone. pose proof (staged_themes_one_active req themes Hone) as Hstaged.
  unfold staged_themes in *. destruct (theme_is_active req) as [[]|] eqn:Hactive; simpl in *.
  - apply at_most_one_active_update; [|apply deactivated_off|assumption].
    rewrite theme_ids_unique_map; [assumption|apply deactivated_id].
  - apply at_most_one_active_map; [| |assumption]; intros t;
      destruct (is_theme _ _ t); try reflexivity; try tauto.
    unfold updated_theme. simpl. rewrite Hactive. discriminate.
  - apply at_most_one_active_map; [| |assumption]; intros t;
      destruct (is_theme _ _ t); try reflexivity; try tauto.
    unfold updated_theme. simpl. now rewrite Hactive.
Qed.

Lemma put_theme_after faults now req themes :
  fst (put_theme faults now req themes) = themes
  \/ fst (put_theme faults now req themes) = staged_themes req themes
  \/ fst (put_theme faults now req themes)
     = map (fun t => if is_theme (theme_param_id req) (theme_tenantId req) t
                     then updated_theme now req t else t)
           (staged_themes req themes).
Proof.
  unfold put_theme. destruct (_ && faults 0%nat); [now left|].
  destruct (faults 1%nat); [right; now left|].
  destruct (negb (accepts (theme_settings req))); [right; now left|].
  destruct (_ && negb _); [right; now left|].
  destruct (filter _ _); right; now right.
Qed.

Lemma at_most_one_active_snoc (rows : list theme_row) (r : theme_row) :
  th_is_active r = false ->
  at_most_one_active (rows ++ [r]) = at_most_one_active rows.
Proof.
  intros Hr. induction rows as [|t rows IH]; simpl; [now rewrite Hr|].
  rewrite IH, existsb_app. simpl. now rewrite Hr, !orb_false_r.
Qed.

Lemma staged_themes_lookup req themes (i : nat) t :
  themes !! i = Some t ->
  th_tenant_id t <> theme_tenantId req ->
  staged_themes req themes !! i = Some t.
Proof.
  intros Hi Ht. unfold staged_themes. destruct (default false _); [|assumption].
  rewrite list_lookup_fmap, Hi. simpl. unfold deactivated.
  now destruct (Z.eqb_spec (th_tenant_id t) (theme_tenantId req)).
Qed.

Lemma updated_themes_lookup now req (rows : list theme_row) (i : nat) t :
  rows !! i = Some t ->
  th_tenant_id t <> theme_tenantId req ->
  map (fun t => if is_theme (theme_param_id req) (theme_tenantId req) t
                then updated_theme now req t else t) rows !! i = Some t.
Proof.
  intros Hi Ht. rewrite list_lookup_fmap, Hi. simpl. unfold is_theme.
  destruct (Z.eqb_spec (th_tenant_id t) (theme_tenantId req)); [contradiction|].
  now rewrite andb_false_r.
Qed.

Lemma no_hit_theme_rows (hit : theme_row -> bool) (f : theme_row -> theme_row)
    (rows : list theme_row) :
  filter (fun t => hit t = true) rows = [] ->
  map (fun t => if hit t then f t else t) rows = rows.
Proof.
  induction rows as [|t rest IH]; [reflexivity|]. rewrite filter_cons. simpl.
  destruct (hit t) eqn:Ht; case_decide; try congruence; intros Hnil;
    try discriminate. now rewrite IH.
Qed.

(** X17: the theme handlers keep the tenants apart and at most one theme
    active per tenant: if no tenant has two active themes before a
    [PUT /api/themes/:id] or a [POST /api/themes], none has after it,
    whatever the answer; and a [PUT] leaves every theme of another tenant in
    its place, as it was. *)
Theorem theme_handlers_keep_one_active themes :
  theme_ids_unique themes = true ->
  at_most_one_active themes = true ->
  (forall faults now req,
     at_most_one_active (fst (put_theme faults now req themes)) = true
     /\ forall (i : nat) t,
          themes !! i = Some t ->
          th_tenant_id t <> theme_tenantId req ->
          fst (put_theme faults now req themes) !! i = Some t)
  /\ (forall fault now new_id tenantId name settings,
        at_most_one_active
          (fst (post_theme fault now new_id tenantId name settings themes)) = true).
Proof.
  intros Hids Hone. split.
  - intros faults now req.
    destruct (put_theme_after faults now req themes) as [->|[->| ->]].
    + split; [assumption|auto].
    + split; [now apply staged_themes_one_active|]. intros i t.
      apply staged_themes_lookup.
    + split; [now apply updated_themes_one_active|]. intros i t Hi Ht.
      apply updated_themes_lookup; [|assumption]. now apply staged_themes_lookup.
  - intros fault now new_id tenantId name settings. unfold post_theme.
    destruct name as [name|]; [|assumption].
    destruct (String.eqb name ""); [assumption|].
    destruct fault; [assumption|].
    destruct (jsonb_param (settings_or_empty settings)); try assumption.
    destruct (existsb _ themes); [assumption|]. simpl.
    now rewrite at_most_one_active_snoc.
Qed.

Lemma theme_handlers_keep_one_active_witness :
  at_most_one_active (fst (put_theme no_faults 9 (activate 2 None) themes_example)) = true
  /\ fst (put_theme no_faults 9 (activate 2 None) themes_example) !! 1%nat
     = Some their_theme.
Proof.
  destruct (theme_handlers_keep_one_active themes_example) as [Hput _];
    [reflexivity|reflexivity|].
  destruct (Hput no_faults 9 (activate 2 None)) as [Hone Hother].
  split; [exact Hone|]. apply Hother; [reflexivity|]. simpl. lia.
Defined.

(** X18: a [PUT /api/themes/:id] that sets [is_active] to [true] and
    answers with a row has made the theme with that id the active theme of
    the tenant and every other theme of the tenant inactive. *)
Theorem put_theme_activates_one faults now req themes row :
  theme_is_active req = Some true ->
  snd (put_theme faults now req themes) = ThemeJson row ->
  th_id row = theme_param_id req
  /\ th_tenant_id row = theme_tenantId req
  /\ th_is_active row = true
  /\ forall t,
       t ∈ fst (put_theme faults now req themes) ->
       th_tenant_id t = theme_tenantId req ->
       th_is_active t = (th_id t =? theme_param_id req).
Proof.
  intros Hactive. unfold put_theme, staged_themes. rewrite Hactive. simpl.
  destruct (faults 0%nat); [discriminate|].
  destruct (faults 1%nat); [discriminate|].
  destruct (negb (accepts (theme_settings req))); [discriminate|].
  destruct (_ && negb _); [discriminate|].
  destruct (filter _ _) as [|hit rest] eqn:Hfound; [discriminate|].
  simpl. intros [= <-].
  assert (Hin : hit ∈ filter (fun t => is_theme (theme_param_id req) (theme_tenantId req) t
                                       = true)
                             (map (deactivated (theme_tenantId req)) themes))
    by (rewrite Hfound; left).
  apply list_elem_of_filter in Hin as [Hhit _].
  unfold is_theme in Hhit. apply andb_true_iff in Hhit as [Hid Hten].
  apply Z.eqb_eq in Hid, Hten. simpl. rewrite Hactive. simpl.
  repeat split; try assumption.
  intros t Ht Htenant.
  apply list_elem_of_fmap in Ht as (u & -> & Hu).
  apply list_elem_of_fmap in Hu as (v & -> & _).
  revert Htenant. unfold is_theme. rewrite deactivated_id, deactivated_tenant.
  destruct (th_id v =? theme_param_id req) eqn:Hv; simpl.
  - destruct (th_tenant_id v =? theme_tenantId req) eqn:Hvt; simpl.
    + intros _. now rewrite Hactive, deactivated_id, Hv.
    + rewrite deactivated_tenant. intros Ht.
      rewrite Ht, Z.eqb_refl in Hvt. discriminate.
  - rewrite deactivated_tenant, deactivated_id, deactivated_active, Hv. intros Ht.
    now rewrite Ht, Z.eqb_refl, andb_false_r.
Qed.

Lemma put_theme_activates_one_witness :
  th_id dark_theme = 2
  /\ th_tenant_id dark_theme = 1
  /\ true = true
  /\ forall t,
       t ∈ fst (put_theme no_faults 9 (activate 2 None) themes_example) ->
       th_tenant_id t = 1 ->
       th_is_active t = (th_id t =? 2).
Proof.
  apply (put_theme_activates_one no_faults 9 (activate 2 None) themes_example
           (updated_theme 9 (activate 2 None) dark_theme)); reflexivity.
Defined.

(** X19: the two statements of [PUT /api/themes/:id] are not one
    transaction: a request that sets [is_active] to [true] for a theme the
    tenant does not have answers 404, and one whose new name is taken answers
    500, and in both cases every theme of the tenant has been made inactive. *)
Theorem put_theme_failure_deactivates faults now req themes :
  theme_is_active req = Some true ->
  faults 0%nat = false ->
  snd (put_theme faults now req themes) = ThemeNotFound
  \/ snd (put_theme faults now req themes) = ThemeFailed ->
  fst (put_theme faults now req themes)
  = map (deactivated (theme_tenantId req)) themes
  /\ existsb (fun u => th_is_active u && (th_tenant_id u =? theme_tenantId req))
             (fst (put_theme faults now req themes)) = false.
Proof.
  intros Hactive Hf0 Hanswer.
  assert (Hafter : fst (put_theme faults now req themes)
                   = map (deactivated (theme_tenantId req)) themes).
  { revert Hanswer. unfold put_theme, staged_themes. rewrite Hactive, Hf0. simpl.
    destruct (faults 1%nat); [reflexivity|].
    destruct (negb (accepts (theme_settings req))); [reflexivity|].
    destruct (_ && negb _); [reflexivity|].
    destruct (filter _ _) as [|hit rest] eqn:Hfound; simpl.
    - intros _. apply no_hit_theme_rows. exact Hfound.
    - intros [|]; discriminate. }
  split; [exact Hafter|]. rewrite Hafter. apply deactivated_off.
Qed.

Lemma put_theme_failure_deactivates_witness :
  fst (put_theme no_faults 9 (activate 3 None) themes_example)
  = map (deactivated 1) themes_example
  /\ fst (put_theme no_faults 9 (activate 2 (Some "Light")) themes_example)
     = map (deactivated 1) themes_example.
Proof.
  split.
  - apply (put_theme_failure_deactivates no_faults 9 (activate 3 None) themes_example);
      [reflexivity|reflexivity|left; reflexivity].
  - apply (put_theme_failure_deactivates no_faults 9 (activate 2 (Some "Light"))
             themes_example); [reflexivity|reflexivity|right; reflexivity].
Defined.

(** ** The rate limiter *)

Lemma nondecreasing_snoc (times : list Z) (last : Z) :
  nondecreasing (times ++ [last]) = true ->
  nondecreasing times = true /\ forall t, t ∈ times -> t <= last.
Proof.
  induction times as [|t times IH]; simpl.
  - intros _. split; [reflexivity|]. intros t Ht. inversion Ht.
  - intros H. apply andb_true_iff in H as [Ht Hrest].
    rewrite forallb_app in Ht. apply andb_true_iff in Ht as [Ht Hlast].
    simpl in Hlast. rewrite andb_true_r in Hlast. apply Z.leb_le in Hlast.
    destruct (IH Hrest) as [Hsorted Hle]. rewrite Ht, Hsorted.
    split; [reflexivity|]. intros u Hu.
    apply elem_of_cons in Hu as [->|Hu]; [assumption|now apply Hle].
Qed.

Lemma filter_window (windowMs now later : Z) (times : list Z) :
  now <= later ->
  filter (fun time => later - time < windowMs)
         (filter (fun time => now - time < windowMs) times)
  = filter (fun time => later - time < windowMs) times.
Proof.
  intros Hle. rewrite list_filter_filter. apply list_filter_iff.
  intros time. lia.
Qed.

Lemma admitted_snoc key log req answer :
  admitted key (log ++ [(req, answer)])
  = admitted key log
    ++ (if is_next answer && String.eqb (limiter_key req) key
        then [req_time req] else []).
Proof.
  unfold admitted. rewrite filter_app, map_app. f_equal.
  rewrite filter_cons. simpl.
  destruct (is_next answer && String.eqb (limiter_key req) key);
    case_decide; try congruence; reflexivity.
Qed.

Lemma serve_all_snoc maxRequests windowMs reqs req :
  serve_all maxRequests windowMs (reqs ++ [req])
  = serve maxRequests windowMs (serve_all maxRequests windowMs reqs) req.
Proof. unfold serve_all. apply foldl_snoc. Qed.

(** Seen from the clock of a later call, the cache holds, under each key,
    the requests of the key that were let through. *)
Lemma limiter_invariant maxRequests windowMs (reqs : list limiter_request) :
  nondecreasing (map req_time reqs) = true ->
  forall (key : string) (later : Z),
    (forall t, t ∈ map req_time reqs -> t <= later) ->
    filter (fun time => later - time < windowMs)
           (default [] (snd (serve_all maxRequests windowMs reqs) !! key))
    = filter (fun time => later - time < windowMs)
             (admitted key (fst (serve_all maxRequests windowMs reqs))).
Proof.
  induction reqs as [|req reqs IH] using rev_ind; intros Hsorted key later Hlater.
  - reflexivity.
  - rewrite map_app in Hsorted, Hlater. simpl in Hsorted, Hlater.
    apply nondecreasing_snoc in Hsorted as [Hsorted Hbefore].
    assert (Hreq : req_time req <= later).
    { apply Hlater, elem_of_app. right. left. }
    assert (Hearlier : forall t, t ∈ map req_time reqs -> t <= later).
    { intros t Ht. apply Hlater, elem_of_app. now left. }
    rewrite serve_all_snoc. unfold serve, rateLimitMiddleware, rateLimit.
    destruct (serve_all maxRequests windowMs reqs) as [log cache]. simpl in *.
    unfold rateLimitCache in *.
    destruct (_ >=? maxRequests); simpl; rewrite admitted_snoc; simpl.
    + rewrite app_nil_r. now apply IH.
    + destruct (String.eqb_spec (limiter_key req) key) as [<-|Hkey].
      * rewrite lookup_insert_eq. simpl.
        rewrite !filter_app, (filter_window _ _ _ _ Hreq). f_equal. now apply IH.
      * rewrite lookup_insert_ne by assumption. rewrite app_nil_r. now apply IH.
Qed.

Lemma admitted_times key (reqs : list limiter_request) maxRequests windowMs :
  forall t, t ∈ admitted key (fst (serve_all maxRequests windowMs reqs)) ->
            t ∈ map req_time reqs.
Proof.
  induction reqs as [|req reqs IH] using rev_ind; intros t.
  - intros Ht. inversion Ht.
  - rewrite serve_all_snoc. unfold serve. simpl. rewrite admitted_snoc, map_app.
    intros Ht. apply elem_of_app in Ht as [Ht|Ht]; apply elem_of_app.
    + left. now apply IH.
    + right. destruct (_ && _); [exact Ht|inversion Ht].
Qed.

Lemma rateLimitMiddleware_answer maxRequests windowMs reqs req :
  nondecreasing (map req_time (reqs ++ [req])) = true ->
  snd (rateLimitMiddleware maxRequests windowMs req
         (snd (serve_all maxRequests windowMs reqs)))
  = if Z.of_nat (length (filter (fun time => req_time req - time < windowMs)
                           (admitted (limiter_key req)
                              (fst (serve_all maxRequests windowMs reqs)))))
       >=? maxRequests
    then TooManyRequests else Next.
Proof.
  rewrite map_app. simpl. intros Hsorted.
  apply nondecreasing_snoc in Hsorted as [Hsorted Hbefore].
  rewrite <- (limiter_invariant maxRequests windowMs reqs Hsorted _ _ Hbefore).
  unfold rateLimitMiddleware, rateLimit. now destruct (_ >=? maxRequests).
Qed.

(** X20: with a clock that does not go back, the rate limiter answers a
    request from what it let through before: the request gets 429 exactly
    when at least [maxRequests] of the requests with the same key (address
    and path) that were let through are less than [windowMs] old, the
    rejected ones not counting; requests under other keys play no part. *)
Theorem rate_limiter_counts_admitted_requests maxRequests windowMs reqs req :
  nondecreasing (map req_time (reqs ++ [req])) = true ->
  snd (rateLimitMiddleware maxRequests windowMs req
         (snd (serve_all maxRequests windowMs reqs)))
  = if Z.of_nat (length (filter (fun time => req_time req - time < windowMs)
                           (admitted (limiter_key req)
                              (fst (serve_all maxRequests windowMs reqs)))))
       >=? maxRequests
    then TooManyRequests else Next.
Proof. apply rateLimitMiddleware_answer. Qed.

Lemma rate_limiter_counts_admitted_requests_witness :
  snd (rateLimitMiddleware 2 1000 (checkout_at "10.0.0.1" 900)
         (snd (serve_all 2 1000
                 [checkout_at "10.0.0.1" 0; checkout_at "10.0.0.2" 10;
                  checkout_at "10.0.0.1" 500; checkout_at "10.0.0.1" 600])))
  = TooManyRequests.
Proof.
  rewrite (rate_limiter_counts_admitted_requests 2 1000
             [checkout_at "10.0.0.1" 0; checkout_at "10.0.0.2" 10;
              checkout_at "10.0.0.1" 500; checkout_at "10.0.0.1" 600]
             (checkout_at "10.0.0.1" 900)); reflexivity.
Defined.

(** X21: the limiter lets a client in again: with a clock that does not
    go back and a positive [maxRequests], a request that comes at least
    [windowMs] after every earlier request is let through, whatever was
    answered before. *)
Theorem rate_limiter_recovers maxRequests windowMs reqs req :
  0 < maxRequests ->
  nondecreasing (map req_time (reqs ++ [req])) = true ->
  forallb (fun earlier => windowMs <=? req_time req - req_time earlier) reqs = true ->
  snd (rateLimitMiddleware maxRequests windowMs req
         (snd (serve_all maxRequests windowMs reqs))) = Next.
Proof.
  intros Hmax Hsorted Hquiet. rewrite (rateLimitMiddleware_answer _ _ _ _ Hsorted).
  assert (Hnone : filter (fun time => req_time req - time < windowMs)
                         (admitted (limiter_key req)
                            (fst (serve_all maxRequests windowMs reqs))) = []).
  { destruct (filter _ _) as [|time others] eqn:Hfound; [reflexivity|].
    assert (Hin : time ∈ filter (fun time => req_time req - time < windowMs)
                           (admitted (limiter_key req)
                              (fst (serve_all maxRequests windowMs reqs))))
      by (rewrite Hfound; left).
    apply list_elem_of_filter in Hin as [Hrecent Hin].
    apply admitted_times, list_elem_of_fmap in Hin as (earlier & -> & Hin).
    rewrite forallb_forall in Hquiet.
    apply list_elem_of_In, Hquiet, Z.leb_le in Hin. lia. }
  rewrite Hnone. simpl length.
  destruct (Z.geb_spec (Z.of_nat 0) maxRequests) as [Hle|]; [simpl in Hle; lia|reflexivity].
Qed.

Lemma rate_limiter_recovers_witness :
  snd (rateLimitMiddleware 1 1000 (checkout_at "10.0.0.1" 1700)
         (snd (serve_all 1 1000
                 [checkout_at "10.0.0.1" 0; checkout_at "10.0.0.1" 700])))
  = Next.
Proof.
  apply (rate_limiter_recovers 1 1000
           [checkout_at "10.0.0.1" 0; checkout_at "10.0.0.1" 700]
           (checkout_at "10.0.0.1" 1700)); [lia|reflexivity|reflexivity].
Defined.

(** ** The block types by category *)

Lemma group_by_category_snoc rows block :
  group_by_category (rows ++ [block])
  = groups ← group_by_category rows;
    if object_prototype_member (bt_category block) then None
    else Some (<[bt_category block :=
                   default [] (groups !! bt_category block) ++ [block]]> groups).
Proof. unfold group_by_category. now rewrite foldl_snoc. Qed.

Lemma in_category_snoc category rows block :
  in_category category (rows ++ [block])
  = in_category category rows
    ++ (if String.eqb (bt_category block) category then [block] else []).
Proof.
  unfold in_category. rewrite filter_app. f_equal. rewrite filter_cons.
  destruct (String.eqb _ _); case_decide; try congruence; reflexivity.
Qed.

Lemma group_by_category_lookup (rows : list block_type_entry) :
  forallb (fun block => negb (object_prototype_member (bt_category block))) rows = true ->
  exists groups,
    group_by_category rows = Some groups
    /\ forall category : string,
         groups !! category
         = match in_category category rows with
           | [] => None
           | found => Some found
           end.
Proof.
  induction rows as [|block rows IH] using rev_ind; intros Hall.
  - exists ∅. split; [reflexivity|]. intros category. apply lookup_empty.
  - rewrite forallb_app in Hall. apply andb_true_iff in Hall as [Hrows Hblock].
    simpl in Hblock. rewrite andb_true_r in Hblock. apply negb_true_iff in Hblock.
    destruct (IH Hrows) as (groups & Hgroups & Hlookup).
    rewrite group_by_category_snoc, Hgroups. simpl. rewrite Hblock.
    eexists. split; [reflexivity|]. intros category.
    rewrite in_category_snoc.
    destruct (String.eqb_spec (bt_category block) category) as [<-|Hother].
    + rewrite lookup_insert_eq, Hlookup.
      now destruct (in_category (bt_category block) rows).
    + rewrite lookup_insert_ne by assumption. now rewrite app_nil_r.
Qed.

Lemma group_by_category_throws (rows : list block_type_entry) :
  existsb (fun block => object_prototype_member (bt_category block)) rows = true ->
  group_by_category rows = None.
Proof.
  unfold group_by_category. generalize (Some (∅ : gmap string (list block_type_entry))).
  induction rows as [|block rows IH]; intros acc; [discriminate|]. simpl.
  destruct (object_prototype_member (bt_category block)) eqn:Hblock; simpl.
  - intros _. replace (acc ≫= _) with (@None (gmap string (list block_type_entry)))
      by now destruct acc.
    clear. induction rows as [|r rows IH]; [reflexivity|exact IH].
  - intros Hrows. now apply IH.
Qed.

(** X22: [GET /api/block-types] groups the rows by category: when no
    category is a name that every object inherits, [byCategory] has, under
    each category that occurs, the rows of that category in the order of the
    query, and no other member; when a category is such a name (for example
    [constructor]), the grouping throws and the route answers 500. *)
Theorem block_types_are_grouped_by_category (rows : list block_type_entry) :
  (forallb (fun block => negb (object_prototype_member (bt_category block))) rows = true ->
   exists byCategory,
     get_block_types (Some rows) = BlockTypes rows byCategory
     /\ forall category : string,
          byCategory !! category
          = match in_category category rows with
            | [] => None
            | found => Some found
            end)
  /\ (existsb (fun block => object_prototype_member (bt_category block)) rows = true ->
      get_block_types (Some rows) = BlockTypesFailed).
Proof.
  split.
  - intros Hall. destruct (group_by_category_lookup rows Hall) as (groups & Hgroups & Hlookup).
    exists groups. unfold get_block_types. now rewrite Hgroups.
  - intros Hsome. unfold get_block_types. now rewrite group_by_category_throws.
Qed.

Lemma block_types_are_grouped_by_category_witness :
  (exists byCategory,
     get_block_types (Some entries_example) = BlockTypes entries_example byCategory
     /\ forall category : string,
          byCategory !! category
          = match in_category category entries_example with
            | [] => None
            | found => Some found
            end)
  /\ get_block_types (Some [entry 4 "odd" "constructor"]) = BlockTypesFailed.
Proof.
  split.
  - apply (proj1 (block_types_are_grouped_by_category entries_example)). reflexivity.
  - apply (proj2 (block_types_are_grouped_by_category [entry 4 "odd" "constructor"])).
    reflexivity.
Defined.

(** ** The [each] helper on values that are not arrays *)

Lemma get_index_characters (s : string) : forall i,
  get_index (VStr s) i = nth i (characters s) VUndefined.
Proof.
  unfold characters. induction s as [|c s IH]; intros [|i]; simpl; try reflexivity.
  apply IH.
Qed.

Lemma characters_length (s : string) : length (characters s) = String.length s.
Proof.
  unfold characters. rewrite length_map.
  induction s as [|c s IH]; simpl; [reflexivity|now rewrite IH].
Qed.

Lemma foldl_pointwise {A B} (f g : A -> B -> A) (l : list B) :
  (forall a b, f a b = g a b) -> forall a, foldl f a l = foldl g a l.
Proof.
  intros Hfg. induction l as [|b l IH]; intros a; simpl; [reflexivity|].
  now rewrite Hfg, IH.
Qed.

Lemma each_helper_string s options :
  each_helper (VStr s) options = concat_fragments (fn options) (characters s).
Proof.
  unfold each_helper. simpl. rewrite Nat2Z.id, <- characters_length.
  rewrite (foldl_pointwise _
             (fun ret i => r ← ret; out ← fn options (nth i ([] ++ characters s) VUndefined);
                           Some (r +:+ out))).
  - pose proof (each_loop (fn options) (characters s) [] (Some "")) as Hloop.
    simpl in Hloop. simpl. rewrite Hloop.
    destruct (concat_fragments (fn options) (characters s)); reflexivity.
  - intros ret i.
    change (nth i ([] ++ characters s) VUndefined) with (nth i (characters s) VUndefined).
    now rewrite <- get_index_characters.
Qed.

(** X23: the registered [each] helper on a value that is not an array:
    on [undefined] or [null], which is what a field the config does not have
    resolves to, it throws; on a number or a boolean it renders nothing; on a
    string of ASCII characters it renders its body once per character. *)
Theorem each_helper_on_other_values options :
  each_helper VUndefined options = None
  /\ each_helper VNull options = None
  /\ (forall n, each_helper (VNum n) options = Some "")
  /\ (forall b, each_helper (VBool b) options = Some "")
  /\ (forall s,
        ascii_text s = true ->
        each_helper (VStr s) options
        = concat_fragments (fn options) (characters s)).
Proof.
  repeat split; try reflexivity. intros s _. apply each_helper_string.
Qed.

Lemma each_helper_on_other_values_witness :
  each_helper (VStr "ab") bracketed = Some "<a><b>".
Proof.
  destruct (each_helper_on_other_values bracketed) as (_ & _ & _ & _ & Hstring).
  rewrite (Hstring "ab"); reflexivity.
Defined.

(** ** Activating a theme in one transaction *)

Lemma activated_tenant id tenantId t : th_tenant_id (activated id tenantId t) = th_tenant_id t.
Proof. unfold activated. now destruct (is_theme _ _ t). Qed.

Lemma activated_map id tenantId (rows : list theme_row) :
  map (activated id tenantId) rows
  = map (fun t => if is_theme id tenantId t then activated id tenantId t else t) rows.
Proof.
  apply map_ext. intros t. unfold activated. now destruct (is_theme _ _ t).
Qed.

(** X24: [PATCH /api/themes/:id/activate] is all or nothing: an answer
    500 leaves the themes as they were; an answer of success has made the
    theme with the given id the one active theme of the tenant, every other
    theme of the tenant inactive, and has left the themes of the other
    tenants alone, so that no tenant has two active themes afterwards if none
    had before.  When the tenant has no theme with that id the answer is
    still success, and the tenant is left with no active theme. *)
Theorem activate_theme_is_atomic faults id tenantId themes :
  (snd (activate_theme faults id tenantId themes) = ActivateFailed ->
   fst (activate_theme faults id tenantId themes) = themes)
  /\ (snd (activate_theme faults id tenantId themes) = ActivateOk ->
      (forall t,
         t ∈ fst (activate_theme faults id tenantId themes) ->
         th_tenant_id t = tenantId ->
         th_is_active t = (th_id t =? id))
      /\ (forall (i : nat) t,
            themes !! i = Some t ->
            th_tenant_id t <> tenantId ->
            fst (activate_theme faults id tenantId themes) !! i = Some t)
      /\ (theme_ids_unique themes = true ->
          at_most_one_active themes = true ->
          at_most_one_active (fst (activate_theme faults id tenantId themes)) = true)
      /\ (existsb (is_theme id tenantId) themes = false ->
          existsb (fun u => th_is_active u && (th_tenant_id u =? tenantId))
                  (fst (activate_theme faults id tenantId themes)) = false)).
Proof.
  unfold activate_theme.
  destruct (faults 0%nat || faults 1%nat || faults 2%nat || faults 3%nat); simpl.
  - split; [reflexivity|discriminate].
  - split; [discriminate|]. intros _. split; [|split; [|split]].
    + intros t Ht Htenant.
      apply list_elem_of_fmap in Ht as (u & -> & Hu).
      apply list_elem_of_fmap in Hu as (v & -> & _).
      revert Htenant. unfold activated, is_theme.
      rewrite deactivated_id, deactivated_tenant.
      destruct (th_id v =? id) eqn:Hv; simpl.
      * destruct (th_tenant_id v =? tenantId) eqn:Hvt; simpl.
        -- intros _. now rewrite ?deactivated_id, Hv.
        -- rewrite ?deactivated_tenant. intros Ht.
           rewrite Ht, Z.eqb_refl in Hvt. discriminate.
      * rewrite deactivated_tenant, deactivated_id, deactivated_active, Hv. intros Ht.
        now rewrite Ht, Z.eqb_refl, andb_false_r.
    + intros i t Hi Ht. rewrite !list_lookup_fmap, Hi. simpl.
      unfold deactivated, activated, is_theme.
      destruct (Z.eqb_spec (th_tenant_id t) tenantId); [contradiction|].
      destruct (Z.eqb_spec (th_tenant_id t) tenantId); [contradiction|].
      now rewrite andb_false_r.
    + intros Hids Hone. rewrite activated_map.
      apply at_most_one_active_hit.
      * apply activated_tenant.
      * rewrite theme_ids_unique_map; [assumption|apply deactivated_id].
      * apply deactivated_off.
      * apply at_most_one_active_map; [apply deactivated_tenant| |assumption].
        intros t. rewrite deactivated_active. now destruct (th_is_active t).
    + intros Hnone.
      assert (Hsame : map (activated id tenantId) (map (deactivated tenantId) themes)
                      = map (deactivated tenantId) themes).
      { clear -Hnone. induction themes as [|t themes IH]; [reflexivity|].
        simpl in *. apply orb_false_iff in Hnone as [Ht Hthemes].
        rewrite (IH Hthemes). f_equal. unfold activated, is_theme in *.
        now rewrite deactivated_id, deactivated_tenant, Ht. }
      rewrite Hsame. apply deactivated_off.
Qed.

Lemma activate_theme_is_atomic_witness :
  fst (activate_theme (fun n => Nat.eqb n 2) 2 1 themes_example) = themes_example
  /\ at_most_one_active (fst (activate_theme no_faults 2 1 themes_example)) = true
  /\ existsb (fun u => th_is_active u && (th_tenant_id u =? 1))
             (fst (activate_theme no_faults 3 1 themes_example)) = false.
Proof.
  destruct (activate_theme_is_atomic (fun n => Nat.eqb n 2) 2 1 themes_example)
    as [Hfailed _].
  destruct (activate_theme_is_atomic no_faults 2 1 themes_example) as [_ Hok].
  destruct Hok as (_ & _ & Hone & _); [reflexivity|].
  destruct (activate_theme_is_atomic no_faults 3 1 themes_example) as [_ Hmissing].
  destruct Hmissing as (_ & _ & _ & Hoff); [reflexivity|].
  split; [apply Hfailed; reflexivity|].
  split; [apply Hone; reflexivity|apply Hoff; reflexivity].
Defined.

(** ** The two public routes for a page *)

(** X25: the two public routes agree on the page: with the same
    requests going through, [GET /api/storefront/page/:slug] serves a page
    exactly when [GET /api/pages/slug/:slug] returns one, it is the same row
    of [pages], published and with the requested slug, and what is served is
    the HTML of the blocks of that row; both answer 400 and 404 in the same
    cases. *)
Theorem public_page_routes_agree faults tenants block_types year req db :
  faults 2%nat = false ->
  match get_page_by_slug faults tenants req db with
  | SlugJson page =>
      p_is_published page = true
      /\ p_slug page = param_slug req
      /\ page ∈ pages db
      /\ exists tenant,
           tenant ∈ tenants /\ p_tenant_id page = t_id tenant
           /\ storefront_page faults tenants block_types year req db
              = match renderBlocks_value false block_types year (p_blocks page) with
                | Some html => Served (served tenant page html)
                | None => LoadFailed
                end
  | SlugSubdomainRequired =>
      storefront_page faults tenants block_types year req db = SubdomainRequired
  | SlugStoreNotFound =>
      storefront_page faults tenants block_types year req db = StoreNotFound
  | SlugPageNotFound =>
      storefront_page faults tenants block_types year req db = PageNotFound
  | SlugFailed =>
      storefront_page faults tenants block_types year req db = LoadFailed
  end.
Proof.
  intros Hf2. unfold get_page_by_slug, storefront_page.
  destruct (or_else _ _) as [subdomain|]; [|reflexivity].
  destruct (String.eqb subdomain ""); [reflexivity|].
  destruct (faults 0%nat); [reflexivity|].
  destruct (filter _ tenants) as [|tenant rest] eqn:Htenant; [reflexivity|].
  destruct (faults 1%nat); [reflexivity|].
  destruct (published_pages _ _ _) as [|page others] eqn:Hpage; [reflexivity|].
  assert (Ht : tenant ∈ filter (fun t => String.eqb (t_subdomain t) subdomain = true)
                               tenants) by (rewrite Htenant; left).
  apply list_elem_of_filter in Ht as [_ Ht].
  assert (Hp : page ∈ published_pages (t_id tenant) (param_slug req) db)
    by (rewrite Hpage; left).
  unfold published_pages in Hp. apply list_elem_of_filter in Hp as [Hpp Hp].
  apply andb_true_iff in Hpp as [Hpp Hpub]. apply andb_true_iff in Hpp as [Hpt Hps].
  apply Z.eqb_eq in Hpt. apply String.eqb_eq in Hps.
  repeat split; try assumption.
  exists tenant. rewrite Hf2. repeat split; try assumption.
Qed.

Lemma public_page_routes_agree_witness :
  p_is_published published_home = true
  /\ p_slug published_home = "welcome"
  /\ published_home ∈ pages storefront_db
  /\ exists tenant,
       tenant ∈ [other_tenant; shop_tenant] /\ p_tenant_id published_home = t_id tenant
       /\ storefront_page no_faults [other_tenant; shop_tenant] block_types_example 2026
            welcome_request storefront_db
          = match renderBlocks_value false block_types_example 2026
                    (p_blocks published_home) with
            | Some html => Served (served tenant published_home html)
            | None => LoadFailed
            end.
Proof.
  apply (public_page_routes_agree no_faults [other_tenant; shop_tenant]
           block_types_example 2026 welcome_request storefront_db).
  reflexivity.
Defined.
